(** * A shallow embedding of [src/app.js] (the [ChatbotApp] browser widget)

    The widget is an event-driven JavaScript class.  Its state is the
    fields of the class instance, the part of the page it reads and
    writes, and the host objects it calls ([localStorage], [console],
    the realtime socket, timers).  All of that is threaded explicitly
    through a state-and-exception monad; every method of the class is a
    computation in that monad, every listener registered by the source
    is one case of the [listener] function.

    JavaScript strings are sequences of UTF-16 code units, modelled as
    [list N]; string literals of the source are written [js "..."].

    Left out: [apiCall], [sendMessageREST], [formatTimestamp] and
    [debounce], which nothing calls; layout ([scrollTop]); the quota of
    [localStorage] ([setItem] always succeeds here); whatever the
    Socket.IO client does on its own between the events it delivers.  The
    clock [Date.now()] is a field of the environment. *)

From Stdlib Require Import NArith ZArith List String Ascii Bool Lia.
From Stdlib Require Import DecimalN DecimalPos DecimalFacts.
From stdpp Require Import base option list gmap.

Local Open Scope N_scope.
Local Set Warnings "-register-all".

(** ** Strings *)

Abbreviation jsstring := (list N).

(** A source literal, turned into its code units (ASCII only). *)
Definition js (s : string) : jsstring :=
  List.map N_of_ascii (list_ascii_of_string s).

(** The double quote, written by its code because it cannot stand in a literal. *)
Definition dq : jsstring := [34].

Fixpoint jseqb (a b : jsstring) : bool :=
  match a, b with
  | [], [] => true
  | x :: a', y :: b' => (x =? y) && jseqb a' b'
  | _, _ => false
  end.

(** [String.prototype.trim] removes WhiteSpace and LineTerminator code
    points (ECMA-262, 22.1.3.32 with tables 35 and 36). *)
Definition is_js_space (c : N) : bool :=
  (c =? 9) || (c =? 10) || (c =? 11) || (c =? 12) || (c =? 13) || (c =? 32)
  || (c =? 160) || (c =? 5760) || ((8192 <=? c) && (c <=? 8202))
  || (c =? 8232) || (c =? 8233) || (c =? 8239) || (c =? 8287)
  || (c =? 12288) || (c =? 65279).

Fixpoint trimStart (s : jsstring) : jsstring :=
  match s with
  | c :: r => if is_js_space c then trimStart r else s
  | [] => []
  end.

Definition trim (s : jsstring) : jsstring :=
  rev (trimStart (rev (trimStart s))).

(** [join] of [Array.prototype.join]; the pieces are already strings. *)
Fixpoint join (sep : jsstring) (l : list jsstring) : jsstring :=
  match l with
  | [] => []
  | [x] => x
  | x :: r => x ++ sep ++ join sep r
  end.

(** [String.prototype.replace] with a one-character string pattern: only
    the first occurrence is replaced. *)
Fixpoint replace_first (pat : N) (by_ : jsstring) (s : jsstring) : jsstring :=
  match s with
  | [] => []
  | c :: r => if c =? pat then by_ ++ r else c :: replace_first pat by_ r
  end.

(** Decimal digits of a natural number, most significant first. *)
Fixpoint uint_codes (u : Decimal.uint) : jsstring :=
  match u with
  | Decimal.Nil => []
  | Decimal.D0 r => 48 :: uint_codes r
  | Decimal.D1 r => 49 :: uint_codes r
  | Decimal.D2 r => 50 :: uint_codes r
  | Decimal.D3 r => 51 :: uint_codes r
  | Decimal.D4 r => 52 :: uint_codes r
  | Decimal.D5 r => 53 :: uint_codes r
  | Decimal.D6 r => 54 :: uint_codes r
  | Decimal.D7 r => 55 :: uint_codes r
  | Decimal.D8 r => 56 :: uint_codes r
  | Decimal.D9 r => 57 :: uint_codes r
  end.

Definition decimal (n : N) : jsstring := uint_codes (N.to_uint n).

Definition decimalZ (z : Z) : jsstring :=
  match z with
  | Zneg p => 45 :: decimal (Npos p)
  | _ => decimal (Z.to_N z)
  end.

Definition is_digit (c : N) : bool := (48 <=? c) && (c <=? 57).

(** Value of a run of decimal digits, and the rest of the input. *)
Fixpoint read_digits (acc : N) (s : jsstring) : N * jsstring :=
  match s with
  | c :: r => if is_digit c then read_digits (10 * acc + (c - 48)) r else (acc, s)
  | [] => (acc, [])
  end.

(** The class tokens of a [className]: split on ASCII whitespace (DOM
    standard, ordered sets). *)
Definition is_ascii_space (c : N) : bool :=
  (c =? 9) || (c =? 10) || (c =? 12) || (c =? 13) || (c =? 32).

Fixpoint tokens_from (cur : jsstring) (s : jsstring) : list jsstring :=
  match s with
  | [] => match cur with [] => [] | _ => [rev cur] end
  | c :: r =>
      if is_ascii_space c
      then match cur with [] => tokens_from [] r | _ => rev cur :: tokens_from [] r end
      else tokens_from (c :: cur) r
  end.

Definition tokens (s : jsstring) : list jsstring := tokens_from [] s.

(** ** JavaScript values

    The values this program handles are strings it builds itself and
    the JSON-shaped payloads it receives (socket events, HTTP bodies,
    the parsed history).  A number keeps its integer value when it is an
    integer a double represents exactly; any other numeric literal keeps
    its lexeme, and what the engine's double arithmetic makes of it is
    asked of the host (see [Host] below). *)

Inductive jsnum :=
| Int (z : Z)                (** an integer of magnitude at most [2^53] *)
| Real (lexeme : jsstring).  (** any other number, by its JSON literal *)

Inductive jsval :=
| JUndefined
| JNull
| JBool (b : bool)
| JNum (n : jsnum)
| JStr (s : jsstring)
| JArr (items : list jsval)
| JObj (members : list (jsstring * jsval)).

Inductive error_kind := SyntaxError | TypeError | HostError.

(** A thrown value: an error raised by the engine or the host, or
    [new Error(message)] raised by the program. *)
Inductive exn :=
| EngineError (kind : error_kind)
| AppError (message : jsstring).

Inductive completion (A : Type) :=
| Normal (a : A)
| Throw (e : exn).
Arguments Normal {A} a.
Arguments Throw {A} e.

Definition cbind {A B} (c : completion A) (k : A -> completion B) : completion B :=
  match c with
  | Normal a => k a
  | Throw e => Throw e
  end.

(** ** The page: a small DOM tree

    Elements carry their tag, their [className] and their children;
    only class selectors are used by the source. *)

Inductive node :=
| Text (data : jsstring)
| Elem (tag : jsstring) (className : jsstring) (children : list node).

Fixpoint textContent (n : node) : jsstring :=
  match n with
  | Text d => d
  | Elem _ _ cs => concat (List.map textContent cs)
  end.

(** Descendants of a node in document (pre-)order, the node excluded. *)
Fixpoint descendants (n : node) : list node :=
  match n with
  | Text _ => []
  | Elem _ _ cs => flat_map (fun c => c :: descendants c) cs
  end.

Definition descendants_of (cs : list node) : list node :=
  flat_map (fun c => c :: descendants c) cs.

(** [classList.contains(cls)]; also the match test of the selector [.cls]. *)
Definition classList_contains (cls : jsstring) (n : node) : bool :=
  match n with
  | Text _ => false
  | Elem _ cn _ => existsb (jseqb cls) (tokens cn)
  end.

(** [root.querySelectorAll('.cls')] on the children of [root]. *)
Definition querySelectorAll (cls : jsstring) (cs : list node) : list node :=
  List.filter (classList_contains cls) (descendants_of cs).

(** [el.querySelector('.cls')]: the first match, [None] for [null]. *)
Definition querySelector (cls : jsstring) (n : node) : option node :=
  head (List.filter (classList_contains cls) (descendants n)).

(** The tree after [el.remove()] was called on every element matching
    [.cls]: each one leaves its parent, with its subtree. *)
Fixpoint remove_matching (cls : jsstring) (n : node) : node :=
  match n with
  | Text d => Text d
  | Elem t cn cs =>
      Elem t cn
        ((fix prune (l : list node) : list node :=
            match l with
            | [] => []
            | c :: r =>
                if classList_contains cls c then prune r
                else remove_matching cls c :: prune r
            end) cs)
  end.

Definition remove_all (cls : jsstring) (cs : list node) : list node :=
  List.map (remove_matching cls)
    (List.filter (fun c => negb (classList_contains cls c)) cs).

(** ** What is asked of the host

    What the browser supplies and cannot be written as functions on the
    data above: the double-precision reading of a non-integer numeric
    literal (its text, whether it is zero, its rounded percentage), the
    HTML fragment parser behind [innerHTML] when the markup is built from
    data, and the wording of engine errors. *)
Class Host := {
  (** [String(x)] for the double a non-integer literal denotes *)
  real_toString : jsstring -> jsstring;
  (** whether that double is [0] (or [-0]) *)
  real_is_zero : jsstring -> bool;
  (** the text of [Math.round(x * 100)] *)
  round_percent : jsval -> jsstring;
  (** the nodes the fragment parser builds from markup *)
  parseHTML : jsstring -> list node;
  (** [error.message] of an engine error *)
  engine_message : error_kind -> jsstring
}.

(** *** Own properties of an object

    The members of a [JObj] are its own enumerable properties in the
    order [Object.entries] and [JSON.stringify] visit them: index-like
    keys first, ascending, then the other keys in insertion order, each
    key once.  Object literals of the source are written in that form;
    [own_entries] puts the members read from JSON text into it. *)

(** The value of key [k]: with duplicate keys the last one wins. *)
Definition own_property (k : jsstring) (ms : list (jsstring * jsval)) : option jsval :=
  fold_left (fun acc kv => if jseqb (fst kv) k then Some (snd kv) else acc) ms None.

(** The array index a property name denotes, if any. *)
Definition array_index (k : jsstring) : option N :=
  match k with
  | [] => None
  | _ :: _ =>
      let '(n, rest) := read_digits 0 k in
      if jseqb rest [] && jseqb (decimal n) k && (n <=? 4294967294)
      then Some n else None
  end.

Fixpoint insert_by_index (e : N * (jsstring * jsval)) (l : list (N * (jsstring * jsval)))
  : list (N * (jsstring * jsval)) :=
  match l with
  | [] => [e]
  | x :: r => if fst e <? fst x then e :: l else x :: insert_by_index e r
  end.

(** Keys without repetition, in order of first appearance. *)
Fixpoint first_keys (seen : list jsstring) (ms : list (jsstring * jsval)) : list jsstring :=
  match ms with
  | [] => []
  | (k, _) :: r =>
      if existsb (jseqb k) seen then first_keys seen r
      else k :: first_keys (k :: seen) r
  end.

Definition is_index_key (kv : jsstring * jsval) : bool :=
  match array_index (fst kv) with
  | Some _ => true
  | None => false
  end.

Definition own_entries (ms : list (jsstring * jsval)) : list (jsstring * jsval) :=
  let keyed := List.map (fun k => (k, default JUndefined (own_property k ms)))
                 (first_keys [] ms) in
  let idx := fold_right insert_by_index []
               (omap (fun kv => (fun n => (n, kv)) <$> array_index (fst kv)) keyed) in
  List.map snd idx ++ List.filter (fun kv => negb (is_index_key kv)) keyed.

(** ** JSON text

    [JSON.parse] follows the grammar of ECMA-404; [JSON.stringify]
    follows [SerializeJSONProperty] and [QuoteJSONString] of ECMA-262. *)

Definition is_json_ws (c : N) : bool :=
  (c =? 9) || (c =? 10) || (c =? 13) || (c =? 32).

Fixpoint skip_ws (s : jsstring) : jsstring :=
  match s with
  | c :: r => if is_json_ws c then skip_ws r else s
  | [] => []
  end.

Definition hex_digit (d : N) : N := if d <? 10 then 48 + d else 87 + d.

Definition hex4 (c : N) : jsstring :=
  [hex_digit (c / 4096 mod 16); hex_digit (c / 256 mod 16);
   hex_digit (c / 16 mod 16); hex_digit (c mod 16)].

Definition hex_value (c : N) : option N :=
  if is_digit c then Some (c - 48)
  else if (97 <=? c) && (c <=? 102) then Some (c - 87)
  else if (65 <=? c) && (c <=? 70) then Some (c - 55)
  else None.

Definition is_lead (c : N) : bool := (55296 <=? c) && (c <=? 56319).
Definition is_trail (c : N) : bool := (56320 <=? c) && (c <=? 57343).

Definition starts_with_trail (s : jsstring) : bool :=
  match s with
  | c :: _ => is_trail c
  | [] => false
  end.

(** One code unit inside a quoted string; [paired] tells whether a
    surrogate is half of a well-formed pair. *)
Definition quote_unit (paired : bool) (c : N) : jsstring :=
  if c =? 8 then [92; 98]
  else if c =? 9 then [92; 116]
  else if c =? 10 then [92; 110]
  else if c =? 12 then [92; 102]
  else if c =? 13 then [92; 114]
  else if c =? 34 then [92; 34]
  else if c =? 92 then [92; 92]
  else if (c <? 32) || ((is_lead c || is_trail c) && negb paired)
       then 92 :: 117 :: hex4 c
  else [c].

Fixpoint quote_units (prev_lead : bool) (s : jsstring) : jsstring :=
  match s with
  | [] => []
  | c :: r =>
      quote_unit ((is_lead c && starts_with_trail r) || (is_trail c && prev_lead)) c
        ++ quote_units (is_lead c) r
  end.

Definition QuoteJSONString (s : jsstring) : jsstring :=
  dq ++ quote_units false s ++ dq.

Definition simple_escape (e : N) : option N :=
  if e =? 34 then Some 34
  else if e =? 92 then Some 92
  else if e =? 47 then Some 47
  else if e =? 98 then Some 8
  else if e =? 102 then Some 12
  else if e =? 110 then Some 10
  else if e =? 114 then Some 13
  else if e =? 116 then Some 9
  else None.

(** The characters of a string literal, after its opening quote, up to
    and including the closing quote. *)
Fixpoint read_string (s : jsstring) : option (jsstring * jsstring) :=
  match s with
  | [] => None
  | c :: r =>
      if c =? 34 then Some ([], r)
      else if c =? 92 then
        match r with
        | [] => None
        | e :: r1 =>
            if e =? 117 then
              match r1 with
              | h3 :: h2 :: h1 :: h0 :: r2 =>
                  match hex_value h3, hex_value h2, hex_value h1, hex_value h0 with
                  | Some a, Some b, Some c', Some d =>
                      match read_string r2 with
                      | Some (x, rest) => Some (((a * 16 + b) * 16 + c') * 16 + d :: x, rest)
                      | None => None
                      end
                  | _, _, _, _ => None
                  end
              | _ => None
              end
            else
              match simple_escape e with
              | Some u =>
                  match read_string r1 with
                  | Some (x, rest) => Some (u :: x, rest)
                  | None => None
                  end
              | None => None
              end
        end
      else if c <? 32 then None
      else
        match read_string r with
        | Some (x, rest) => Some (c :: x, rest)
        | None => None
        end
  end.

Fixpoint span_digits (s : jsstring) : jsstring * jsstring :=
  match s with
  | c :: r =>
      if is_digit c then let '(ds, rest) := span_digits r in (c :: ds, rest)
      else ([], s)
  | [] => ([], [])
  end.

(** [. digits+], or nothing. *)
Definition read_fraction (s : jsstring) : option (jsstring * jsstring) :=
  match s with
  | 46 :: r =>
      match span_digits r with
      | ([], _) => None
      | (ds, rest) => Some (46 :: ds, rest)
      end
  | _ => Some ([], s)
  end.

(** [(e|E) (+|-)? digits+], or nothing. *)
Definition read_exponent (s : jsstring) : option (jsstring * jsstring) :=
  match s with
  | c :: r =>
      if (c =? 101) || (c =? 69) then
        let '(sign, r1) :=
          match r with
          | x :: r' => if (x =? 43) || (x =? 45) then ([x], r') else ([], r)
          | [] => ([], r)
          end in
        match span_digits r1 with
        | ([], _) => None
        | (ds, rest) => Some (c :: sign ++ ds, rest)
        end
      else Some ([], s)
  | [] => Some ([], [])
  end.

(** Integers up to [2^53] in magnitude are exact doubles. *)
Definition max_exact : N := 9007199254740992.

Definition read_number (s : jsstring) : option (jsnum * jsstring) :=
  let '(neg, s1) :=
    match s with
    | 45 :: r => (true, r)
    | _ => (false, s)
    end in
  match s1 with
  | c :: r =>
      if is_digit c then
        let '(int_part, s2) := if c =? 48 then ([48], r) else span_digits s1 in
        match read_fraction s2 with
        | None => None
        | Some (frac, s3) =>
            match read_exponent s3 with
            | None => None
            | Some (ex, s4) =>
                let magnitude := fst (read_digits 0 int_part) in
                let exact :=
                  match frac, ex with
                  | [], [] => magnitude <=? max_exact
                  | _, _ => false
                  end in
                Some (if exact
                      then Int (if neg then - Z.of_N magnitude else Z.of_N magnitude)%Z
                      else Real ((if neg then [45] else []) ++ int_part ++ frac ++ ex),
                      s4)
            end
        end
      else None
  | [] => None
  end.

Fixpoint strip_prefix (p s : jsstring) : option jsstring :=
  match p, s with
  | [], _ => Some s
  | a :: p', b :: s' => if a =? b then strip_prefix p' s' else None
  | _ :: _, [] => None
  end.

(** The elements of a non-empty array after its opening bracket, up to
    and including the closing bracket; [rv] reads one value. *)
Fixpoint read_elements (rv : jsstring -> option (jsval * jsstring))
    (fuel : nat) (s : jsstring) : option (list jsval * jsstring) :=
  match fuel with
  | O => None
  | S f =>
      match rv s with
      | None => None
      | Some (v, r) =>
          match skip_ws r with
          | c :: r' =>
              if c =? 44 then
                match read_elements rv f r' with
                | Some (vs, rest) => Some (v :: vs, rest)
                | None => None
                end
              else if c =? 93 then Some ([v], r')
              else None
          | [] => None
          end
      end
  end.

(** The members of a non-empty object after its opening brace, up to
    and including the closing brace. *)
Fixpoint read_members (rv : jsstring -> option (jsval * jsstring))
    (fuel : nat) (s : jsstring) : option (list (jsstring * jsval) * jsstring) :=
  match fuel with
  | O => None
  | S f =>
      match skip_ws s with
      | c :: r =>
          if c =? 34 then
            match read_string r with
            | None => None
            | Some (k, r1) =>
                match skip_ws r1 with
                | c2 :: r2 =>
                    if c2 =? 58 then
                      match rv r2 with
                      | None => None
                      | Some (v, r3) =>
                          match skip_ws r3 with
                          | c3 :: r4 =>
                              if c3 =? 44 then
                                match read_members rv f r4 with
                                | Some (ms, rest) => Some ((k, v) :: ms, rest)
                                | None => None
                                end
                              else if c3 =? 125 then Some ([(k, v)], r4)
                              else None
                          | [] => None
                          end
                      end
                    else None
                | [] => None
                end
            end
          else None
      | [] => None
      end
  end.

(** One JSON value, leading whitespace skipped.  [fuel] bounds the
    nesting depth; the length of the text always suffices. *)
Fixpoint read_value (fuel : nat) (s : jsstring) : option (jsval * jsstring) :=
  match fuel with
  | O => None
  | S f =>
      match skip_ws s with
      | [] => None
      | c :: r =>
          if c =? 34 then
            match read_string r with
            | Some (x, rest) => Some (JStr x, rest)
            | None => None
            end
          else if c =? 91 then
            match skip_ws r with
            | 93 :: rest => Some (JArr [], rest)
            | _ =>
                match read_elements (read_value f) (length r) r with
                | Some (vs, rest) => Some (JArr vs, rest)
                | None => None
                end
            end
          else if c =? 123 then
            match skip_ws r with
            | 125 :: rest => Some (JObj [], rest)
            | _ =>
                match read_members (read_value f) (length r) r with
                | Some (ms, rest) => Some (JObj (own_entries ms), rest)
                | None => None
                end
            end
          else if c =? 110 then
            match strip_prefix (js "ull") r with
            | Some rest => Some (JNull, rest)
            | None => None
            end
          else if c =? 116 then
            match strip_prefix (js "rue") r with
            | Some rest => Some (JBool true, rest)
            | None => None
            end
          else if c =? 102 then
            match strip_prefix (js "alse") r with
            | Some rest => Some (JBool false, rest)
            | None => None
            end
          else
            match read_number (c :: r) with
            | Some (n, rest) => Some (JNum n, rest)
            | None => None
            end
      end
  end.

(** [JSON.parse(text)]; [None] stands for the [SyntaxError] it throws. *)
Definition JSON_parse (text : jsstring) : option jsval :=
  match read_value (S (length text)) text with
  | Some (v, rest) =>
      match skip_ws rest with
      | [] => Some v
      | _ :: _ => None
      end
  | None => None
  end.


(** ** Coercions and property access *)

Section Model.
Context {host : Host}.

(** Truthiness ([ToBoolean]). *)
Definition truthy (v : jsval) : bool :=
  match v with
  | JUndefined | JNull => false
  | JBool b => b
  | JNum (Int z) => negb (z =? 0)%Z
  | JNum (Real l) => negb (real_is_zero l)
  | JStr s => negb (jseqb s [])
  | JArr _ | JObj _ => true
  end.

(** [a || b] *)
Definition or_else (a b : jsval) : jsval := if truthy a then a else b.

(** [v === 'literal'] *)
Definition is_string (lit : jsstring) (v : jsval) : bool :=
  match v with
  | JStr s => jseqb s lit
  | _ => false
  end.

(** [v.k] for the property names this program reads (none is an array
    index, [length] or a name defined on a built-in prototype): reading
    from [null] or [undefined] throws, a missing property reads
    [undefined]. *)
Definition get (v : jsval) (k : jsstring) : completion jsval :=
  match v with
  | JUndefined | JNull => Throw (EngineError TypeError)
  | JObj ms => Normal (default JUndefined (own_property k ms))
  | _ => Normal JUndefined
  end.

(** [ToString].  An object has the inherited [toString] unless a member
    of that name shadows it; a shadowing member is never callable, and
    then neither it nor [valueOf] yields a primitive: [TypeError].  An
    array joins its elements with commas, [null] and [undefined] giving
    the empty string. *)
Fixpoint ToString (v : jsval) : completion jsstring :=
  match v with
  | JUndefined => Normal (js "undefined")
  | JNull => Normal (js "null")
  | JBool true => Normal (js "true")
  | JBool false => Normal (js "false")
  | JNum (Int z) => Normal (decimalZ z)
  | JNum (Real l) => Normal (real_toString l)
  | JStr s => Normal s
  | JArr items =>
      cbind
        ((fix each (l : list jsval) : completion (list jsstring) :=
            match l with
            | [] => Normal []
            | x :: r =>
                cbind (match x with
                       | JUndefined | JNull => Normal []
                       | _ => ToString x
                       end)
                  (fun s => cbind (each r) (fun ss => Normal (s :: ss)))
            end) items)
        (fun pieces => Normal (join (js ",") pieces))
  | JObj ms =>
      match own_property (js "toString") ms with
      | Some _ => Throw (EngineError TypeError)
      | None => Normal (js "[object Object]")
      end
  end.

(** Conversion to the nullable [DOMString] of [node.textContent = v]. *)
Definition to_text (v : jsval) : completion jsstring :=
  match v with
  | JUndefined | JNull => Normal []
  | _ => ToString v
  end.

(** The text of [Math.round(v * 100)]: [ToNumber] throws exactly where
    [ToString] does, the arithmetic is the host's. *)
Definition percent (v : jsval) : completion jsstring :=
  cbind (ToString v) (fun _ => Normal (round_percent v)).

(** *** [Object.entries] *)

Definition indexed (items : list jsval) : list (jsstring * jsval) :=
  imap (fun i v => (decimal (N.of_nat i), v)) items.

(** [Object.entries(v)] for [v] other than [null] and [undefined]. *)
Definition Object_entries (v : jsval) : list (jsstring * jsval) :=
  match v with
  | JObj ms => own_entries ms
  | JArr items => indexed items
  | JStr s => indexed (List.map (fun c => JStr [c]) s)
  | _ => []
  end.

(** *** [JSON.stringify] *)

Definition number_text (n : jsnum) : jsstring :=
  match n with
  | Int z => decimalZ z
  | Real l => real_toString l
  end.

(** [SerializeJSONProperty] in element position: [undefined] is written
    [null] in an array and is left out of an object. *)
Fixpoint JSON_text (v : jsval) : jsstring :=
  match v with
  | JUndefined | JNull => js "null"
  | JBool true => js "true"
  | JBool false => js "false"
  | JNum n => number_text n
  | JStr s => QuoteJSONString s
  | JArr items =>
      js "[" ++ join (js ",") (List.map JSON_text items) ++ js "]"
  | JObj ms =>
      js "{" ++
      join (js ",")
        ((fix each (l : list (jsstring * jsval)) : list jsstring :=
            match l with
            | [] => []
            | (k, JUndefined) :: r => each r
            | (k, x) :: r => (QuoteJSONString k ++ js ":" ++ JSON_text x) :: each r
            end) ms)
      ++ js "}"
  end.

(** [JSON.stringify(v)] of a value that is not [undefined]. *)
Definition JSON_stringify (v : jsval) : jsstring := JSON_text v.

End Model.

(** ** State

    [App] holds the fields of the [ChatbotApp] instance, [Page] the part
    of the document the instance reads and writes through
    [this.elements], [Env] the host objects. *)

(** The elements looked up by the constructor whose properties are written. *)
Inductive element_id :=
| chatMessages | messageInput | sendButton | typingIndicator | connectionStatus
| analyticsModal | analyticsContent | errorToast | successToast
| errorMessage | successMessage.

(** The string-valued element properties the source assigns. *)
Inductive property :=
| style_display | style_opacity | prop_textContent | prop_innerHTML | prop_className.

#[global] Instance element_id_eq_dec : EqDecision element_id.
Proof. solve_decision. Defined.

#[global] Instance property_eq_dec : EqDecision property.
Proof. solve_decision. Defined.

Definition element_id_code (e : element_id) : nat :=
  match e with
  | chatMessages => 0 | messageInput => 1 | sendButton => 2 | typingIndicator => 3
  | connectionStatus => 4 | analyticsModal => 5 | analyticsContent => 6
  | errorToast => 7 | successToast => 8 | errorMessage => 9 | successMessage => 10
  end%nat.

Definition element_id_decode (n : nat) : element_id :=
  match n with
  | 0 => chatMessages | 1 => messageInput | 2 => sendButton | 3 => typingIndicator
  | 4 => connectionStatus | 5 => analyticsModal | 6 => analyticsContent
  | 7 => errorToast | 8 => successToast | 9 => errorMessage | _ => successMessage
  end%nat.

#[global] Instance element_id_countable : Countable element_id.
Proof.
  apply (inj_countable' element_id_code element_id_decode).
  intros []; reflexivity.
Defined.

Definition property_code (p : property) : nat :=
  match p with
  | style_display => 0 | style_opacity => 1 | prop_textContent => 2
  | prop_innerHTML => 3 | prop_className => 4
  end%nat.

Definition property_decode (n : nat) : property :=
  match n with
  | 0 => style_display | 1 => style_opacity | 2 => prop_textContent
  | 3 => prop_innerHTML | _ => prop_className
  end%nat.

#[global] Instance property_countable : Countable property.
Proof.
  apply (inj_countable' property_code property_decode).
  intros []; reflexivity.
Defined.

Record App := {
  socket : option nat;      (** [this.socket]: [None] for [null], [Some k] for socket [k] *)
  sessionId : jsstring;
  userId : Z;
  isConnected : bool;
  isTyping : bool
}.

Record Page := {
  chat_children : list node;      (** the children of [#chatMessages] *)
  input_value : jsstring;         (** [messageInput.value] *)
  input_parent_focused : bool;    (** ['focused'] in [messageInput.parentElement.classList] *)
  input_active : bool;            (** [messageInput] holds the keyboard focus *)
  send_disabled : bool;           (** [sendButton.disabled] *)
  props : gmap (element_id * property) jsstring
                                  (** assigned string properties; unassigned ones are absent *)
}.

Inductive callback :=
| ScrollToBottom
| EnableSendButton
| HideToast (toast : element_id)
| DimConnectionStatus.

Inductive log_level := LogInfo | LogError.

(** [console.log(text)] and [console.error(text, error)]. *)
Record log_entry := {
  level : log_level;
  text : jsstring;
  thrown : option exn
}.

Record Env := {
  localStorage : gmap jsstring jsstring;
  console : list log_entry;
  io_calls : nat;                        (** how many times [io(...)] was called *)
  io_throws : bool;                      (** whether the [io] factory throws *)
  emitted : list (nat * jsstring * jsval); (** [socket.emit(event, payload)], by socket *)
  timers : list (N * callback);          (** pending [setTimeout]s: delay and callback *)
  requests : list jsstring;              (** URLs passed to [fetch] *)
  now : N                                (** [Date.now()] *)
}.

Record World := {
  app : App;
  page : Page;
  env : Env
}.

Definition set_socket (v : option nat) (a : App) : App :=
  {| socket := v; sessionId := sessionId a; userId := userId a;
     isConnected := isConnected a; isTyping := isTyping a |}.

Definition set_isConnected (v : bool) (a : App) : App :=
  {| socket := socket a; sessionId := sessionId a; userId := userId a;
     isConnected := v; isTyping := isTyping a |}.

Definition set_isTyping (v : bool) (a : App) : App :=
  {| socket := socket a; sessionId := sessionId a; userId := userId a;
     isConnected := isConnected a; isTyping := v |}.

Definition set_chat_children (v : list node) (p : Page) : Page :=
  {| chat_children := v; input_value := input_value p;
     input_parent_focused := input_parent_focused p; input_active := input_active p;
     send_disabled := send_disabled p; props := props p |}.

Definition set_input_value (v : jsstring) (p : Page) : Page :=
  {| chat_children := chat_children p; input_value := v;
     input_parent_focused := input_parent_focused p; input_active := input_active p;
     send_disabled := send_disabled p; props := props p |}.

Definition set_input_parent_focused (v : bool) (p : Page) : Page :=
  {| chat_children := chat_children p; input_value := input_value p;
     input_parent_focused := v; input_active := input_active p;
     send_disabled := send_disabled p; props := props p |}.

Definition set_input_active (v : bool) (p : Page) : Page :=
  {| chat_children := chat_children p; input_value := input_value p;
     input_parent_focused := input_parent_focused p; input_active := v;
     send_disabled := send_disabled p; props := props p |}.

Definition set_send_disabled (v : bool) (p : Page) : Page :=
  {| chat_children := chat_children p; input_value := input_value p;
     input_parent_focused := input_parent_focused p; input_active := input_active p;
     send_disabled := v; props := props p |}.

Definition set_props (v : gmap (element_id * property) jsstring) (p : Page) : Page :=
  {| chat_children := chat_children p; input_value := input_value p;
     input_parent_focused := input_parent_focused p; input_active := input_active p;
     send_disabled := send_disabled p; props := v |}.

Definition set_localStorage (v : gmap jsstring jsstring) (e : Env) : Env :=
  {| localStorage := v; console := console e; io_calls := io_calls e;
     io_throws := io_throws e; emitted := emitted e; timers := timers e;
     requests := requests e; now := now e |}.

Definition set_console (v : list log_entry) (e : Env) : Env :=
  {| localStorage := localStorage e; console := v; io_calls := io_calls e;
     io_throws := io_throws e; emitted := emitted e; timers := timers e;
     requests := requests e; now := now e |}.

Definition set_io_calls (v : nat) (e : Env) : Env :=
  {| localStorage := localStorage e; console := console e; io_calls := v;
     io_throws := io_throws e; emitted := emitted e; timers := timers e;
     requests := requests e; now := now e |}.

Definition set_emitted (v : list (nat * jsstring * jsval)) (e : Env) : Env :=
  {| localStorage := localStorage e; console := console e; io_calls := io_calls e;
     io_throws := io_throws e; emitted := v; timers := timers e;
     requests := requests e; now := now e |}.

Definition set_timers (v : list (N * callback)) (e : Env) : Env :=
  {| localStorage := localStorage e; console := console e; io_calls := io_calls e;
     io_throws := io_throws e; emitted := emitted e; timers := v;
     requests := requests e; now := now e |}.

Definition set_requests (v : list jsstring) (e : Env) : Env :=
  {| localStorage := localStorage e; console := console e; io_calls := io_calls e;
     io_throws := io_throws e; emitted := emitted e; timers := timers e;
     requests := v; now := now e |}.

Definition with_app (f : App -> App) (w : World) : World :=
  {| app := f (app w); page := page w; env := env w |}.

Definition with_page (f : Page -> Page) (w : World) : World :=
  {| app := app w; page := f (page w); env := env w |}.

Definition with_env (f : Env -> Env) (w : World) : World :=
  {| app := app w; page := page w; env := f (env w) |}.

(** The value of an assigned property; the empty string before any assignment. *)
Definition prop (e : element_id) (p : property) (w : World) : jsstring :=
  default [] (props (page w) !! (e, p)).

(** ** The monad: state threaded through, exceptions kept with the
    state reached when they were thrown *)

Definition M (A : Type) : Type := World -> completion A * World.

Definition ret {A} (a : A) : M A := fun w => (Normal a, w).

Definition bind {A B} (m : M A) (k : A -> M B) : M B :=
  fun w =>
    match m w with
    | (Normal a, w') => k a w'
    | (Throw e, w') => (Throw e, w')
    end.

Definition throw {A} (e : exn) : M A := fun w => (Throw e, w).

(** [try { body } catch (error) { handler(error) }] *)
Definition try_catch (body : M unit) (handler : exn -> M unit) : M unit :=
  fun w =>
    match body w with
    | (Normal tt, w') => (Normal tt, w')
    | (Throw e, w') => handler e w'
    end.

Definition lift {A} (c : completion A) : M A := fun w => (c, w).

Definition read {A} (f : World -> A) : M A := fun w => (Normal (f w), w).

Definition update (f : World -> World) : M unit := fun w => (Normal tt, f w).

Notation "x <- m ;; k" := (bind m (fun x => k))
  (at level 100, m at next level, right associativity).
Notation "m ;; k" := (bind m (fun _ => k))
  (at level 100, right associativity).

(** [array.forEach(f)] *)
Fixpoint forEach {A} (l : list A) (f : A -> M unit) : M unit :=
  match l with
  | [] => ret tt
  | x :: r => f x ;; forEach r f
  end.

(** [array.map(f)] with a callback that may throw. *)
Fixpoint map_completion {A B} (f : A -> completion B) (l : list A) : completion (list B) :=
  match l with
  | [] => Normal []
  | x :: r => cbind (f x) (fun y => cbind (map_completion f r) (fun ys => Normal (y :: ys)))
  end.

(** The state a computation ends in, whether it returned or threw. *)
Definition exec {A} (m : M A) (w : World) : World := snd (m w).

Definition returns {A} (m : M A) (w : World) : Prop :=
  exists a, fst (m w) = Normal a.

(** ** The methods of [ChatbotApp] *)

(** A line of a template literal: the line break, the indentation, the text. *)
Definition line (indent : nat) (s : jsstring) : jsstring :=
  10 :: repeat 32 indent ++ s.

(** [`chat_history_${this.sessionId}`] *)
Definition history_key (sid : jsstring) : jsstring := js "chat_history_" ++ sid.

Section Methods.
Context {host : Host}.

(** *** Host calls *)

Definition console_log (t : jsstring) : M unit :=
  update (with_env (fun e =>
    set_console (console e ++ [{| level := LogInfo; text := t; thrown := None |}]) e)).

Definition console_error (t : jsstring) (error : exn) : M unit :=
  update (with_env (fun e =>
    set_console (console e ++ [{| level := LogError; text := t; thrown := Some error |}]) e)).

Definition setTimeout (cb : callback) (delay : N) : M unit :=
  update (with_env (fun e => set_timers (timers e ++ [(delay, cb)]) e)).

Definition Date_now : M N := read (fun w => now (env w)).

Definition localStorage_getItem (k : jsstring) : M (option jsstring) :=
  read (fun w => localStorage (env w) !! k).

Definition localStorage_setItem (k v : jsstring) : M unit :=
  update (with_env (fun e => set_localStorage (<[k := v]> (localStorage e)) e)).

Definition localStorage_removeItem (k : jsstring) : M unit :=
  update (with_env (fun e => set_localStorage (delete k (localStorage e)) e)).

Definition assign (el : element_id) (p : property) (v : jsstring) : M unit :=
  update (with_page (fun pg => set_props (<[(el, p) := v]> (props pg)) pg)).

(** [this.socket.emit(event, payload)]; [this.socket] may still be [null]. *)
Definition socket_emit (event : jsstring) (payload : jsval) : M unit :=
  s <- read (fun w => socket (app w)) ;;
  match s with
  | None => throw (EngineError TypeError)
  | Some k => update (with_env (fun e => set_emitted (emitted e ++ [(k, event, payload)]) e))
  end.

(** [messageInput.focus()]: the element takes the focus and, when it did
    not have it, its [focus] listener runs. *)
Definition focus_input : M unit :=
  active <- read (fun w => input_active (page w)) ;;
  if active then ret tt
  else update (with_page (fun p => set_input_parent_focused true (set_input_active true p))).

(** *** Toasts *)

Definition hideToast (toast : element_id) : M unit :=
  assign toast style_display (js "none").

Definition showToast (toast : element_id) : M unit :=
  assign toast style_display (js "flex") ;;
  setTimeout (HideToast toast) 5000.

Definition showError (message : jsval) : M unit :=
  m <- lift (to_text message) ;;
  assign errorMessage prop_textContent m ;;
  showToast errorToast.

Definition showSuccess (message : jsval) : M unit :=
  m <- lift (to_text message) ;;
  assign successMessage prop_textContent m ;;
  showToast successToast.

(** *** Typing indicator, scrolling, connection status *)

Definition scrollToBottom : M unit := setTimeout ScrollToBottom 100.

Definition showTypingIndicator : M unit :=
  typing <- read (fun w => isTyping (app w)) ;;
  if negb typing then
    update (with_app (set_isTyping true)) ;;
    assign typingIndicator style_display (js "flex") ;;
    scrollToBottom
  else ret tt.

Definition hideTypingIndicator : M unit :=
  typing <- read (fun w => isTyping (app w)) ;;
  if typing then
    update (with_app (set_isTyping false)) ;;
    assign typingIndicator style_display (js "none")
  else ret tt.

Definition updateConnectionStatus (message status : jsstring) : M unit :=
  assign connectionStatus prop_innerHTML
    (line 12 (js "<i class=" ++ dq ++ js "fas fa-wifi" ++ dq ++ js "></i>")
     ++ line 12 (js "<span>" ++ message ++ js "</span>")
     ++ line 8 []) ;;
  assign connectionStatus prop_className (js "connection-status " ++ status) ;;
  if jseqb status (js "connected") then setTimeout DimConnectionStatus 3000
  else ret tt.

(** *** History *)

(** The callback of [map] in [saveChatHistory]. *)
Definition history_entry (msg : node) : M jsval :=
  let isUser := classList_contains (js "user") msg in
  match querySelector (js "message-bubble") msg with
  | None => throw (EngineError TypeError)
  | Some bubble =>
      t <- Date_now ;;
      ret (JObj [(js "sender", JStr (if isUser then js "user" else js "bot"));
                 (js "content", JStr (textContent bubble));
                 (js "timestamp", JNum (Int (Z.of_N t)))])
  end.

Fixpoint mapM {A B} (f : A -> M B) (l : list A) : M (list B) :=
  match l with
  | [] => ret []
  | x :: r => y <- f x ;; ys <- mapM f r ;; ret (y :: ys)
  end.

Definition saveChatHistory : M unit :=
  try_catch
    (found <- read (fun w => querySelectorAll (js "message") (chat_children (page w))) ;;
     messages <- mapM history_entry found ;;
     sid <- read (fun w => sessionId (app w)) ;;
     localStorage_setItem (history_key sid) (JSON_stringify (JArr messages)))
    (fun error => console_error (js "Failed to save chat history:") error).

(** *** Rendering a message *)

Definition avatar_icon (sender : jsval) : list node :=
  [Elem (js "i") (if is_string (js "bot") sender then js "fas fa-robot" else js "fas fa-user") []].

Definition metadata_markup (intent pct : jsstring) : jsstring :=
  line 16 (js "<small style=" ++ dq
           ++ js "opacity: 0.7; font-size: 0.75rem; margin-top: 0.5rem; display: block;"
           ++ dq ++ js ">")
  ++ line 20 (js "Intent: " ++ intent ++ js " (" ++ pct ++ js "% confidence)")
  ++ line 16 (js "</small>")
  ++ line 12 [].

(** The children added to the bubble for the metadata: the
    [message-metadata] block when the sender is the bot and
    [metadata.intent] is truthy, nothing otherwise.  [&&] reads
    [metadata.intent] only for the bot. *)
Definition metadata_block (sender metadata : jsval) : completion (list node) :=
  if is_string (js "bot") sender then
    cbind (get metadata (js "intent")) (fun intent =>
    if truthy intent then
      cbind (ToString intent) (fun i =>
      cbind (get metadata (js "confidence")) (fun conf =>
      cbind (percent conf) (fun p =>
      Normal [Elem (js "div") (js "message-metadata")
                (parseHTML (metadata_markup i p))])))
    else Normal [])
  else Normal [].

(** The detached [messageDiv] built by [addMessage], or the exception a
    coercion raises on the way. *)
Definition build_message (content sender metadata : jsval) : completion node :=
  cbind (ToString sender) (fun s =>
  cbind (to_text content) (fun c =>
  cbind (metadata_block sender metadata) (fun meta =>
  Normal
    (Elem (js "div") (js "message " ++ s)
       [Elem (js "div") (s ++ js "-avatar") (avatar_icon sender);
        Elem (js "div") (js "message-bubble")
          (match c with [] => [] | _ :: _ => [Text c] end ++ meta)])))).

(** The default of the third parameter: [metadata = {}]. *)
Definition default_metadata (metadata : jsval) : jsval :=
  match metadata with
  | JUndefined => JObj []
  | _ => metadata
  end.

Definition addMessage (content sender metadata : jsval) : M unit :=
  messageDiv <- lift (build_message content sender (default_metadata metadata)) ;;
  update (with_page (fun p => set_chat_children (chat_children p ++ [messageDiv]) p)) ;;
  scrollToBottom ;;
  saveChatHistory.

(** The callback of [forEach] in [loadChatHistory]. *)
Definition restore_message (msg : jsval) : M unit :=
  sender <- lift (get msg (js "sender")) ;;
  if negb (is_string (js "welcome") sender) then
    content <- lift (get msg (js "content")) ;;
    addMessage content sender JUndefined
  else ret tt.

(** An empty string is falsy, like the [null] of a missing key; a parsed
    value that is not an array has no callable [forEach]. *)
Definition loadChatHistory : M unit :=
  try_catch
    (sid <- read (fun w => sessionId (app w)) ;;
     history <- localStorage_getItem (history_key sid) ;;
     match history with
     | Some ((_ :: _) as h) =>
         match JSON_parse h with
         | None => throw (EngineError SyntaxError)
         | Some (JArr messages) => forEach messages restore_message
         | Some _ => throw (EngineError TypeError)
         end
     | Some [] | None => ret tt
     end)
    (fun error => console_error (js "Failed to load chat history:") error).

(** *** Sending and receiving *)

Definition sendMessage : M unit :=
  message <- read (fun w => trim (input_value (page w))) ;;
  match message with
  | [] => showError (JStr (js "Please enter a message"))
  | _ :: _ =>
      connected <- read (fun w => isConnected (app w)) ;;
      if negb connected then showError (JStr (js "Not connected to server. Please wait..."))
      else
        update (with_page (set_input_value [])) ;;
        addMessage (JStr message) (JStr (js "user")) JUndefined ;;
        sid <- read (fun w => sessionId (app w)) ;;
        uid <- read (fun w => userId (app w)) ;;
        socket_emit (js "message")
          (JObj [(js "message", JStr message);
                 (js "session_id", JStr sid);
                 (js "user_id", JNum (Int uid))]) ;;
        update (with_page (set_send_disabled true)) ;;
        setTimeout EnableSendButton 2000
  end.

Definition handleBotResponse (data : jsval) : M unit :=
  hideTypingIndicator ;;
  bot_response <- lift (get data (js "bot_response")) ;;
  (if truthy bot_response then
     intent <- lift (get data (js "intent")) ;;
     confidence <- lift (get data (js "confidence")) ;;
     entities <- lift (get data (js "entities")) ;;
     sentiment <- lift (get data (js "sentiment")) ;;
     addMessage bot_response (JStr (js "bot"))
       (JObj [(js "intent", intent); (js "confidence", confidence);
              (js "entities", entities); (js "sentiment", sentiment)])
   else ret tt) ;;
  update (with_page (set_send_disabled false)).

(** *** The socket *)

Definition initializeSocket : M unit :=
  try_catch
    (update (with_env (fun e => set_io_calls (S (io_calls e)) e)) ;;
     fails <- read (fun w => io_throws (env w)) ;;
     if fails then throw (EngineError HostError)
     else
       k <- read (fun w => io_calls (env w)) ;;
       update (with_app (set_socket (Some (pred k)))))
    (fun error =>
       console_error (js "Socket initialization error:") error ;;
       showError (JStr (js "Failed to initialize chat connection"))).

(** *** Clearing *)

Definition clearChat (confirmed : bool) : M unit :=
  if confirmed then
    update (with_page (fun p =>
      set_chat_children (remove_all (js "message") (chat_children p)) p)) ;;
    sid <- read (fun w => sessionId (app w)) ;;
    localStorage_removeItem (history_key sid) ;;
    showSuccess (JStr (js "Chat history cleared"))
  else ret tt.

(** *** Analytics *)

Definition intent_row (entry : jsstring * jsval) : completion jsstring :=
  let '(intent, count) := entry in
  cbind (ToString count) (fun c =>
  Normal
    (line 16 (js "<li class=" ++ dq ++ js "intent-item" ++ dq ++ js ">")
     ++ line 20 (js "<span class=" ++ dq ++ js "intent-name" ++ dq ++ js ">"
                 ++ replace_first 95 (js " ") intent ++ js "</span>")
     ++ line 20 (js "<span class=" ++ dq ++ js "intent-count" ++ dq ++ js ">"
                 ++ c ++ js "</span>")
     ++ line 16 (js "</li>")
     ++ line 12 [])).

(** The rows mapped from the entries of [data.intent_distribution || {}]. *)
Definition intent_rows (data : jsval) : completion (list jsstring) :=
  cbind (get data (js "intent_distribution")) (fun dist =>
  map_completion intent_row (Object_entries (or_else dist (JObj [])))).

Definition analytics_card (title value : jsstring) : jsstring :=
  line 16 (js "<div class=" ++ dq ++ js "analytics-card" ++ dq ++ js ">")
  ++ line 20 (js "<h3>" ++ title ++ js "</h3>")
  ++ line 20 (js "<p class=" ++ dq ++ js "value" ++ dq ++ js ">" ++ value ++ js "</p>")
  ++ line 16 (js "</div>").

Definition analytics_markup (conversations messages confidence intentItems : jsstring) : jsstring :=
  line 12 (js "<div class=" ++ dq ++ js "analytics-grid" ++ dq ++ js ">")
  ++ analytics_card (js "Total Conversations") conversations
  ++ analytics_card (js "Total Messages") messages
  ++ analytics_card (js "Avg Confidence") (confidence ++ js "%")
  ++ line 12 (js "</div>")
  ++ line 12 []
  ++ line 12 (js "<h3 style=" ++ dq ++ js "margin-bottom: 1rem; color: #1e293b;" ++ dq
              ++ js ">Intent Distribution</h3>")
  ++ line 12 (match intentItems with
              | [] => js "<p>No intent data available</p>"
              | _ :: _ => js "<ul class=" ++ dq ++ js "intent-list" ++ dq ++ js ">"
                          ++ intentItems ++ js "</ul>"
              end)
  ++ line 8 [].

Definition renderAnalytics (data : jsval) : M unit :=
  rows <- lift (intent_rows data) ;;
  let intentItems := join [] rows in
  conversations <- lift (cbind (get data (js "total_conversations"))
                           (fun v => ToString (or_else v (JNum (Int 0))))) ;;
  messages <- lift (cbind (get data (js "total_messages"))
                      (fun v => ToString (or_else v (JNum (Int 0))))) ;;
  confidence <- lift (cbind (get data (js "average_confidence"))
                        (fun v => percent (or_else v (JNum (Int 0))))) ;;
  assign analyticsContent prop_innerHTML
    (analytics_markup conversations messages confidence intentItems).

Definition hideAnalytics : M unit :=
  assign analyticsModal style_display (js "none").

(** What [fetch] and [response.json()] settle to. *)
Inductive fetch_result :=
| FetchRejected (error : exn)
| FetchResponse (ok : bool) (body : jsstring).

Definition error_message (e : exn) : jsstring :=
  match e with
  | EngineError k => engine_message k
  | AppError m => m
  end.

(** [showAnalytics] up to its first [await]. *)
Definition showAnalytics_start : M unit :=
  assign analyticsModal style_display (js "flex") ;;
  assign analyticsContent prop_innerHTML
    (line 12 (js "<div class=" ++ dq ++ js "loading" ++ dq ++ js ">")
     ++ line 16 (js "<i class=" ++ dq ++ js "fas fa-spinner fa-spin" ++ dq ++ js "></i>")
     ++ line 16 (js "Loading analytics...")
     ++ line 12 (js "</div>")
     ++ line 8 []) ;;
  uid <- read (fun w => userId (app w)) ;;
  update (with_env (fun e =>
    set_requests (requests e ++ [js "/api/analytics?user_id=" ++ decimalZ uid]) e)).

(** [showAnalytics] from the point where the request has settled. *)
Definition showAnalytics_resume (r : fetch_result) : M unit :=
  try_catch
    (match r with
     | FetchRejected error => throw error
     | FetchResponse ok body =>
         match JSON_parse body with
         | None => throw (EngineError SyntaxError)
         | Some data =>
             if ok then renderAnalytics data
             else
               err <- lift (get data (js "error")) ;;
               m <- lift (ToString (or_else err (JStr (js "Failed to load analytics")))) ;;
               throw (AppError m)
         end
     end)
    (fun error =>
       console_error (js "Analytics error:") error ;;
       assign analyticsContent prop_innerHTML
         (line 16 (js "<div class=" ++ dq ++ js "error" ++ dq ++ js ">")
          ++ line 20 (js "<i class=" ++ dq ++ js "fas fa-exclamation-triangle" ++ dq ++ js "></i>")
          ++ line 20 (js "Failed to load analytics: " ++ error_message error)
          ++ line 16 (js "</div>")
          ++ line 12 [])).

End Methods.

(** ** Listeners

    One constructor per listener the source registers: on the socket
    ([initializeSocket]), on the page ([bindEvents]), on [document] and
    [window] (end of the file), plus the two continuations the event
    loop runs later: a [setTimeout] callback and the rest of
    [showAnalytics] after its [await]. *)

Inductive event :=
| SocketConnect
| SocketDisconnect
| SocketConnectError (error : exn)
| SocketMessage (data : jsval)
| SocketTyping (data : jsval)
| SocketError (data : jsval)
| ClickSend
| KeypressInput (key : jsstring) (shiftKey : bool)
| FocusInput
| BlurInput
| ClickChip (data_message : option jsstring)
| ClickClear (confirmed : bool)
| ClickShowAnalytics
| FetchSettled (r : fetch_result)
| ClickCloseAnalytics
| ClickModal (on_backdrop : bool)
| ClickCloseToast (closest_toast : option element_id)
| Keydown (key : jsstring) (ctrlKey metaKey : bool)
| VisibilityChange (hidden : bool)
| Online
| Offline
| TimerFires (index : nat).

Section Listeners.
Context {host : Host}.

Definition run_callback (cb : callback) : M unit :=
  match cb with
  | ScrollToBottom => ret tt   (* sets [scrollTop]; layout is not part of the state *)
  | EnableSendButton => update (with_page (set_send_disabled false))
  | HideToast toast => hideToast toast
  | DimConnectionStatus => assign connectionStatus style_opacity (js "0.7")
  end.

(** The body of each listener, with [window.chatbot] the instance. *)
Definition listener (ev : event) : M unit :=
  match ev with
  | SocketConnect =>
      update (with_app (set_isConnected true)) ;;
      updateConnectionStatus (js "Connected") (js "connected") ;;
      console_log (js "Connected to chatbot server")
  | SocketDisconnect =>
      update (with_app (set_isConnected false)) ;;
      updateConnectionStatus (js "Disconnected") (js "disconnected") ;;
      console_log (js "Disconnected from chatbot server")
  | SocketConnectError error =>
      update (with_app (set_isConnected false)) ;;
      updateConnectionStatus (js "Connection Error") (js "disconnected") ;;
      console_error (js "Connection error:") error ;;
      showError (JStr (js "Failed to connect to chatbot server"))
  | SocketMessage data => handleBotResponse data
  | SocketTyping data =>
      typing <- lift (get data (js "typing")) ;;
      if truthy typing then showTypingIndicator else hideTypingIndicator
  | SocketError data =>
      message <- lift (get data (js "message")) ;;
      showError (or_else message (JStr (js "An error occurred"))) ;;
      hideTypingIndicator
  | ClickSend => sendMessage
  | KeypressInput key shiftKey =>
      if jseqb key (js "Enter") && negb shiftKey then sendMessage else ret tt
  | FocusInput =>
      update (with_page (fun p => set_input_parent_focused true (set_input_active true p)))
  | BlurInput =>
      update (with_page (fun p => set_input_parent_focused false (set_input_active false p)))
  | ClickChip data_message =>
      update (with_page (set_input_value (default [] data_message))) ;;
      sendMessage
  | ClickClear confirmed => clearChat confirmed
  | ClickShowAnalytics => showAnalytics_start
  | FetchSettled r => showAnalytics_resume r
  | ClickCloseAnalytics => hideAnalytics
  | ClickModal on_backdrop => if on_backdrop then hideAnalytics else ret tt
  | ClickCloseToast closest_toast =>
      match closest_toast with
      | Some toast => hideToast toast
      | None => throw (EngineError TypeError)
      end
  | Keydown key ctrlKey metaKey =>
      (if jseqb key (js "Escape") then hideAnalytics else ret tt) ;;
      if (ctrlKey || metaKey) && jseqb key (js "k") then focus_input else ret tt
  | VisibilityChange hidden =>
      if hidden then console_log (js "Page hidden - maintaining connection")
      else
        console_log (js "Page visible - checking connection") ;;
        connected <- read (fun w => isConnected (app w)) ;;
        if negb connected then initializeSocket else ret tt
  | Online =>
      connected <- read (fun w => isConnected (app w)) ;;
      if negb connected then
        console_log (js "Back online - reconnecting...") ;;
        initializeSocket
      else ret tt
  | Offline =>
      console_log (js "Gone offline - connection will be restored when back online")
  | TimerFires index =>
      pending <- read (fun w => timers (env w)) ;;
      match pending !! index with
      | Some (_, cb) =>
          update (with_env (fun e => set_timers (delete index (timers e)) e)) ;;
          run_callback cb
      | None => ret tt
      end
  end.

(** One turn of the event loop: the listener runs to completion; an
    exception it lets escape ends the turn and the state stays as the
    listener left it. *)
Definition step (w : World) (ev : event) : World := exec (listener ev) w.

Definition run (w : World) (evs : list event) : World := fold_left step evs w.

(** *** Page load *)

(** [generateSessionId]; [random36] is the text of
    [Math.random().toString(36)]. *)
Definition generateSessionId (random36 : jsstring) (t : N) : jsstring :=
  js "session_" ++ take 9 (drop 2 random36) ++ js "_" ++ decimal t.

(** The instance as the constructor leaves it before [init]. *)
Definition constructed (sid : jsstring) : App :=
  {| socket := None; sessionId := sid; userId := 1;
     isConnected := false; isTyping := false |}.

(** [init]; [bindEvents] registers the listeners above and changes no state. *)
Definition init : M unit :=
  initializeSocket ;;
  loadChatHistory.

(** [new ChatbotApp()] on page [p] in environment [e]. *)
Definition new_ChatbotApp (random36 : jsstring) (p : Page) (e : Env) : World :=
  exec init
    {| app := constructed (generateSessionId random36 (now e)); page := p; env := e |}.

(** The window: [window.chatbot] is only set when Socket.IO was loaded. *)
Inductive Window :=
| NoChatbot (p : Page) (e : Env)
| Chatbot (w : World).

(** The [DOMContentLoaded] listener. *)
Definition DOMContentLoaded (io_defined : bool) (random36 : jsstring) (p : Page) (e : Env)
  : Window :=
  if io_defined then
    Chatbot
      (exec (console_log ([55358; 56598] ++ js " ProductivityBot initialized successfully!") ;;
             console_log ([55357; 56481]
                          ++ js " Tip: Use Ctrl+K (Cmd+K on Mac) to focus the input field") ;;
             console_log ([55357; 56481] ++ js " Tip: Press Escape to close modals"))
         (new_ChatbotApp random36 p e))
  else
    NoChatbot p
      (set_console
         (console e ++ [{| level := LogError;
                           text := js "Socket.IO not loaded. Falling back to REST API.";
                           thrown := None |}]) e).

(** An event reaching the window.  Without an instance only the
    [document] and [window] listeners exist. *)
Definition dispatch (win : Window) (ev : event) : Window :=
  match win with
  | Chatbot w => Chatbot (step w ev)
  | NoChatbot p e =>
      match ev with
      | Offline =>
          NoChatbot p
            (set_console
               (console e
                ++ [{| level := LogInfo;
                       text := js "Gone offline - connection will be restored when back online";
                       thrown := None |}]) e)
      | _ => NoChatbot p e
      end
  end.

End Listeners.

(** ** Vocabulary of the properties *)

(** [m] leaves the observation [f] of the state as it was. *)
Definition preserves {X A} (f : World -> X) (m : M A) : Prop :=
  forall w, f (snd (m w)) = f w.

(** [m] never lets an exception escape. *)
Definition total {A} (m : M A) : Prop :=
  forall w, exists a, fst (m w) = Normal a.

(** The state after [showToast(toast)] with message [m] written to
    [label]: two property assignments and one pending timer. *)
Definition toast_shown (toast label : element_id) (m : jsstring) (w : World) : World :=
  with_env (fun e => set_timers (timers e ++ [(5000, HideToast toast)]) e)
    (with_page (fun pg =>
       set_props (<[(toast, style_display) := js "flex"]>
                    (<[(label, prop_textContent) := m]> (props pg))) pg) w).

(** The typing indicator is displayed: its inline [display] is [flex]. *)
Definition indicator_shown (w : World) : Prop :=
  prop typingIndicator style_display w = js "flex".

Inductive typing_call := CallShow | CallHide.

Definition typing_step {host : Host} (w : World) (c : typing_call) : World :=
  match c with
  | CallShow => exec showTypingIndicator w
  | CallHide => exec hideTypingIndicator w
  end.

(** The events on which the source opens a socket again. *)
Definition reconnect_trigger (ev : event) : bool :=
  match ev with
  | VisibilityChange false | Online => true
  | _ => false
  end.

(** The listeners that start with a call of [sendMessage]. *)
Definition send_trigger (ev : event) : bool :=
  match ev with
  | ClickSend | KeypressInput _ _ | ClickChip _ => true
  | _ => false
  end.

(** *** The effect of saving and of appending, as functions of the state *)

(** The object [saveChatHistory] builds for one message element at time [t]. *)
Definition entry_of (t : N) (msg : node) : completion jsval :=
  match querySelector (js "message-bubble") msg with
  | None => Throw (EngineError TypeError)
  | Some bubble =>
      Normal (JObj [(js "sender",
                     JStr (if classList_contains (js "user") msg then js "user" else js "bot"));
                    (js "content", JStr (textContent bubble));
                    (js "timestamp", JNum (Int (Z.of_N t)))])
  end.

(** The text [saveChatHistory] is about to store, or what its [try] block throws. *)
Definition save_text {host : Host} (w : World) : completion jsstring :=
  cbind (map_completion (entry_of (now (env w)))
           (querySelectorAll (js "message") (chat_children (page w))))
    (fun ms => Normal (JSON_stringify (JArr ms))).

Definition save_failure (error : exn) : log_entry :=
  {| level := LogError; text := js "Failed to save chat history:"; thrown := Some error |}.

Definition load_failure (error : exn) : log_entry :=
  {| level := LogError; text := js "Failed to load chat history:"; thrown := Some error |}.

(** The state after [saveChatHistory]. *)
Definition saved {host : Host} (w : World) : World :=
  match save_text w with
  | Normal text =>
      with_env (fun e =>
        set_localStorage (<[history_key (sessionId (app w)) := text]> (localStorage e)) e) w
  | Throw error =>
      with_env (fun e => set_console (console e ++ [save_failure error]) e) w
  end.

(** The state after [appendChild(messageDiv)] and [scrollToBottom()]. *)
Definition appended (n : node) (w : World) : World :=
  with_env (fun e => set_timers (timers e ++ [(100, ScrollToBottom)]) e)
    (with_page (fun p => set_chat_children (chat_children p ++ [n]) p) w).

(** Another slot of the store changed behind the instance's back. *)
Definition poke (k v : jsstring) (w : World) : World :=
  with_env (fun e => set_localStorage (<[k := v]> (localStorage e)) e) w.

(** *** Reading markup back

    Independent observers of generated markup: how often a piece of
    text occurs, and the texts enclosed by a given opening tag and the
    next [</span>]. *)









(** The distribution of the example: [{"greeting": 3, "task_query": 1}]. *)
Definition example_distribution : jsval :=
  JObj [(js "greeting", JNum (Int 3)); (js "task_query", JNum (Int 1))].

(** *** The history as displayed, as written and as read back *)

(** What [JSON.parse] makes of the numeral [decimal t]. *)
Definition reparsed (t : N) : jsnum :=
  if t <=? max_exact then Int (Z.of_N t) else Real (decimal t).

(** The object [saveChatHistory] writes for a message at time [t], and
    the object [JSON.parse] gives back for it. *)
Definition written (t : N) (p : jsstring * jsstring) : jsval :=
  JObj [(js "sender", JStr (fst p)); (js "content", JStr (snd p));
        (js "timestamp", JNum (Int (Z.of_N t)))].

Definition read_back (t : N) (p : jsstring * jsstring) : jsval :=
  JObj [(js "sender", JStr (fst p)); (js "content", JStr (snd p));
        (js "timestamp", JNum (reparsed t))].

(** The sender and content a message element shows, as
    [saveChatHistory] reads them: [None] when it has no bubble. *)
Definition shown (msg : node) : option (jsstring * jsstring) :=
  match querySelector (js "message-bubble") msg with
  | Some bubble =>
      Some (if classList_contains (js "user") msg then js "user" else js "bot",
            textContent bubble)
  | None => None
  end.

(** The ordered list of messages on the page. *)
Definition displayed (w : World) : list (option (jsstring * jsstring)) :=
  List.map shown (querySelectorAll (js "message") (chat_children (page w))).

(** The element [addMessage(content, sender)] builds from two strings. *)
Definition message_node (p : jsstring * jsstring) : node :=
  Elem (js "div") (js "message " ++ fst p)
    [Elem (js "div") (fst p ++ js "-avatar") (avatar_icon (JStr (fst p)));
     Elem (js "div") (js "message-bubble")
       (match snd p with [] => [] | _ :: _ => [Text (snd p)] end)].

(** An element that [querySelectorAll('.message')] finds once, with
    nothing of that class below it, and that has a bubble. *)
Definition tidy (n : node) : Prop :=
  List.filter (classList_contains (js "message")) (n :: descendants n) = [n]
  /\ is_Some (shown n).

(** One call of [addMessage(content, sender, metadata)]. *)
Record call := {
  call_content : jsval;
  call_sender : jsstring;
  call_metadata : jsval
}.

Definition add_call {host : Host} (w : World) (c : call) : World :=
  exec (addMessage (call_content c) (JStr (call_sender c)) (call_metadata c)) w.

(** The sender is one of the two the widget uses, and the markup of the
    metadata block, once parsed, holds no element of class [message]. *)
Definition call_ok {host : Host} (c : call) : Prop :=
  (call_sender c = js "user" \/ call_sender c = js "bot")
  /\ forall blk,
       metadata_block (JStr (call_sender c)) (default_metadata (call_metadata c)) = Normal blk ->
       querySelectorAll (js "message") blk = [].



(** ** A concrete host and page, for evaluating the model *)

(** The text of markup outside its tags. *)
Fixpoint strip_tags (inside : bool) (s : jsstring) : jsstring :=
  match s with
  | [] => []
  | c :: r =>
      if c =? 60 then strip_tags true r
      else if inside then strip_tags (negb (c =? 62)) r
      else c :: strip_tags false r
  end.

(** ** The numbers of the sample host

    IEEE 754 binary64 as ECMA-262 uses it, in exact integer arithmetic:
    the double a decimal literal denotes, the product with [100],
    [Math.round], and the text [Number::toString] gives. *)

(** A double: not a number, an infinity, or [m * 2^e] with its sign. *)
Inductive double :=
| DNaN
| DInf (negative : bool)
| DFin (negative : bool) (m e : Z).

(** [num / den] rounded to an integer, ties to even. *)
Definition round_half_even (num den : Z) : Z :=
  let q := (num / den)%Z in
  match (2 * (num mod den) ?= den)%Z with
  | Lt => q
  | Gt => (q + 1)%Z
  | Eq => if Z.even q then q else (q + 1)%Z
  end.

(** The double nearest to [num / den], for [0 <= num] and [0 < den]:
    53 bits of precision, exponents from [-1074] to [971], ties to even,
    infinity beyond the largest finite double. *)
Definition nearest (negative : bool) (num den : Z) : double :=
  if (num =? 0)%Z then DFin negative 0 0
  else
    let a := Z.log2 num in
    let b := Z.log2 den in
    let l := if (den * 2 ^ Z.max (a - b) 0 <=? num * 2 ^ Z.max (b - a) 0)%Z
             then (a - b)%Z else (a - b - 1)%Z in
    let e := Z.max (l - 52) (-1074) in
    let m := if (0 <=? e)%Z then round_half_even num (den * 2 ^ e)
             else round_half_even (num * 2 ^ (- e)) den in
    let '(m1, e1) := if (m =? 2 ^ 53)%Z then (2 ^ 52, e + 1)%Z else (m, e) in
    if (971 <? e1)%Z then DInf negative
    else if (m1 =? 0)%Z then DFin negative 0 0
    else DFin negative m1 e1.

Definition double_eqb (x y : double) : bool :=
  match x, y with
  | DNaN, DNaN => true
  | DInf a, DInf b => Bool.eqb a b
  | DFin a m e, DFin b m' e' => Bool.eqb a b && (m =? m')%Z && (e =? e')%Z
  | _, _ => false
  end.

(** [mant * 10^exp10], rounded.  Beyond [10^309] the value is infinite and
    below [10^-331] it is zero, whatever its digits. *)
Definition decimal_double (negative : bool) (mant exp10 : Z) : double :=
  if (mant =? 0)%Z then DFin negative 0 0
  else
    let p := (exp10 + Z.of_nat (length (decimal (Z.to_N mant))))%Z in
    if (310 <? p)%Z then DInf negative
    else if (p <? -330)%Z then DFin negative 0 0
    else if (0 <=? exp10)%Z then nearest negative (mant * 10 ^ exp10) 1
    else nearest negative mant (10 ^ (- exp10)).

(** *** Reading a number

    [StrUnsignedDecimalLiteral] without [Infinity]: digits with an
    optional fraction, or a fraction alone, and an optional exponent; the
    whole text has to be used. *)
Definition read_unsigned_decimal (s : jsstring) : option (Z * Z) :=
  let '(int_part, s1) := span_digits s in
  let '(frac, s2) :=
    match s1 with
    | 46 :: r => let '(ds, rest) := span_digits r in (Some ds, rest)
    | _ => (None, s1)
    end in
  let digits_present :=
    match int_part, frac with
    | [], None | [], Some [] => false
    | _, _ => true
    end in
  if digits_present then
    let frac_digits := default [] frac in
    let mant := Z.of_N (fst (read_digits 0 (int_part ++ frac_digits))) in
    let shift := Z.of_nat (length frac_digits) in
    match s2 with
    | [] => Some (mant, (- shift)%Z)
    | c :: r =>
        if (c =? 101) || (c =? 69) then
          let '(minus, r1) :=
            match r with
            | 43 :: r' => (false, r')
            | 45 :: r' => (true, r')
            | _ => (false, r)
            end in
          match span_digits r1 with
          | ((_ :: _) as ds, []) =>
              let ex := Z.of_N (fst (read_digits 0 ds)) in
              Some (mant, ((if minus then - ex else ex) - shift)%Z)
          | _ => None
          end
        else None
    end
  else None.

(** The value of a digit in a radix up to sixteen. *)
Definition digit_value (radix c : N) : option N :=
  let v := if (48 <=? c) && (c <=? 57) then Some (c - 48)
           else if (97 <=? c) && (c <=? 102) then Some (c - 87)
           else if (65 <=? c) && (c <=? 70) then Some (c - 55)
           else None in
  match v with
  | Some d => if d <? radix then Some d else None
  | None => None
  end.

Fixpoint read_radix (radix : N) (acc : N) (s : jsstring) : option N :=
  match s with
  | [] => Some acc
  | c :: r =>
      match digit_value radix c with
      | Some d => read_radix radix (radix * acc + d) r
      | None => None
      end
  end.

(** [StringToNumber]: white space is trimmed, the empty text is [0], a
    text that is no [StringNumericLiteral] is not a number. *)
Definition string_to_number (text : jsstring) : double :=
  let s := trim text in
  let non_decimal (radix : N) (ds : jsstring) : double :=
    match ds with
    | [] => DNaN
    | _ :: _ =>
        match read_radix radix 0 ds with
        | Some n => nearest false (Z.of_N n) 1
        | None => DNaN
        end
    end in
  let decimal_literal (negative : bool) (u : jsstring) : double :=
    if jseqb u (js "Infinity") then DInf negative
    else
      match read_unsigned_decimal u with
      | Some (mant, exp10) => decimal_double negative mant exp10
      | None => DNaN
      end in
  match s with
  | [] => DFin false 0 0
  | 48 :: x :: ds =>
      if (x =? 120) || (x =? 88) then non_decimal 16 ds
      else if (x =? 111) || (x =? 79) then non_decimal 8 ds
      else if (x =? 98) || (x =? 66) then non_decimal 2 ds
      else decimal_literal false s
  | 43 :: u => decimal_literal false u
  | 45 :: u => decimal_literal true u
  | _ => decimal_literal false s
  end.

(** *** Arithmetic *)

(** [x * 100] *)
Definition times_100 (x : double) : double :=
  match x with
  | DFin negative m e =>
      if (0 <=? e)%Z then nearest negative (m * 100 * 2 ^ e) 1
      else nearest negative (m * 100) (2 ^ (- e))
  | _ => x
  end.

(** [Math.round(x)]: the integer nearest to [x], the larger one of two. *)
Definition Math_round (x : double) : double :=
  match x with
  | DFin negative m e =>
      if (0 <=? e)%Z then x
      else
        let den := (2 ^ (- e))%Z in
        let r := ((2 * (if negative then - m else m) + den) / (2 * den))%Z in
        nearest (r <? 0)%Z (Z.abs r) 1
  | _ => x
  end.

(** *** [Number::toString] *)

(** [num / den < 10^n] *)
Definition below_power (num den n : Z) : bool :=
  if (0 <=? n)%Z then (num <? den * 10 ^ n)%Z else (num * 10 ^ (- n) <? den)%Z.

(** The [n] with [10^(n-1) <= num / den < 10^n]. *)
Definition decimal_position (num den : Z) : Z :=
  (fix search (fuel : nat) (n : Z) : Z :=
     match fuel with
     | O => n
     | S f => if below_power num den n then n else search f (n + 1)%Z
     end) 4%nat ((Z.log2 num - Z.log2 den) * 30103 / 100000 - 1)%Z.

(** The [k] digits [s] nearest to [num / den] at position [n], when
    [s * 10^(n-k)] is read back as [x]; of two candidates the nearer one,
    and the even one when they are equally near. *)
Definition digits_at (x : double) (num den n k : Z) : option Z :=
  let '(tn, td) := if (0 <=? n - k)%Z then (num, den * 10 ^ (n - k))%Z
                   else (num * 10 ^ (k - n), den)%Z in
  let lo := (tn / td)%Z in
  let hi := (lo + 1)%Z in
  let reads_back (s : Z) : bool :=
    double_eqb x (if (0 <=? n - k)%Z then nearest false (s * 10 ^ (n - k)) 1
                  else nearest false s (10 ^ (k - n))) in
  match reads_back lo, reads_back hi with
  | true, true =>
      match (2 * (tn mod td) ?= td)%Z with
      | Lt => Some lo
      | Gt => Some hi
      | Eq => Some (if Z.even lo then lo else hi)
      end
  | true, false => Some lo
  | false, true => Some hi
  | false, false => None
  end.

(** The shortest digits that read back as [m * 2^e], with their position. *)
Definition shortest_digits (m e : Z) : Z * Z :=
  let '(num, den) := if (0 <=? e)%Z then (m * 2 ^ e, 1)%Z else (m, 2 ^ (- e))%Z in
  let n := decimal_position num den in
  (fix search (fuel : nat) (k : Z) : Z * Z :=
     match fuel with
     | O => (0, n)%Z
     | S f =>
         match digits_at (nearest false num den) num den n k with
         | Some s => if (s =? 10 ^ k)%Z then (1, n + 1)%Z else (s, n)
         | None => search f (k + 1)%Z
         end
     end) 17%nat 1%Z.

(** The text of a positive finite number from its digits [s] and their
    position [n]. *)
Definition digits_text (s n : Z) : jsstring :=
  let ds := decimal (Z.to_N s) in
  let k := Z.of_nat (length ds) in
  let zeros (count : Z) := List.repeat 48 (Z.to_nat count) in
  if (k <=? n)%Z && (n <=? 21)%Z then ds ++ zeros (n - k)%Z
  else if (0 <? n)%Z && (n <=? 21)%Z then
    take (Z.to_nat n) ds ++ js "." ++ drop (Z.to_nat n) ds
  else if (-6 <? n)%Z && (n <=? 0)%Z then js "0." ++ zeros (- n)%Z ++ ds
  else
    let exponent := (if (n - 1 <? 0)%Z then js "-" else js "+")
                    ++ decimal (Z.to_N (Z.abs (n - 1))) in
    match ds with
    | [d] => [d] ++ js "e" ++ exponent
    | d :: more => [d] ++ js "." ++ more ++ js "e" ++ exponent
    | [] => []
    end.

Definition Number_toString (x : double) : jsstring :=
  match x with
  | DNaN => js "NaN"
  | DInf negative => (if negative then js "-" else []) ++ js "Infinity"
  | DFin negative m e =>
      if (m =? 0)%Z then js "0"
      else
        let '(s, n) := shortest_digits m e in
        (if negative then js "-" else []) ++ digits_text s n
  end.

(** [ToNumber].  An array or an object is converted through its text;
    [text] is [ToString]. *)
Definition ToNumber (text : jsval -> completion jsstring) (v : jsval) : double :=
  match v with
  | JUndefined => DNaN
  | JNull => DFin false 0 0
  | JBool b => if b then nearest false 1 1 else DFin false 0 0
  | JNum (Int z) => nearest (z <? 0)%Z (Z.abs z) 1
  | JNum (Real l) => string_to_number l
  | JStr s => string_to_number s
  | JArr _ | JObj _ =>
      match text v with
      | Normal s => string_to_number s
      | Throw _ => DNaN
      end
  end.

(** *** The host

    Numbers are the doubles above.  Markup is parsed into one text node
    holding the text between the tags: the elements a browser builds
    from the tags are not represented, the text content is the
    browser's as long as the markup holds no character reference.
    [ToString] takes from the host
    the text of numbers only, so the host is built in two steps: first
    with that text, then with the percentage, which converts arrays
    through [ToString]. *)
Definition host_with (round : jsval -> jsstring) : Host :=
  {| real_toString := fun l => Number_toString (string_to_number l);
     real_is_zero := fun l =>
       match string_to_number l with
       | DFin _ m _ => (m =? 0)%Z
       | _ => false
       end;
     round_percent := round;
     parseHTML := fun markup => [Text (strip_tags false markup)];
     engine_message := fun _ => js "engine error" |}.

Definition sample_host : Host :=
  host_with (fun v =>
    Number_toString
      (Math_round (times_100 (ToNumber (@ToString (host_with (fun _ => []))) v)))).

Definition blank_page : Page :=
  {| chat_children := []; input_value := []; input_parent_focused := false;
     input_active := false; send_disabled := false; props := ∅ |}.

Definition blank_env : Env :=
  {| localStorage := ∅; console := []; io_calls := 0; io_throws := false;
     emitted := []; timers := []; requests := []; now := 1700000000000 |}.

(** A freshly constructed instance on a page without messages. *)
Definition sample_world : World :=
  {| app := constructed (js "session_k2j3h4g5f_1700000000000");
     page := blank_page; env := blank_env |}.

(** A user message, then a bot reply that carries metadata. *)
Definition sample_calls : list call :=
  [ {| call_content := JStr (js "remind me to call Bob");
       call_sender := js "user";
       call_metadata := JObj [] |};
    {| call_content := JStr (js "Reminder set.");
       call_sender := js "bot";
       call_metadata := JObj [(js "intent", JStr (js "task_create"));
                              (js "confidence", JNum (Real (js "0.95")));
                              (js "entities", JUndefined);
                              (js "sentiment", JUndefined)] |} ].

(** The sample page with [text] typed into the input field. *)
Definition typed (text : jsstring) (w : World) : World :=
  with_page (set_input_value text) w.

(** The sample world with [text] stored under the session's key. *)
Definition stored (text : jsstring) (w : World) : World :=
  with_env (fun e =>
    set_localStorage (<[history_key (sessionId (app w)) := text]> (localStorage e)) e) w.

(** An analytics response with the distribution of the example. *)
Definition sample_response : jsval :=
  JObj [(js "total_conversations", JNum (Int 4));
        (js "total_messages", JNum (Int 9));
        (js "average_confidence", JNum (Real (js "0.87")));
        (js "intent_distribution", example_distribution)].

(** The sample page after [DOMContentLoaded], once the socket has connected. *)
Definition sample_loaded : World :=
  @new_ChatbotApp sample_host (js "0.k2j3h4g5f6") blank_page blank_env.

Definition sample_online : World := @step sample_host sample_loaded SocketConnect.

(** The reply of the backend to a greeting. *)
Definition sample_reply : jsval :=
  JObj [(js "bot_response", JStr (js "Hi!"));
        (js "intent", JStr (js "greeting"));
        (js "confidence", JNum (Real (js "0.9")))].




(** * Further vocabulary: properties of the listeners and methods beyond
    the ones above *)

(** [m] keeps the property [I] of the state, whether it returns or throws. *)
Definition keeps {A} (I : World -> Prop) (m : M A) : Prop :=
  forall w, I w -> I (snd (m w)).

(** The payload of the [message] event [sendMessage] emits for text [m]. *)
Definition message_payload (m : jsstring) (w : World) : jsval :=
  JObj [(js "message", JStr m);
        (js "session_id", JStr (sessionId (app w)));
        (js "user_id", JNum (Int (userId (app w))))].

(** The [isTyping] flag agrees with the indicator being displayed. *)
Definition typing_consistent (w : World) : Prop :=
  isTyping (app w) = true <-> indicator_shown w.

(** The [isConnected] flag agrees with the class of the status element. *)
Definition status_consistent (w : World) : Prop :=
  isConnected (app w) = true
  <-> prop connectionStatus prop_className w = js "connection-status connected".

(** A string that does not start with white space. *)
Definition starts_black (s : jsstring) : Prop :=
  match s with
  | [] => True
  | c :: _ => is_js_space c = false
  end.

(** The state after [sendMessage] accepted the text [m] and emitted it on
    socket [k]. *)
Definition sent {host : Host} (m : jsstring) (k : nat) (w : World) : World :=
  let w1 := saved (appended (message_node (js "user", m))
                     (with_page (set_input_value []) w)) in
  with_env (fun e => set_timers (timers e ++ [(2000, EnableSendButton)]) e)
    (with_page (set_send_disabled true)
       (with_env (fun e =>
          set_emitted (emitted e ++ [(k, js "message", message_payload m w)]) e) w1)).

(** No pending timer is set to hide the typing indicator as if it were a
    toast. *)
Definition indicator_timers (w : World) : Prop :=
  Forall (fun t => snd t <> HideToast typingIndicator) (timers (env w)).

(** The text holds no underscore. *)
Definition no_underscore (s : jsstring) : Prop := Forall (fun c => c <> 95) s.

(** The markup [showAnalytics] puts in the panel when loading failed with
    message [m]. *)
Definition analytics_error_markup (m : jsstring) : jsstring :=
  line 16 (js "<div class=" ++ dq ++ js "error" ++ dq ++ js ">")
  ++ line 20 (js "<i class=" ++ dq ++ js "fas fa-exclamation-triangle" ++ dq ++ js "></i>")
  ++ line 20 (js "Failed to load analytics: " ++ m)
  ++ line 16 (js "</div>")
  ++ line 12 [].

Definition analytics_failure (error : exn) : log_entry :=
  {| level := LogError; text := js "Analytics error:"; thrown := Some error |}.

(** The session and user of the instance are [sid] and [uid], and every
    key of the store other than the history key of [sid] holds what it
    holds in [store]. *)
Definition session_frame (sid : jsstring) (uid : Z) (store : gmap jsstring jsstring)
    (w : World) : Prop :=
  sessionId (app w) = sid
  /\ userId (app w) = uid
  /\ forall k, k <> history_key sid -> localStorage (env w) !! k = store !! k.


(** * The REST fallback

    [apiCall] and [sendMessageREST] are [async]: each is split at its
    [await] into the part that runs up to the call of [fetch] and the
    part that runs once the response and its body have settled. *)

(** The arguments of one call of [fetch]. *)
Record fetch_call := {
  fetch_url : jsstring;
  fetch_method : jsstring;
  fetch_headers : list (jsstring * jsstring);
  fetch_body : jsstring
}.

(** What [fetch] and [response.json()] settle to, with the status of the
    response. *)
Inductive http_result :=
| HttpRejected (error : exn)
| HttpResponse (status : N) (body : jsstring).

(** [response.ok]: the status is in the range 200 to 299. *)
Definition response_ok (status : N) : bool := (200 <=? status) && (status <=? 299).

(** [try { body } catch (error) { handler }] around a block that returns
    a value. *)
Definition try_catch_value {A} (body : M A) (handler : exn -> M A) : M A :=
  fun w =>
    match body w with
    | (Normal a, w') => (Normal a, w')
    | (Throw e, w') => handler e w'
    end.

Definition api_failure (error : exn) : log_entry :=
  {| level := LogError; text := js "API call failed:"; thrown := Some error |}.

Section Rest.
Context {host : Host}.

(** The body [sendMessageREST] posts for [message]. *)
Definition rest_body (message : jsval) (sid : jsstring) (uid : Z) : jsstring :=
  JSON_stringify
    (JObj [(js "message", message);
           (js "session_id", JStr sid);
           (js "user_id", JNum (Int uid))]).

(** [sendMessageREST(message)] up to the [await] in [apiCall]: the
    request leaves with the header [apiCall] adds and the method and body
    of the options. *)
Definition sendMessageREST_start (message : jsval) : M fetch_call :=
  sid <- read (fun w => sessionId (app w)) ;;
  uid <- read (fun w => userId (app w)) ;;
  update (with_env (fun e => set_requests (requests e ++ [js "/api/chat"]) e)) ;;
  ret {| fetch_url := js "/api/chat";
         fetch_method := js "POST";
         fetch_headers := [(js "Content-Type", js "application/json")];
         fetch_body := rest_body message sid uid |}.

(** The [try] block of [apiCall] from the point where the request has
    settled. *)
Definition apiCall_block (r : http_result) : M jsval :=
  match r with
  | HttpRejected error => throw error
  | HttpResponse status body =>
      match JSON_parse body with
      | None => throw (EngineError SyntaxError)
      | Some data =>
          if negb (response_ok status) then
            err <- lift (get data (js "error")) ;;
            m <- lift (ToString (or_else err (JStr (js "HTTP " ++ decimal status)))) ;;
            throw (AppError m)
          else ret data
      end
  end.

(** [apiCall] from that point: what the block throws is logged and
    thrown again. *)
Definition apiCall_resume (r : http_result) : M jsval :=
  try_catch_value (apiCall_block r)
    (fun error =>
       console_error (js "API call failed:") error ;;
       throw error).

(** [sendMessageREST] from the point where the request has settled. *)
Definition sendMessageREST_resume (r : http_result) : M unit :=
  try_catch
    (data <- apiCall_resume r ;;
     bot_response <- lift (get data (js "bot_response")) ;;
     intent <- lift (get data (js "intent")) ;;
     confidence <- lift (get data (js "confidence")) ;;
     entities <- lift (get data (js "entities")) ;;
     sentiment <- lift (get data (js "sentiment")) ;;
     addMessage bot_response (JStr (js "bot"))
       (JObj [(js "intent", intent); (js "confidence", confidence);
              (js "entities", entities); (js "sentiment", sentiment)]))
    (fun error =>
       showError (JStr (js "Failed to send message: " ++ error_message error))).

End Rest.

(** * [debounce]

    The closure returned by [debounce(func, wait)] with the part of the
    host it uses: its variable [timeout], the timers it has scheduled
    that have neither fired nor been cleared (each with its id, the time
    it is due and the arguments its [later] captured), the id the next
    [setTimeout] returns, the clock, and the calls [func] has received
    (time and arguments). *)

Section Debounce.
Variable A : Type.

Record Debouncer := {
  db_timeout : option nat;
  db_scheduled : list (nat * N * A);
  db_next : nat;
  db_clock : N;
  db_calls : list (N * A)
}.

(** The closure right after [debounce(func, wait)]: [timeout] is
    [undefined]. *)
Definition debounce (next : nat) (t : N) : Debouncer :=
  {| db_timeout := None; db_scheduled := []; db_next := next; db_clock := t;
     db_calls := [] |}.

(** [clearTimeout(timeout)]: nothing when [timeout] is [undefined] or
    the timer is gone. *)
Definition clearTimeout (d : Debouncer) : Debouncer :=
  match db_timeout d with
  | None => d
  | Some id =>
      {| db_timeout := db_timeout d;
         db_scheduled := List.filter (fun t => negb (Nat.eqb (fst (fst t)) id)) (db_scheduled d);
         db_next := db_next d; db_clock := db_clock d; db_calls := db_calls d |}
  end.

(** [executedFunction(...args)] *)
Definition executedFunction (wait : N) (args : A) (d : Debouncer) : Debouncer :=
  let d1 := clearTimeout d in
  {| db_timeout := Some (db_next d1);
     db_scheduled := db_scheduled d1 ++ [(db_next d1, db_clock d1 + wait, args)];
     db_next := S (db_next d1); db_clock := db_clock d1; db_calls := db_calls d1 |}.

(** [later()] of the invocation with [args]. *)
Definition later (args : A) (d : Debouncer) : Debouncer :=
  let d1 := clearTimeout d in
  {| db_timeout := db_timeout d1; db_scheduled := db_scheduled d1;
     db_next := db_next d1; db_clock := db_clock d1;
     db_calls := db_calls d1 ++ [(db_clock d1, args)] |}.

Inductive debounce_event :=
| Invoke (args : A)      (** the debounced function is called *)
| Elapse (ms : N)        (** time passes *)
| Expire (id : nat).     (** the event loop looks at timer [id] *)

(** One turn of the event loop.  A timer runs its callback only once it
    is due, and leaves the host's list when it does. *)
Definition debounce_step (wait : N) (d : Debouncer) (ev : debounce_event) : Debouncer :=
  match ev with
  | Invoke args => executedFunction wait args d
  | Elapse ms =>
      {| db_timeout := db_timeout d; db_scheduled := db_scheduled d;
         db_next := db_next d; db_clock := db_clock d + ms; db_calls := db_calls d |}
  | Expire id =>
      match List.find (fun t => Nat.eqb (fst (fst t)) id) (db_scheduled d) with
      | Some (_, due, args) =>
          if due <=? db_clock d then
            later args
              {| db_timeout := db_timeout d;
                 db_scheduled :=
                   List.filter (fun t => negb (Nat.eqb (fst (fst t)) id)) (db_scheduled d);
                 db_next := db_next d; db_clock := db_clock d; db_calls := db_calls d |}
          else d
      | None => d
      end
  end.

Definition debounce_run (wait : N) (d : Debouncer) (evs : list debounce_event) : Debouncer :=
  fold_left (debounce_step wait) evs d.

(** At most one timer is scheduled, and [timeout] holds its id. *)
Definition one_timer (d : Debouncer) : Prop :=
  db_scheduled d = []
  \/ exists id due args, db_scheduled d = [(id, due, args)] /\ db_timeout d = Some id.

Definition is_expire (ev : debounce_event) : bool :=
  match ev with
  | Expire _ => true
  | _ => false
  end.

(** The arguments of the invocations among [evs], in order. *)
Definition invoked (evs : list debounce_event) : list A :=
  omap (fun ev => match ev with Invoke a => Some a | _ => None end) evs.

End Debounce.

Arguments db_timeout {A}.
Arguments db_scheduled {A}.
Arguments db_next {A}.
Arguments db_clock {A}.
Arguments db_calls {A}.
Arguments debounce {A}.
Arguments clearTimeout {A}.
Arguments executedFunction {A}.
Arguments later {A}.
Arguments Invoke {A}.
Arguments Elapse {A}.
Arguments Expire {A}.
Arguments debounce_step {A}.
Arguments debounce_run {A}.
Arguments one_timer {A}.
Arguments is_expire {A}.
Arguments invoked {A}.

(** ** More sample states *)

(** The sample page once connected, with text typed into the input field. *)
Definition sample_typed : World := typed (js "  hi there ") sample_online.

(** The sample page after one user message. *)
Definition sample_chat : World :=
  @add_call sample_host sample_world
    {| call_content := JStr (js "hello"); call_sender := js "user";
       call_metadata := JUndefined |}.

(** The sample page after a message whose sender makes the avatar an
    element of class [message]. *)
Definition sample_broken : World :=
  @add_call sample_host sample_world
    {| call_content := JStr (js "hello"); call_sender := js "message x";
       call_metadata := JUndefined |}.

(** A stored history whose second entry is [null]. *)
Definition sample_truncated : jsstring :=
  @JSON_stringify sample_host (JArr [written 5 (js "user", js "hi"); JNull]).

(** The environment of a visitor who comes back: the store holds the
    history of a session created one millisecond earlier. *)
Definition sample_returning : Env :=
  {| localStorage :=
       <[history_key (generateSessionId (js "0.a1b2c3d4e5") 1699999999999) := js "[]"]> ∅;
     console := []; io_calls := 0; io_throws := false;
     emitted := []; timers := []; requests := []; now := 1700000000000 |}.

(** The world when the clock reads [t]: [Date.now()] is an input, and a
    later call reads a later time. *)
Definition set_now (v : N) (e : Env) : Env :=
  {| localStorage := localStorage e; console := console e; io_calls := io_calls e;
     io_throws := io_throws e; emitted := emitted e; timers := timers e;
     requests := requests e; now := v |}.

Definition at_time (t : N) (w : World) : World := with_env (set_now t) w.

(** * Properties *)

(** ** Sanity checks of the string and JSON primitives *)

Example tokens_message_user :
  tokens (js "message user") = [js "message"; js "user"].
Proof. reflexivity. Qed.

Example trim_example : trim (js "  hi there ") = js "hi there".
Proof. reflexivity. Qed.

Example decimal_example : decimal 1700000000000 = js "1700000000000".
Proof. reflexivity. Qed.

Example parse_history_example :
  JSON_parse (js "[{" ++ dq ++ js "sender" ++ dq ++ js ":" ++ dq ++ js "user" ++ dq
              ++ js ", " ++ dq ++ js "n" ++ dq ++ js ": [1, -2.5e3, true, null]}]")
  = Some (JArr [JObj [(js "sender", JStr (js "user"));
                      (js "n", JArr [JNum (Int 1); JNum (Real (js "-2.5e3"));
                                     JBool true; JNull])]]).
Proof. vm_compute. reflexivity. Qed.

Example parse_rejects_garbage :
  JSON_parse (js "[1,]") = None /\ JSON_parse (js "01") = None
  /\ JSON_parse (js "{oops") = None /\ JSON_parse (js "") = None.
Proof. vm_compute. repeat split. Qed.

(** The sample host's numbers: the percentage is [Math.round(x * 100)]
    in double arithmetic ([0.285 * 100] is [28.499999999999996]), of
    whatever [ToNumber] makes of the value. *)
Example round_percent_examples :
  List.map (@round_percent sample_host)
    [JNum (Real (js "0.9")); JNum (Real (js "0.95")); JNum (Real (js "0.285"));
     JNum (Real (js "1.005")); JNum (Real (js "-0.005")); JNum (Int 1);
     JStr (js " 0.5 "); JStr (js "high"); JUndefined; JNull; JBool true;
     JArr [JStr (js "0.25")]; JArr []; JObj []; JNum (Real (js "1e400"))]
  = [js "90"; js "95"; js "28"; js "100"; js "0"; js "100";
     js "50"; js "NaN"; js "NaN"; js "0"; js "100";
     js "25"; js "0"; js "NaN"; js "Infinity"].
Proof. vm_compute. reflexivity. Qed.

Example real_toString_examples :
  List.map (@real_toString sample_host)
    [js "0.5"; js "-2.5e3"; js "1e21"; js "1.0"; js "0.1e-6"; js "9007199254740993";
     js "0.30000000000000004"; js "123456789.123456789"; js "5e-324"; js "-0.0"]
  = [js "0.5"; js "-2500"; js "1e+21"; js "1"; js "1e-7"; js "9007199254740992";
     js "0.30000000000000004"; js "123456789.12345679"; js "5e-324"; js "0"].
Proof. vm_compute. reflexivity. Qed.

(** [ToString] is the same whatever the percentage of the host: the
    text the sample host's percentage converts is the sample host's. *)
Lemma ToString_host_with (round : jsval -> jsstring) (v : jsval) :
  @ToString (host_with round) v = @ToString sample_host v.
Proof. reflexivity. Qed.

(** ** Reasoning about computations *)

Section Proofs.
Context {host : Host}.

Lemma preserves_ret {X A} (f : World -> X) (a : A) : preserves f (ret a).
Proof. intros w. reflexivity. Qed.

Lemma preserves_throw {X A} (f : World -> X) e : preserves f (@throw A e).
Proof. intros w. reflexivity. Qed.

Lemma preserves_lift {X A} (f : World -> X) (c : completion A) : preserves f (lift c).
Proof. intros w. reflexivity. Qed.

Lemma preserves_read {X A} (f : World -> X) (g : World -> A) : preserves f (read g).
Proof. intros w. reflexivity. Qed.

Lemma preserves_update {X} (f : World -> X) (g : World -> World) :
  (forall w, f (g w) = f w) -> preserves f (update g).
Proof. intros H w. apply H. Qed.

Lemma preserves_bind {X A B} (f : World -> X) (m : M A) (k : A -> M B) :
  preserves f m -> (forall a, preserves f (k a)) -> preserves f (bind m k).
Proof.
  intros Hm Hk w. unfold bind. specialize (Hm w).
  destruct (m w) as [[a|e] w']; simpl in *.
  - rewrite Hk. exact Hm.
  - exact Hm.
Qed.

Lemma preserves_try_catch {X} (f : World -> X) (body : M unit) (h : exn -> M unit) :
  preserves f body -> (forall e, preserves f (h e)) -> preserves f (try_catch body h).
Proof.
  intros Hb Hh w. unfold try_catch. specialize (Hb w).
  destruct (body w) as [[[]|e] w']; simpl in *.
  - exact Hb.
  - rewrite Hh. exact Hb.
Qed.

Lemma preserves_forEach {X A} (f : World -> X) (l : list A) (g : A -> M unit) :
  (forall a, preserves f (g a)) -> preserves f (forEach l g).
Proof.
  intros Hg. induction l as [|x r IH]; simpl.
  - apply preserves_ret.
  - apply preserves_bind; [apply Hg | intros _; exact IH].
Qed.

Lemma preserves_mapM {X A B} (f : World -> X) (l : list A) (g : A -> M B) :
  (forall a, preserves f (g a)) -> preserves f (mapM g l).
Proof.
  intros Hg. induction l as [|x r IH]; simpl.
  - apply preserves_ret.
  - apply preserves_bind; [apply Hg | intros y].
    apply preserves_bind; [exact IH | intros ys; apply preserves_ret].
Qed.

Lemma total_ret {A} (a : A) : total (ret a).
Proof. intros w. eexists. reflexivity. Qed.

Lemma total_read {A} (g : World -> A) : total (read g).
Proof. intros w. eexists. reflexivity. Qed.

Lemma total_update (g : World -> World) : total (update g).
Proof. intros w. eexists. reflexivity. Qed.

Lemma total_bind {A B} (m : M A) (k : A -> M B) :
  total m -> (forall a, total (k a)) -> total (bind m k).
Proof.
  intros Hm Hk w. unfold bind. destruct (Hm w) as [a Ha].
  destruct (m w) as [[a'|e] w']; simpl in Ha; [|discriminate].
  apply Hk.
Qed.

Lemma total_try_catch (body : M unit) (h : exn -> M unit) :
  (forall e, total (h e)) -> total (try_catch body h).
Proof.
  intros Hh w. unfold try_catch.
  destruct (body w) as [[[]|e] w']; [eexists; reflexivity | apply Hh].
Qed.

(** The routine part of a frame proof: walk down the computation. *)
Ltac frame :=
  repeat first
    [ apply preserves_ret | apply preserves_throw | apply preserves_lift
    | apply preserves_read
    | apply preserves_update; intros ?; reflexivity
    | apply preserves_bind; [|intros ?]
    | apply preserves_try_catch; [|intros ?]
    | apply preserves_forEach; intros ?
    | apply preserves_mapM; intros ?
    | match goal with
      | |- preserves _ (match ?x with _ => _ end) => destruct x
      end ].

Ltac total_tac :=
  repeat first
    [ apply total_ret | apply total_read | apply total_update
    | apply total_try_catch; intros ?
    | apply total_bind; [|intros ?]
    | match goal with
      | |- total (match ?x with _ => _ end) => destruct x
      end ].

Lemma bind_read {A B} (g : World -> A) (k : A -> M B) w :
  bind (read g) k w = k (g w) w.
Proof. reflexivity. Qed.

Lemma bind_update {B} (g : World -> World) (k : unit -> M B) w :
  bind (update g) k w = k tt (g w).
Proof. reflexivity. Qed.

(** ** Strings *)

Lemma trimStart_spaces s : forallb is_js_space s = true -> trimStart s = [].
Proof.
  induction s as [|c r IH]; simpl; [reflexivity|].
  intros H. apply andb_true_iff in H as [Hc Hr]. rewrite Hc. auto.
Qed.

Lemma trim_spaces s : forallb is_js_space s = true -> trim s = [].
Proof. intros H. unfold trim. rewrite (trimStart_spaces s H). reflexivity. Qed.

(** ** Toasts and the rejection paths of [sendMessage] *)

Lemma showError_string m w :
  showError (JStr m) w = (Normal tt, toast_shown errorToast errorMessage m w).
Proof. reflexivity. Qed.

Lemma sendMessage_blank w :
  trim (input_value (page w)) = [] ->
  sendMessage w
  = (Normal tt, toast_shown errorToast errorMessage (js "Please enter a message") w).
Proof.
  intros H. unfold sendMessage, bind, read. simpl. rewrite H. apply showError_string.
Qed.

Lemma sendMessage_offline w :
  trim (input_value (page w)) <> [] ->
  isConnected (app w) = false ->
  sendMessage w
  = (Normal tt,
     toast_shown errorToast errorMessage (js "Not connected to server. Please wait...") w).
Proof.
  intros Hm Hc. unfold sendMessage, bind, read. simpl.
  destruct (trim (input_value (page w))) as [|c r]; [contradiction|].
  simpl. rewrite Hc. simpl. apply showError_string.
Qed.

Lemma prop_toast_shown_display toast label m w :
  prop toast style_display (toast_shown toast label m w) = js "flex".
Proof. unfold prop, toast_shown. simpl. rewrite lookup_insert_eq. reflexivity. Qed.

Lemma prop_toast_shown_text toast label m w :
  prop label prop_textContent (toast_shown toast label m w) = m.
Proof.
  unfold prop, toast_shown. simpl.
  rewrite lookup_insert_ne by discriminate. rewrite lookup_insert_eq. reflexivity.
Qed.

Lemma props_toast_shown_other toast label m w k :
  k <> (toast, style_display) -> k <> (label, prop_textContent) ->
  props (page (toast_shown toast label m w)) !! k = props (page w) !! k.
Proof.
  intros H1 H2. unfold toast_shown. simpl.
  rewrite lookup_insert_ne by congruence. rewrite lookup_insert_ne by congruence.
  reflexivity.
Qed.

(** C3. A blank input (empty, or nothing but the white space [trim]
    strips) makes [sendMessage] return without emitting on the socket or
    issuing a request, and puts up the error toast with the text
    "Please enter a message". *)
Theorem sendMessage_blank_input_rejected (w : World) :
  forallb is_js_space (input_value (page w)) = true ->
  fst (sendMessage w) = Normal tt
  /\ emitted (env (exec sendMessage w)) = emitted (env w)
  /\ requests (env (exec sendMessage w)) = requests (env w)
  /\ prop errorMessage prop_textContent (exec sendMessage w) = js "Please enter a message"
  /\ prop errorToast style_display (exec sendMessage w) = js "flex".
Proof.
  intros H. apply trim_spaces in H. unfold exec.
  rewrite (sendMessage_blank w H). simpl.
  split; [reflexivity|]. split; [reflexivity|]. split; [reflexivity|].
  split; [apply prop_toast_shown_text | apply prop_toast_shown_display].
Qed.

(** ** What the listeners leave alone *)

Create HintDb methods.
#[local] Hint Unfold listener run_callback sendMessage handleBotResponse addMessage
  saveChatHistory history_entry loadChatHistory restore_message clearChat showError showSuccess
  showToast hideToast showTypingIndicator hideTypingIndicator scrollToBottom
  updateConnectionStatus initializeSocket renderAnalytics hideAnalytics
  showAnalytics_start showAnalytics_resume focus_input socket_emit assign
  console_log console_error setTimeout Date_now localStorage_getItem
  localStorage_setItem localStorage_removeItem : methods.

Ltac frame_methods := intros; autounfold with methods; frame.

(** Only [sendMessage] emits on the socket. *)
Lemma listener_keeps_emitted ev :
  send_trigger ev = false -> preserves (fun w => emitted (env w)) (listener ev).
Proof. destruct ev; simpl; try discriminate; frame_methods. Qed.

Lemma run_keeps_emitted evs w :
  forallb (fun ev => negb (send_trigger ev)) evs = true ->
  emitted (env (run w evs)) = emitted (env w).
Proof.
  revert w. induction evs as [|ev r IH]; intros w H; simpl in *; [reflexivity|].
  apply andb_true_iff in H as [Hev Hr]. rewrite (IH _ Hr).
  apply listener_keeps_emitted. destruct (send_trigger ev); [discriminate | reflexivity].
Qed.

(** C4. With a message to send (the trimmed input is not empty) and the
    instance disconnected, [sendMessage] returns without emitting or
    issuing a request and puts up the error toast "Not connected to
    server. Please wait..."; nothing is kept for later delivery: whatever
    events follow, short of the user sending again, nothing is emitted. *)
Theorem sendMessage_disconnected_rejected (w : World) (later : list event) :
  trim (input_value (page w)) <> [] ->
  isConnected (app w) = false ->
  forallb (fun ev => negb (send_trigger ev)) later = true ->
  fst (sendMessage w) = Normal tt
  /\ emitted (env (exec sendMessage w)) = emitted (env w)
  /\ requests (env (exec sendMessage w)) = requests (env w)
  /\ prop errorMessage prop_textContent (exec sendMessage w)
     = js "Not connected to server. Please wait..."
  /\ prop errorToast style_display (exec sendMessage w) = js "flex"
  /\ emitted (env (run (exec sendMessage w) later)) = emitted (env w).
Proof.
  intros Hm Hc Hl. rewrite (run_keeps_emitted later _ Hl). unfold exec.
  rewrite (sendMessage_offline w Hm Hc). simpl.
  repeat split; [apply prop_toast_shown_text | apply prop_toast_shown_display].
Qed.

(** Use a frame fact on the computation the goal ends with. *)
Ltac by_frame f :=
  lazymatch goal with
  | |- context [snd (?m ?w0)] =>
      let H := fresh in
      assert (H : preserves f m) by frame_methods;
      rewrite (H w0); clear H
  end.

Lemma sendMessage_accepted_clears w :
  trim (input_value (page w)) <> [] ->
  isConnected (app w) = true ->
  input_value (page (exec sendMessage w)) = [].
Proof.
  intros Hm Hc. unfold exec, sendMessage.
  rewrite bind_read.
  destruct (trim (input_value (page w))) as [|c r]; [contradiction|].
  rewrite bind_read, Hc. change (negb true) with false. cbv iota.
  rewrite bind_update.
  by_frame (fun w => input_value (page w)). reflexivity.
Qed.

(** C9. When [sendMessage] rejects (blank input, or disconnected) the
    instance, the input field, the message list, the send button, the
    stored history, the socket traffic, the console and every element
    property other than the error toast's are as before; the only
    additions are the toast's text, its [display] and its hide timer.
    The input field changes only when neither rejection applies, and
    then it is emptied. *)
Theorem sendMessage_rejection_frame (w : World) :
  (trim (input_value (page w)) = [] \/ isConnected (app w) = false ->
   app (exec sendMessage w) = app w
   /\ input_value (page (exec sendMessage w)) = input_value (page w)
   /\ chat_children (page (exec sendMessage w)) = chat_children (page w)
   /\ send_disabled (page (exec sendMessage w)) = send_disabled (page w)
   /\ input_parent_focused (page (exec sendMessage w)) = input_parent_focused (page w)
   /\ input_active (page (exec sendMessage w)) = input_active (page w)
   /\ localStorage (env (exec sendMessage w)) = localStorage (env w)
   /\ emitted (env (exec sendMessage w)) = emitted (env w)
   /\ requests (env (exec sendMessage w)) = requests (env w)
   /\ console (env (exec sendMessage w)) = console (env w)
   /\ io_calls (env (exec sendMessage w)) = io_calls (env w)
   /\ timers (env (exec sendMessage w)) = timers (env w) ++ [(5000, HideToast errorToast)]
   /\ forall k, k <> (errorToast, style_display) -> k <> (errorMessage, prop_textContent) ->
        props (page (exec sendMessage w)) !! k = props (page w) !! k)
  /\ (input_value (page (exec sendMessage w)) <> input_value (page w) ->
      trim (input_value (page w)) <> [] /\ isConnected (app w) = true)
  /\ (trim (input_value (page w)) <> [] -> isConnected (app w) = true ->
      input_value (page (exec sendMessage w)) = []).
Proof.
  assert (Hrej : trim (input_value (page w)) = [] \/ isConnected (app w) = false ->
                 exists m, exec sendMessage w = toast_shown errorToast errorMessage m w).
  { intros [Hb|Hc].
    - eexists. unfold exec. rewrite (sendMessage_blank w Hb). reflexivity.
    - destruct (trim (input_value (page w))) as [|c r] eqn:Ht.
      + eexists. unfold exec. rewrite (sendMessage_blank w Ht). reflexivity.
      + eexists. unfold exec. rewrite (sendMessage_offline w); [reflexivity| |exact Hc].
        rewrite Ht. discriminate. }
  split; [|split].
  - intros H. destruct (Hrej H) as [m ->].
    repeat (split; [reflexivity|]).
    intros k H1 H2. apply props_toast_shown_other; assumption.
  - intros Hne.
    destruct (trim (input_value (page w))) as [|c r] eqn:Ht.
    + destruct (Hrej (or_introl eq_refl)) as [m Hm]. rewrite Hm in Hne.
      exfalso. apply Hne. reflexivity.
    + split; [discriminate|].
      destruct (isConnected (app w)) eqn:Hc; [reflexivity|].
      destruct (Hrej (or_intror eq_refl)) as [m Hm]. rewrite Hm in Hne.
      exfalso. apply Hne. reflexivity.
  - apply sendMessage_accepted_clears.
Qed.

(** ** The typing indicator *)

Lemma showTypingIndicator_typing w :
  isTyping (app w) = true -> exec showTypingIndicator w = w.
Proof. intros H. unfold exec, showTypingIndicator. rewrite bind_read, H. reflexivity. Qed.

Lemma hideTypingIndicator_idle w :
  isTyping (app w) = false -> exec hideTypingIndicator w = w.
Proof. intros H. unfold exec, hideTypingIndicator. rewrite bind_read, H. reflexivity. Qed.

Lemma showTypingIndicator_after w :
  isTyping (app (exec showTypingIndicator w)) = true.
Proof.
  unfold exec, showTypingIndicator. rewrite bind_read.
  destruct (isTyping (app w)) eqn:H; [exact H | reflexivity].
Qed.

Lemma hideTypingIndicator_after w :
  isTyping (app (exec hideTypingIndicator w)) = false.
Proof.
  unfold exec, hideTypingIndicator. rewrite bind_read.
  destruct (isTyping (app w)) eqn:H; [reflexivity | exact H].
Qed.

Lemma typing_step_consistent w c :
  (isTyping (app w) = true <-> indicator_shown w) ->
  isTyping (app (typing_step w c)) = true <-> indicator_shown (typing_step w c).
Proof.
  intros Hw. destruct c; simpl.
  - destruct (isTyping (app w)) eqn:Ht.
    + rewrite (showTypingIndicator_typing w Ht), Ht. exact Hw.
    + unfold exec, showTypingIndicator. rewrite bind_read, Ht. simpl.
      unfold indicator_shown, prop. simpl. rewrite lookup_insert_eq. tauto.
  - destruct (isTyping (app w)) eqn:Ht.
    + unfold exec, hideTypingIndicator. rewrite bind_read, Ht. simpl.
      unfold indicator_shown, prop. simpl. rewrite lookup_insert_eq. simpl.
      split; discriminate.
    + rewrite (hideTypingIndicator_idle w Ht), Ht. exact Hw.
Qed.

(** C10. [showTypingIndicator] and [hideTypingIndicator] are idempotent:
    a second call in a row changes nothing.  From a state in which the
    [isTyping] flag agrees with the indicator being displayed, the two
    agree after any sequence of these calls. *)
Theorem typing_indicator_idempotent_consistent :
  (forall w, exec showTypingIndicator (exec showTypingIndicator w)
             = exec showTypingIndicator w)
  /\ (forall w, exec hideTypingIndicator (exec hideTypingIndicator w)
                = exec hideTypingIndicator w)
  /\ (forall w calls,
        (isTyping (app w) = true <-> indicator_shown w) ->
        isTyping (app (fold_left typing_step calls w)) = true
        <-> indicator_shown (fold_left typing_step calls w)).
Proof.
  split; [|split].
  - intros w. apply showTypingIndicator_typing, showTypingIndicator_after.
  - intros w. apply hideTypingIndicator_idle, hideTypingIndicator_after.
  - intros w calls. revert w. induction calls as [|c r IH]; intros w Hw; simpl.
    + exact Hw.
    + apply IH, typing_step_consistent, Hw.
Qed.

(** ** Opening the socket *)

Lemma initializeSocket_io_calls w :
  io_calls (env (exec initializeSocket w)) = S (io_calls (env w)).
Proof.
  unfold exec, initializeSocket, try_catch. rewrite bind_update, bind_read. simpl.
  destruct (io_throws (env w)); reflexivity.
Qed.

Lemma listener_keeps_io_calls ev :
  reconnect_trigger ev = false -> preserves (fun w => io_calls (env w)) (listener ev).
Proof.
  destruct ev; simpl; try discriminate; try solve [frame_methods].
  destruct hidden; [intros _; frame_methods | discriminate].
Qed.

Lemma step_io_calls w ev :
  io_calls (env (step w ev))
  = if reconnect_trigger ev && negb (isConnected (app w))
    then S (io_calls (env w)) else io_calls (env w).
Proof.
  destruct (reconnect_trigger ev) eqn:Ht.
  - destruct ev; try discriminate.
    + destruct hidden; [discriminate|]. unfold step, exec. simpl.
      unfold console_log. rewrite bind_update, bind_read. simpl.
      destruct (isConnected (app w)); simpl; [reflexivity|].
      apply (initializeSocket_io_calls
               (with_env (fun e => set_console (console e ++ [_]) e) w)).
    + unfold step, exec. simpl. rewrite bind_read.
      destruct (isConnected (app w)); simpl; [reflexivity|].
      unfold console_log. rewrite bind_update.
      apply (initializeSocket_io_calls
               (with_env (fun e => set_console (console e ++ [_]) e) w)).
  - simpl. apply listener_keeps_io_calls, Ht.
Qed.

Lemma run_keeps_io_calls evs w :
  forallb (fun ev => negb (reconnect_trigger ev)) evs = true ->
  io_calls (env (run w evs)) = io_calls (env w).
Proof.
  revert w. induction evs as [|ev r IH]; intros w H; simpl in *; [reflexivity|].
  apply andb_true_iff in H as [Hev Hr]. rewrite (IH _ Hr), step_io_calls.
  destruct (reconnect_trigger ev); [discriminate | reflexivity].
Qed.

(** C8. In one turn of the event loop the listeners call [io] again only
    on [visibilitychange] with the page visible or on [online], and then
    only when [isConnected] is false; in every other case, whatever the
    event (a transport failure included), no socket is opened, and so
    none is opened over any sequence of events without such a trigger.
    A transport failure leaves [isConnected] false.  Without an instance
    no listener opens a socket. *)
Theorem reconnect_only_on_visible_or_online :
  (forall w ev,
     io_calls (env (step w ev))
     = if reconnect_trigger ev && negb (isConnected (app w))
       then S (io_calls (env w)) else io_calls (env w))
  /\ (forall w evs,
        forallb (fun ev => negb (reconnect_trigger ev)) evs = true ->
        io_calls (env (run w evs)) = io_calls (env w))
  /\ (forall w, isConnected (app (step w SocketDisconnect)) = false)
  /\ (forall w error, isConnected (app (step w (SocketConnectError error))) = false)
  /\ (forall p e ev, exists e', dispatch (NoChatbot p e) ev = NoChatbot p e'
                               /\ io_calls e' = io_calls e).
Proof.
  split; [exact step_io_calls|]. split; [intros w evs; apply run_keeps_io_calls|].
  split; [|split].
  - intros w. reflexivity.
  - intros w error. reflexivity.
  - intros p e ev. destruct ev; eexists; (split; [reflexivity|reflexivity]).
Qed.

(** ** Saving and appending, step by step *)

Lemma history_entry_eq msg w :
  history_entry msg w = (entry_of (now (env w)) msg, w).
Proof.
  unfold history_entry, entry_of.
  destruct (querySelector (js "message-bubble") msg); reflexivity.
Qed.

Lemma mapM_history_entry l w :
  mapM history_entry l w = (map_completion (entry_of (now (env w))) l, w).
Proof.
  induction l as [|x r IH]; simpl; [reflexivity|].
  unfold bind at 1. rewrite history_entry_eq.
  destruct (entry_of (now (env w)) x) as [y|e]; simpl; [|reflexivity].
  unfold bind at 1. rewrite IH.
  destruct (map_completion (entry_of (now (env w))) r); reflexivity.
Qed.

Lemma saveChatHistory_eq w : saveChatHistory w = (Normal tt, saved w).
Proof.
  unfold saveChatHistory, try_catch, saved, save_text. rewrite bind_read.
  unfold bind at 1. rewrite mapM_history_entry.
  destruct (map_completion _ _) as [ms|e]; reflexivity.
Qed.

Lemma addMessage_eq content sender metadata w :
  addMessage content sender metadata w
  = match build_message content sender (default_metadata metadata) with
    | Normal n => (Normal tt, saved (appended n w))
    | Throw e => (Throw e, w)
    end.
Proof.
  unfold addMessage. unfold bind at 1. unfold lift.
  destruct (build_message content sender (default_metadata metadata)) as [n|e];
    [|reflexivity].
  rewrite bind_update. unfold scrollToBottom, setTimeout. rewrite bind_update.
  apply saveChatHistory_eq.
Qed.

Lemma saved_app w : app (saved w) = app w.
Proof. unfold saved. destruct (save_text w); reflexivity. Qed.

Lemma saved_page w : page (saved w) = page w.
Proof. unfold saved. destruct (save_text w); reflexivity. Qed.

Lemma saved_other_slot w k :
  k <> history_key (sessionId (app w)) ->
  localStorage (env (saved w)) !! k = localStorage (env w) !! k.
Proof.
  intros Hk. unfold saved. destruct (save_text w); simpl; [|reflexivity].
  rewrite lookup_insert_ne by congruence. reflexivity.
Qed.

(** ** Loading *)

Lemma loadChatHistory_absent w :
  localStorage (env w) !! history_key (sessionId (app w)) = None ->
  loadChatHistory w = (Normal tt, w).
Proof.
  intros H. unfold loadChatHistory, try_catch, localStorage_getItem.
  rewrite bind_read, bind_read, H. reflexivity.
Qed.

Lemma loadChatHistory_empty_string w :
  localStorage (env w) !! history_key (sessionId (app w)) = Some [] ->
  loadChatHistory w = (Normal tt, w).
Proof.
  intros H. unfold loadChatHistory, try_catch, localStorage_getItem.
  rewrite bind_read, bind_read, H. reflexivity.
Qed.

Lemma loadChatHistory_unparsable w c r :
  localStorage (env w) !! history_key (sessionId (app w)) = Some (c :: r) ->
  JSON_parse (c :: r) = None ->
  loadChatHistory w
  = (Normal tt,
     with_env (fun e => set_console (console e ++ [load_failure (EngineError SyntaxError)]) e) w).
Proof.
  intros H Hp. unfold loadChatHistory, try_catch, localStorage_getItem.
  rewrite bind_read, bind_read, H. cbv iota. rewrite Hp. reflexivity.
Qed.

(** The [try] blocks catch everything: neither method ever throws. *)
Lemma loadChatHistory_total : total loadChatHistory.
Proof. unfold loadChatHistory, console_error. total_tac. Qed.

Lemma saveChatHistory_total : total saveChatHistory.
Proof. unfold saveChatHistory, console_error. total_tac. Qed.

(** C5. When the slot of the session is absent, or holds text that is
    not JSON, [loadChatHistory] returns normally and leaves the instance,
    the whole page (no message rendered, no toast shown), the store, the
    timers and the socket traffic as they were.  The failure is logged:
    when the text is not empty, the console gains exactly one entry,
    [console.error('Failed to load chat history:', error)] with the
    [SyntaxError] of [JSON.parse].  An absent slot and the empty text
    are falsy in [if (history)]: nothing is parsed, nothing fails, and
    the console is as it was. *)
Theorem loadChatHistory_absent_or_malformed (w : World) :
  localStorage (env w) !! history_key (sessionId (app w)) = None
  \/ (exists h, localStorage (env w) !! history_key (sessionId (app w)) = Some h
                /\ JSON_parse h = None) ->
  fst (loadChatHistory w) = Normal tt
  /\ app (exec loadChatHistory w) = app w
  /\ page (exec loadChatHistory w) = page w
  /\ querySelectorAll (js "message") (chat_children (page (exec loadChatHistory w)))
     = querySelectorAll (js "message") (chat_children (page w))
  /\ localStorage (env (exec loadChatHistory w)) = localStorage (env w)
  /\ timers (env (exec loadChatHistory w)) = timers (env w)
  /\ emitted (env (exec loadChatHistory w)) = emitted (env w)
  /\ console (env (exec loadChatHistory w))
     = console (env w)
       ++ match localStorage (env w) !! history_key (sessionId (app w)) with
          | Some (_ :: _) =>
              [{| level := LogError; text := js "Failed to load chat history:";
                  thrown := Some (EngineError SyntaxError) |}]
          | _ => []
          end.
Proof.
  intros [H|[h [H Hp]]]; unfold exec.
  - rewrite (loadChatHistory_absent w H), H. simpl.
    rewrite app_nil_r. repeat split; auto.
  - destruct h as [|c r].
    + rewrite (loadChatHistory_empty_string w H), H. simpl.
      rewrite app_nil_r. repeat split; auto.
    + rewrite (loadChatHistory_unparsable w c r H Hp), H. simpl. repeat split; auto.
Qed.

(** ** Removing the messages *)

Lemma node_induction (P : node -> Prop) :
  (forall d, P (Text d)) ->
  (forall t cn cs, Forall P cs -> P (Elem t cn cs)) ->
  forall n, P n.
Proof.
  intros HT HE. fix IH 1. intros [d|t cn cs]; [apply HT|].
  apply HE. induction cs as [|c r IHr]; constructor; [apply IH | exact IHr].
Qed.

Lemma remove_matching_class cls n :
  classList_contains cls (remove_matching cls n) = classList_contains cls n.
Proof. destruct n; reflexivity. Qed.

Lemma remove_matching_clean cls n :
  List.filter (classList_contains cls) (descendants (remove_matching cls n)) = [].
Proof.
  induction n as [d|t cn cs IH] using node_induction; [reflexivity|].
  simpl. induction cs as [|c r IHr]; [reflexivity|].
  inversion IH as [|? ? Hc Hr]; subst.
  destruct (classList_contains cls c) eqn:Hcls; [apply IHr, Hr|].
  simpl. rewrite remove_matching_class, Hcls.
  rewrite List.filter_app, Hc. simpl. apply IHr, Hr.
Qed.

Lemma remove_all_clean cls cs :
  querySelectorAll cls (remove_all cls cs) = [].
Proof.
  unfold querySelectorAll, descendants_of, remove_all.
  induction cs as [|c r IH]; [reflexivity|]. simpl.
  destruct (classList_contains cls c) eqn:Hcls; simpl; [exact IH|].
  rewrite remove_matching_class, Hcls.
  rewrite List.filter_app, remove_matching_clean. exact IH.
Qed.

Lemma clearChat_confirmed w :
  clearChat true w
  = (Normal tt,
     toast_shown successToast successMessage (js "Chat history cleared")
       (with_env (fun e =>
          set_localStorage (delete (history_key (sessionId (app w))) (localStorage e)) e)
          (with_page (fun p =>
             set_chat_children (remove_all (js "message") (chat_children p)) p) w))).
Proof. reflexivity. Qed.

(** C6. After a confirmed [clearChat] the store has no slot for the
    session and the page shows no message; [loadChatHistory] then changes
    nothing, on this page and on any page opened with the same session id
    over the same store. *)
Theorem clearChat_then_load_empty (w : World) :
  localStorage (env (exec (clearChat true) w)) !! history_key (sessionId (app w)) = None
  /\ sessionId (app (exec (clearChat true) w)) = sessionId (app w)
  /\ querySelectorAll (js "message") (chat_children (page (exec (clearChat true) w))) = []
  /\ loadChatHistory (exec (clearChat true) w) = (Normal tt, exec (clearChat true) w)
  /\ (forall w2,
        sessionId (app w2) = sessionId (app w) ->
        localStorage (env w2) = localStorage (env (exec (clearChat true) w)) ->
        loadChatHistory w2 = (Normal tt, w2)).
Proof.
  unfold exec. rewrite clearChat_confirmed. simpl.
  assert (Hgone : delete (history_key (sessionId (app w))) (localStorage (env w))
                  !! history_key (sessionId (app w)) = None) by apply lookup_delete_eq.
  split; [exact Hgone|]. split; [reflexivity|].
  split; [apply remove_all_clean|]. split.
  - apply loadChatHistory_absent. exact Hgone.
  - intros w2 Hs Hl. apply loadChatHistory_absent. rewrite Hs, Hl. exact Hgone.
Qed.

(** ** The store is only touched at the session's key *)

Lemma history_key_inj s1 s2 : history_key s1 = history_key s2 -> s1 = s2.
Proof. unfold history_key. apply app_inv_head. Qed.

Lemma restore_message_eq msg w :
  restore_message msg w
  = match get msg (js "sender") with
    | Throw e => (Throw e, w)
    | Normal sender =>
        if negb (is_string (js "welcome") sender) then
          match get msg (js "content") with
          | Throw e => (Throw e, w)
          | Normal content =>
              match build_message content sender (JObj []) with
              | Normal n => (Normal tt, saved (appended n w))
              | Throw e => (Throw e, w)
              end
          end
        else (Normal tt, w)
    end.
Proof.
  unfold restore_message, bind, lift.
  destruct (get msg (js "sender")) as [sender|e]; [|reflexivity].
  destruct (negb (is_string (js "welcome") sender)); [|reflexivity].
  destruct (get msg (js "content")) as [content|e]; [|reflexivity].
  apply addMessage_eq.
Qed.

Lemma restore_message_cases msg w :
  (exists e, restore_message msg w = (Throw e, w))
  \/ restore_message msg w = (Normal tt, w)
  \/ (exists n, restore_message msg w = (Normal tt, saved (appended n w))).
Proof.
  rewrite restore_message_eq.
  destruct (get msg (js "sender")) as [sender|e]; [|left; eexists; reflexivity].
  destruct (negb (is_string (js "welcome") sender)); [|right; left; reflexivity].
  destruct (get msg (js "content")) as [content|e]; [|left; eexists; reflexivity].
  destruct (build_message content sender (JObj [])) as [n|e].
  - right. right. eexists. reflexivity.
  - left. eexists. reflexivity.
Qed.

(** A property of the state kept by every append-and-save is kept by
    the whole loop of [loadChatHistory]. *)
Lemma forEach_restore_invariant (I : World -> Prop) l :
  (forall n w, I w -> I (saved (appended n w))) ->
  forall w, I w -> I (snd (forEach l restore_message w)).
Proof.
  intros Hstep. induction l as [|msg r IH]; intros w Hw; simpl; [exact Hw|].
  unfold bind.
  destruct (restore_message_cases msg w) as [[e ->]|[->|[n ->]]]; simpl.
  - exact Hw.
  - apply IH, Hw.
  - apply IH, Hstep, Hw.
Qed.

Lemma loadChatHistory_invariant (I : World -> Prop) :
  (forall n w, I w -> I (saved (appended n w))) ->
  (forall e w, I w -> I (with_env (fun env0 =>
                            set_console (console env0 ++ [load_failure e]) env0) w)) ->
  forall w, I w -> I (exec loadChatHistory w).
Proof.
  intros Hstep Hlog w Hw. unfold exec, loadChatHistory, try_catch, localStorage_getItem.
  rewrite bind_read, bind_read.
  destruct (localStorage (env w) !! history_key (sessionId (app w))) as [[|c r]|];
    simpl; try exact Hw.
  destruct (JSON_parse (c :: r)) as [[| | | | |messages|]|]; simpl;
    try (apply Hlog, Hw).
  pose proof (forEach_restore_invariant I messages Hstep w Hw) as H.
  destruct (forEach messages restore_message w) as [[[]|e] w']; simpl in *.
  - exact H.
  - apply Hlog, H.
Qed.

Lemma loadChatHistory_other_slot w k :
  k <> history_key (sessionId (app w)) ->
  localStorage (env (exec loadChatHistory w)) !! k = localStorage (env w) !! k.
Proof.
  intros Hk.
  apply (loadChatHistory_invariant
           (fun w' => sessionId (app w') = sessionId (app w)
                      /\ localStorage (env w') !! k = localStorage (env w) !! k)).
  - intros n w' [Hs Hl]. rewrite saved_app. simpl. split; [exact Hs|].
    rewrite saved_other_slot; [exact Hl|]. simpl. rewrite Hs. exact Hk.
  - intros e w' H. exact H.
  - split; reflexivity.
Qed.

Lemma saved_poke k v w :
  k <> history_key (sessionId (app w)) -> saved (poke k v w) = poke k v (saved w).
Proof.
  intros Hk. unfold saved.
  change (save_text (poke k v w)) with (save_text w).
  destruct (save_text w) as [text|e]; [|reflexivity].
  unfold poke, with_env, set_localStorage. simpl. f_equal. f_equal.
  apply insert_insert_ne. congruence.
Qed.

Lemma restore_message_poke k v msg w :
  k <> history_key (sessionId (app w)) ->
  restore_message msg (poke k v w)
  = (fst (restore_message msg w), poke k v (snd (restore_message msg w))).
Proof.
  intros Hk. rewrite !restore_message_eq.
  destruct (get msg (js "sender")) as [sender|e]; [|reflexivity].
  destruct (negb (is_string (js "welcome") sender)); [|reflexivity].
  destruct (get msg (js "content")) as [content|e]; [|reflexivity].
  destruct (build_message content sender (JObj [])) as [n|e]; [|reflexivity].
  simpl. f_equal. apply (saved_poke k v (appended n w)). exact Hk.
Qed.

Lemma restore_message_session msg w :
  sessionId (app (snd (restore_message msg w))) = sessionId (app w).
Proof.
  destruct (restore_message_cases msg w) as [[e ->]|[->|[n ->]]]; simpl; try reflexivity.
  rewrite saved_app. reflexivity.
Qed.

Lemma forEach_restore_poke k v l w :
  k <> history_key (sessionId (app w)) ->
  forEach l restore_message (poke k v w)
  = (fst (forEach l restore_message w), poke k v (snd (forEach l restore_message w))).
Proof.
  revert w. induction l as [|msg r IH]; intros w Hk; simpl; [reflexivity|].
  unfold bind. rewrite (restore_message_poke k v msg w Hk).
  pose proof (restore_message_session msg w) as Hs.
  destruct (restore_message msg w) as [[[]|e] w']; simpl in *; [|reflexivity].
  apply IH. rewrite Hs. exact Hk.
Qed.

Lemma loadChatHistory_poke k v w :
  k <> history_key (sessionId (app w)) ->
  loadChatHistory (poke k v w)
  = (fst (loadChatHistory w), poke k v (snd (loadChatHistory w))).
Proof.
  intros Hk. unfold loadChatHistory, try_catch, localStorage_getItem.
  rewrite !bind_read.
  change (sessionId (app (poke k v w))) with (sessionId (app w)).
  replace (localStorage (env (poke k v w)) !! history_key (sessionId (app w)))
    with (localStorage (env w) !! history_key (sessionId (app w)))
    by (simpl; rewrite lookup_insert_ne by exact Hk; reflexivity).
  destruct (localStorage (env w) !! history_key (sessionId (app w))) as [[|c r]|];
    try reflexivity.
  destruct (JSON_parse (c :: r)) as [[| | | | |messages|]|]; try reflexivity.
  rewrite (forEach_restore_poke k v messages w Hk).
  destruct (forEach messages restore_message w) as [[[]|e] w']; reflexivity.
Qed.

(** C2, as the code has it.  The slot of a session is the key
    [chat_history_] followed by the session id: distinct sessions have
    distinct keys; saving, loading and clearing leave every other key of
    the store as it was, and what loading does is the same whatever the
    other keys hold; a save that succeeds fills the session's key, a
    confirmed clear empties it. *)
Theorem history_slot_is_per_session :
  (forall sid, history_key sid = js "chat_history_" ++ sid)
  /\ (forall s1 s2, history_key s1 = history_key s2 -> s1 = s2)
  /\ (forall w k, k <> history_key (sessionId (app w)) ->
        localStorage (env (exec saveChatHistory w)) !! k = localStorage (env w) !! k
        /\ localStorage (env (exec loadChatHistory w)) !! k = localStorage (env w) !! k
        /\ forall confirmed,
             localStorage (env (exec (clearChat confirmed) w)) !! k
             = localStorage (env w) !! k)
  /\ (forall w k v, k <> history_key (sessionId (app w)) ->
        loadChatHistory (poke k v w)
        = (fst (loadChatHistory w), poke k v (snd (loadChatHistory w))))
  /\ (forall w text, save_text w = Normal text ->
        localStorage (env (exec saveChatHistory w)) !! history_key (sessionId (app w))
        = Some text)
  /\ (forall w,
        localStorage (env (exec (clearChat true) w)) !! history_key (sessionId (app w))
        = None).
Proof.
  split; [reflexivity|]. split; [apply history_key_inj|]. split; [|split; [|split]].
  - intros w k Hk. split; [|split].
    + unfold exec. rewrite saveChatHistory_eq. apply saved_other_slot, Hk.
    + apply loadChatHistory_other_slot, Hk.
    + intros [|]; [|reflexivity]. unfold exec. rewrite clearChat_confirmed. simpl.
      apply lookup_delete_ne. congruence.
  - intros w k v Hk. apply loadChatHistory_poke, Hk.
  - intros w text Ht. unfold exec. rewrite saveChatHistory_eq. unfold saved. rewrite Ht.
    simpl. apply lookup_insert_eq.
  - intros w. unfold exec. rewrite clearChat_confirmed. simpl. apply lookup_delete_eq.
Qed.

(** ** Analytics *)

Example example_distribution_parsed :
  JSON_parse (js "{" ++ dq ++ js "greeting" ++ dq ++ js ": 3, "
              ++ dq ++ js "task_query" ++ dq ++ js ": 1}")
  = Some example_distribution.
Proof. vm_compute. reflexivity. Qed.











(** ** JSON text read back *)

Lemma hex_value_hex_digit d : d < 16 -> hex_value (hex_digit d) = Some d.
Proof.
  intros Hd. unfold hex_value, hex_digit, is_digit.
  destruct (N.ltb_spec d 10) as [Hlt|Hge].
  - replace (48 <=? 48 + d) with true by (symmetry; apply N.leb_le; lia).
    replace (48 + d <=? 57) with true by (symmetry; apply N.leb_le; lia).
    simpl. f_equal. lia.
  - replace (87 + d <=? 57) with false by (symmetry; apply N.leb_gt; lia).
    rewrite andb_false_r.
    replace (97 <=? 87 + d) with true by (symmetry; apply N.leb_le; lia).
    replace (87 + d <=? 102) with true by (symmetry; apply N.leb_le; lia).
    simpl. f_equal. lia.
Qed.

Lemma hex4_value c :
  c < 65536 ->
  ((c / 4096 mod 16 * 16 + c / 256 mod 16) * 16 + c / 16 mod 16) * 16 + c mod 16 = c.
Proof.
  intros Hc.
  pose proof (N.div_mod c 16 ltac:(lia)).
  pose proof (N.div_mod (c / 16) 16 ltac:(lia)).
  pose proof (N.div_mod (c / 256) 16 ltac:(lia)).
  pose proof (N.div_mod (c / 4096) 16 ltac:(lia)).
  assert (c / 256 = c / 16 / 16) by (rewrite N.Div0.div_div; reflexivity).
  assert (c / 4096 = c / 256 / 16) by (rewrite N.Div0.div_div; reflexivity).
  assert (c / 4096 < 16) by (apply N.Div0.div_lt_upper_bound; lia).
  assert (c / 4096 mod 16 = c / 4096) by (apply N.mod_small; assumption).
  lia.
Qed.

Lemma read_string_unicode_escape c s x rest :
  c < 65536 ->
  read_string s = Some (x, rest) ->
  read_string (92 :: 117 :: hex4 c ++ s) = Some (c :: x, rest).
Proof.
  intros Hc Hs. unfold hex4. rewrite <- !app_comm_cons, app_nil_l. cbn [read_string].
  change (92 =? 34) with false. change (92 =? 92) with true.
  change (117 =? 117) with true. cbv iota.
  rewrite !hex_value_hex_digit by (apply N.mod_lt; lia).
  rewrite Hs, hex4_value by exact Hc. reflexivity.
Qed.

Lemma read_string_quote_units p s rest :
  read_string (quote_units p s ++ 34 :: rest) = Some (s, rest).
Proof.
  revert p. induction s as [|c r IH]; intros p; [reflexivity|].
  cbn [quote_units]. rewrite <- app_assoc.
  set (paired := (is_lead c && starts_with_trail r) || (is_trail c && p)).
  unfold quote_unit.
  repeat match goal with
         | |- context [if c =? ?k then _ else _] =>
             destruct (N.eqb_spec c k) as [->|?];
             [cbn; rewrite IH; reflexivity|]
         end.
  destruct ((c <? 32) || (is_lead c || is_trail c) && negb paired) eqn:E.
  - apply (read_string_unicode_escape c _ r rest); [|apply IH].
    apply orb_true_iff in E as [E|E].
    + apply N.ltb_lt in E. lia.
    + apply andb_true_iff in E as [E _]. unfold is_lead, is_trail in E.
      apply orb_true_iff in E as [E|E]; apply andb_true_iff in E as [_ E];
        apply N.leb_le in E; lia.
  - apply orb_false_iff in E as [E _].
    rewrite <- app_comm_cons, app_nil_l. cbn [read_string].
    replace (c =? 34) with false by (symmetry; apply N.eqb_neq; assumption).
    replace (c =? 92) with false by (symmetry; apply N.eqb_neq; assumption).
    rewrite E, IH. reflexivity.
Qed.

Lemma uint_codes_digits u : forallb is_digit (uint_codes u) = true.
Proof. induction u; simpl; auto. Qed.

Lemma span_digits_run ds c rest :
  forallb is_digit ds = true -> is_digit c = false ->
  span_digits (ds ++ c :: rest) = (ds, c :: rest).
Proof.
  intros Hds Hc. induction ds as [|d r IH].
  - rewrite app_nil_l. cbn [span_digits]. rewrite Hc. reflexivity.
  - cbn [forallb] in Hds. apply andb_true_iff in Hds as [Hd Hr].
    rewrite <- app_comm_cons. cbn [span_digits]. rewrite Hd, (IH Hr). reflexivity.
Qed.

(** The numeral [decimal t] is canonical: no leading zero. *)
Lemma to_uint_canonical t :
  N.to_uint t = Decimal.D0 Decimal.Nil
  \/ (N.to_uint t <> Decimal.Nil /\ forall u, N.to_uint t <> Decimal.D0 u).
Proof.
  pose proof (DecimalN.Unsigned.to_of (N.to_uint t)) as H.
  rewrite DecimalN.Unsigned.of_to in H.
  destruct (Decimal.nzhead (N.to_uint t)) eqn:Hz.
  - left. rewrite H. apply unorm_0. exact Hz.
  - exfalso. exact (nzhead_nonzero _ _ Hz).
  - right. rewrite H, unorm_nzhead by (rewrite Hz; discriminate). rewrite Hz.
    split; [discriminate | intros ?; discriminate].
  - right. rewrite H, unorm_nzhead by (rewrite Hz; discriminate). rewrite Hz.
    split; [discriminate | intros ?; discriminate].
  - right. rewrite H, unorm_nzhead by (rewrite Hz; discriminate). rewrite Hz.
    split; [discriminate | intros ?; discriminate].
  - right. rewrite H, unorm_nzhead by (rewrite Hz; discriminate). rewrite Hz.
    split; [discriminate | intros ?; discriminate].
  - right. rewrite H, unorm_nzhead by (rewrite Hz; discriminate). rewrite Hz.
    split; [discriminate | intros ?; discriminate].
  - right. rewrite H, unorm_nzhead by (rewrite Hz; discriminate). rewrite Hz.
    split; [discriminate | intros ?; discriminate].
  - right. rewrite H, unorm_nzhead by (rewrite Hz; discriminate). rewrite Hz.
    split; [discriminate | intros ?; discriminate].
  - right. rewrite H, unorm_nzhead by (rewrite Hz; discriminate). rewrite Hz.
    split; [discriminate | intros ?; discriminate].
  - right. rewrite H, unorm_nzhead by (rewrite Hz; discriminate). rewrite Hz.
    split; [discriminate | intros ?; discriminate].
Qed.

Lemma read_digits_acc u acc :
  fst (read_digits (Npos acc) (uint_codes u)) = Npos (Pos.of_uint_acc u acc).
Proof.
  revert acc. induction u; intros acc; cbn [uint_codes read_digits Pos.of_uint_acc];
    [reflexivity|..];
    match goal with
    | |- context [is_digit ?d] => change (is_digit d) with true
    end; cbv iota; rewrite <- IHu; f_equal; f_equal; lia.
Qed.

Lemma read_digits_uint u : fst (read_digits 0 (uint_codes u)) = N.of_uint u.
Proof.
  induction u; cbn [uint_codes read_digits]; [reflexivity|..];
    match goal with
    | |- context [is_digit ?d] => change (is_digit d) with true
    end; cbv iota;
    [exact IHu | apply (read_digits_acc u _)..].
Qed.

(** The digits of [decimal t] read back as [t]. *)
Lemma read_digits_decimal t : fst (read_digits 0 (decimal t)) = t.
Proof. unfold decimal. rewrite read_digits_uint. apply DecimalN.Unsigned.of_to. Qed.

Lemma read_number_decimal t rest :
  read_number (decimal t ++ 125 :: rest) = Some (reparsed t, 125 :: rest).
Proof.
  assert (E : reparsed t
              = if fst (read_digits 0 (decimal t)) <=? max_exact
                then Int (Z.of_N (fst (read_digits 0 (decimal t))))
                else Real (decimal t))
    by (rewrite read_digits_decimal; reflexivity).
  rewrite E. clear E. unfold decimal.
  destruct (to_uint_canonical t) as [Hz|[Hnil Hnz]].
  - rewrite Hz. reflexivity.
  - pose proof (uint_codes_digits (N.to_uint t)) as Hd.
    destruct (N.to_uint t) as [|u|u|u|u|u|u|u|u|u|u];
      [contradiction | exfalso; exact (Hnz u eq_refl) | ..];
      cbn [uint_codes forallb] in Hd |- *;
      apply andb_true_iff in Hd as [_ Hd];
      rewrite <- app_comm_cons; unfold read_number;
      cbv beta iota;
      match goal with
      | |- context [is_digit ?d] => change (is_digit d) with true
      end;
      match goal with
      | |- context [?d =? 48] => change (d =? 48) with false
      end;
      cbv iota; cbn [span_digits];
      match goal with
      | |- context [is_digit ?d] => change (is_digit d) with true
      end;
      cbv iota;
      rewrite (span_digits_run _ 125 rest Hd eq_refl);
      unfold read_fraction, read_exponent;
      change (125 =? 101) with false; change (125 =? 69) with false;
      cbv beta iota; cbn [orb];
      cbv beta iota; rewrite !app_nil_r, app_nil_l;
      match goal with
      | |- context [?a <=? max_exact] => destruct (a <=? max_exact)
      end; reflexivity.
Qed.

Lemma QuoteJSONString_app s rest :
  QuoteJSONString s ++ rest = 34 :: quote_units false s ++ 34 :: rest.
Proof.
  unfold QuoteJSONString, dq. rewrite <- !app_assoc. reflexivity.
Qed.

Lemma read_value_string f s rest :
  read_value (S f) (QuoteJSONString s ++ rest) = Some (JStr s, rest).
Proof.
  rewrite QuoteJSONString_app. cbn [read_value skip_ws].
  change (is_json_ws 34) with false. cbv iota.
  change (34 =? 34) with true. cbv iota.
  rewrite read_string_quote_units. reflexivity.
Qed.

Lemma read_value_digit f d r :
  is_digit d = true ->
  read_value (S f) (d :: r)
  = match read_number (d :: r) with
    | Some (n, rest) => Some (JNum n, rest)
    | None => None
    end.
Proof.
  intros Hd. unfold is_digit in Hd. apply andb_true_iff in Hd as [H1 H2].
  apply N.leb_le in H1. apply N.leb_le in H2.
  cbn [read_value skip_ws]. unfold is_json_ws.
  repeat match goal with
         | |- context [d =? ?k] =>
             replace (d =? k) with false by (symmetry; apply N.eqb_neq; lia)
         end.
  cbn [orb]. cbv iota.
  repeat match goal with
         | |- context [d =? ?k] =>
             replace (d =? k) with false by (symmetry; apply N.eqb_neq; lia)
         end.
  reflexivity.
Qed.

Lemma decimal_head t : exists d r, decimal t = d :: r /\ is_digit d = true.
Proof.
  unfold decimal. pose proof (uint_codes_digits (N.to_uint t)) as Hd.
  destruct (to_uint_canonical t) as [Hz|[Hnil _]].
  - rewrite Hz. eexists _, _. split; reflexivity.
  - destruct (uint_codes (N.to_uint t)) as [|d r] eqn:E.
    + destruct (N.to_uint t); try discriminate. contradiction.
    + exists d, r. split; [reflexivity|]. cbn [forallb] in Hd.
      apply andb_true_iff in Hd as [Hd _]. exact Hd.
Qed.

Lemma read_value_timestamp f t rest :
  read_value (S f) (decimal t ++ 125 :: rest) = Some (JNum (reparsed t), 125 :: rest).
Proof.
  destruct (decimal_head t) as (d & r & E & Hd).
  pose proof (read_number_decimal t rest) as Hn. rewrite E in Hn |- *.
  rewrite <- app_comm_cons in Hn |- *.
  rewrite (read_value_digit f d _ Hd), Hn. reflexivity.
Qed.

Lemma read_members_more rv f k tv v more ms rest :
  rv (tv ++ 44 :: more) = Some (v, 44 :: more) ->
  read_members rv f more = Some (ms, rest) ->
  read_members rv (S f) (QuoteJSONString k ++ 58 :: tv ++ 44 :: more)
  = Some ((k, v) :: ms, rest).
Proof.
  intros Hv Hm. rewrite QuoteJSONString_app. cbn [read_members skip_ws].
  change (is_json_ws 34) with false. cbv iota.
  change (34 =? 34) with true. cbv iota.
  rewrite read_string_quote_units. cbn [skip_ws].
  change (is_json_ws 58) with false. cbv iota.
  change (58 =? 58) with true. cbv iota.
  rewrite Hv. cbn [skip_ws]. change (is_json_ws 44) with false. cbv iota.
  change (44 =? 44) with true. cbv iota. rewrite Hm. reflexivity.
Qed.

Lemma read_members_last rv f k tv v rest :
  rv (tv ++ 125 :: rest) = Some (v, 125 :: rest) ->
  read_members rv (S f) (QuoteJSONString k ++ 58 :: tv ++ 125 :: rest)
  = Some ([(k, v)], rest).
Proof.
  intros Hv. rewrite QuoteJSONString_app. cbn [read_members skip_ws].
  change (is_json_ws 34) with false. cbv iota.
  change (34 =? 34) with true. cbv iota.
  rewrite read_string_quote_units. cbn [skip_ws].
  change (is_json_ws 58) with false. cbv iota.
  change (58 =? 58) with true. cbv iota.
  rewrite Hv. cbn [skip_ws]. change (is_json_ws 125) with false. cbv iota.
  change (125 =? 44) with false. change (125 =? 125) with true. cbv iota.
  reflexivity.
Qed.

Lemma decimalZ_of_N t : decimalZ (Z.of_N t) = decimal t.
Proof. destruct t; reflexivity. Qed.

Lemma written_text t p rest :
  JSON_text (written t p) ++ rest
  = 123 :: QuoteJSONString (js "sender") ++ 58 :: QuoteJSONString (fst p)
        ++ 44 :: QuoteJSONString (js "content") ++ 58 :: QuoteJSONString (snd p)
        ++ 44 :: QuoteJSONString (js "timestamp") ++ 58 :: decimal t ++ 125 :: rest.
Proof.
  unfold written. cbn [JSON_text join number_text]. rewrite decimalZ_of_N.
  change (js "{") with [123]. change (js "}") with [125].
  change (js ",") with [44]. change (js ":") with [58].
  rewrite <- !app_assoc. reflexivity.
Qed.

Lemma own_entries_history a b c :
  own_entries [(js "sender", a); (js "content", b); (js "timestamp", c)]
  = [(js "sender", a); (js "content", b); (js "timestamp", c)].
Proof. reflexivity. Qed.

Lemma read_value_object f b :
  read_value (S f) (123 :: 34 :: b)
  = match read_members (read_value f) (length (34 :: b)) (34 :: b) with
    | Some (ms, rest) => Some (JObj (own_entries ms), rest)
    | None => None
    end.
Proof. reflexivity. Qed.

Lemma read_value_array f b :
  read_value (S f) (91 :: 123 :: b)
  = match read_elements (read_value f) (length (123 :: b)) (123 :: b) with
    | Some (vs, rest) => Some (JArr vs, rest)
    | None => None
    end.
Proof. reflexivity. Qed.

Lemma read_value_written f t p rest :
  read_value (S (S f)) (JSON_text (written t p) ++ rest) = Some (read_back t p, rest).
Proof.
  rewrite written_text.
  match goal with
  | |- read_value _ (123 :: ?b) = _ =>
      assert (Hbody : forall n, read_members (read_value (S f)) (S (S (S n))) b
                = Some ([(js "sender", JStr (fst p)); (js "content", JStr (snd p));
                         (js "timestamp", JNum (reparsed t))], rest))
  end.
  { intros n.
    apply read_members_more; [apply read_value_string|].
    apply read_members_more; [apply read_value_string|].
    apply read_members_last. apply read_value_timestamp. }
  rewrite (QuoteJSONString_app (js "sender")) in Hbody |- *.
  rewrite read_value_object.
  cbn [length]. rewrite length_app. cbn [length]. rewrite !Nat.add_succ_r.
  rewrite Hbody, own_entries_history. reflexivity.
Qed.

(** A comma-separated run of element texts, read back one by one. *)
Lemma read_elements_join rv fuel (tvs : list (jsstring * jsval)) rest :
  tvs <> [] ->
  (length tvs <= fuel)%nat ->
  Forall (fun tv => forall r, rv (fst tv ++ r) = Some (snd tv, r)) tvs ->
  read_elements rv fuel (join (js ",") (List.map fst tvs) ++ 93 :: rest)
  = Some (List.map snd tvs, rest).
Proof.
  revert fuel. induction tvs as [|[t v] r IH]; intros fuel Hne Hlen Hall; [contradiction|].
  inversion Hall as [|? ? Hv Hr]; subst. simpl in Hv.
  destruct fuel as [|fuel]; [simpl in Hlen; lia|].
  destruct r as [|tv2 r2].
  - cbn [List.map join read_elements]. rewrite Hv. reflexivity.
  - change (join (js ",") (List.map fst ((t, v) :: tv2 :: r2)))
      with (t ++ js "," ++ join (js ",") (List.map fst (tv2 :: r2))).
    change (js ",") with [44] at 1. rewrite <- !app_assoc.
    rewrite <- app_comm_cons, app_nil_l.
    cbn [read_elements]. rewrite Hv. cbn [skip_ws].
    change (is_json_ws 44) with false. cbv iota. change (44 =? 44) with true. cbv iota.
    rewrite IH; [reflexivity | discriminate | simpl in Hlen |- *; lia | exact Hr].
Qed.

Lemma join_length sep (ts : list jsstring) :
  Forall (fun t => (1 <= length t)%nat) ts -> (length ts <= length (join sep ts))%nat.
Proof.
  induction 1 as [|t r Ht Hr IH]; [reflexivity|].
  destruct r as [|t2 r2]; [simpl in *; lia|].
  change (join sep (t :: t2 :: r2)) with (t ++ sep ++ join sep (t2 :: r2)).
  rewrite !length_app. simpl in IH |- *. lia.
Qed.

(** The round trip of the history text. *)
Lemma JSON_parse_history t (ps : list (jsstring * jsstring)) :
  JSON_parse (JSON_stringify (JArr (List.map (written t) ps)))
  = Some (JArr (List.map (read_back t) ps)).
Proof.
  unfold JSON_parse, JSON_stringify. cbn [JSON_text].
  change (js "[") with [91]. change (js "]") with [93].
  destruct ps as [|p ps]; [reflexivity|].
  rewrite List.map_map.
  set (texts := List.map (fun q => JSON_text (written t q)) (p :: ps)).
  assert (Hstart : exists b, join (js ",") texts = 123 :: b).
  { subst texts. cbn [List.map]. destruct ps as [|p2 ps].
    - cbn [List.map join]. rewrite <- (app_nil_r (JSON_text _)), written_text. eauto.
    - cbn [List.map].
      match goal with
      | |- exists b, join (js ",") (?x :: ?y :: ?l) = _ =>
          change (join (js ",") (x :: y :: l)) with (x ++ js "," ++ join (js ",") (y :: l))
      end.
      rewrite written_text. eauto. }
  assert (Hread : forall f rest,
             read_elements (read_value (S (S f))) (length (join (js ",") texts ++ 93 :: rest))
               (join (js ",") texts ++ 93 :: rest)
             = Some (List.map (read_back t) (p :: ps), rest)).
  { intros f rest.
    pose proof (read_elements_join (read_value (S (S f)))
                  (length (join (js ",") texts ++ 93 :: rest))
                  (List.map (fun q => (JSON_text (written t q), read_back t q)) (p :: ps))
                  rest) as H.
    rewrite !List.map_map in H. cbn [fst snd] in H.
    apply H.
    - discriminate.
    - rewrite length_map, length_app.
      pose proof (join_length (js ",") texts) as Hl.
      subst texts. rewrite length_map in Hl.
      assert (Hne : Forall (fun x : jsstring => (1 <= length x)%nat)
                      (List.map (fun x => JSON_text (written t x)) (p :: ps))).
      { apply List.Forall_forall. intros x Hx. apply in_map_iff in Hx as [q [<- _]].
        rewrite <- (app_nil_r (JSON_text _)), written_text. simpl. lia. }
      specialize (Hl Hne). lia.
    - apply List.Forall_forall. intros tv Htv. apply in_map_iff in Htv as [q [<- _]].
      intros r. apply read_value_written. }
  destruct Hstart as [b Hb].
  specialize (Hread (length (b ++ [93])) []). clearbody texts. rewrite Hb in Hread |- *.
  rewrite <- !app_comm_cons in Hread |- *. rewrite app_nil_l.
  change ((123 :: b) ++ [93]) with (123 :: (b ++ [93])).
  cbn [length] in Hread |- *. rewrite read_value_array. cbn [length].
  rewrite Hread. reflexivity.
Qed.

(** ** Message elements *)

Lemma querySelectorAll_app cls a b :
  querySelectorAll cls (a ++ b) = querySelectorAll cls a ++ querySelectorAll cls b.
Proof.
  unfold querySelectorAll, descendants_of.
  rewrite flat_map_app, List.filter_app. reflexivity.
Qed.

Lemma querySelectorAll_cons cls n r :
  querySelectorAll cls (n :: r)
  = List.filter (classList_contains cls) (n :: descendants n) ++ querySelectorAll cls r.
Proof.
  unfold querySelectorAll, descendants_of. cbn [flat_map].
  rewrite List.filter_app. reflexivity.
Qed.

Lemma querySelectorAll_tidy ns :
  Forall tidy ns -> querySelectorAll (js "message") ns = ns.
Proof.
  induction 1 as [|n r [Hn _] _ IH]; [reflexivity|].
  rewrite querySelectorAll_cons, Hn, IH. reflexivity.
Qed.

Lemma shown_sender n p :
  shown n = Some p -> fst p = js "user" \/ fst p = js "bot".
Proof.
  unfold shown. destruct (querySelector (js "message-bubble") n); [|discriminate].
  intros [= <-]. simpl. destruct (classList_contains (js "user") n); auto.
Qed.

Lemma message_node_tidy p :
  fst p = js "user" \/ fst p = js "bot" ->
  tidy (message_node p) /\ shown (message_node p) = Some p.
Proof.
  destruct p as [s c]. simpl. intros [->| ->]; destruct c as [|x c];
    (split; [split; [reflexivity | eexists; reflexivity]|]);
    unfold shown; simpl; rewrite ?app_nil_r; reflexivity.
Qed.

Lemma build_message_plain s c :
  build_message (JStr c) (JStr s) (JObj []) = Normal (message_node (s, c)).
Proof.
  unfold build_message, metadata_block. cbn [ToString to_text cbind get].
  cbn [own_property fold_left default from_option id truthy].
  destruct (is_string (js "bot") (JStr s)); cbn [cbind];
    unfold message_node; rewrite app_nil_r; reflexivity.
Qed.

(** ** Saving what is displayed *)

Lemma entry_of_shown t n :
  entry_of t n = match shown n with
                 | Some p => Normal (written t p)
                 | None => Throw (EngineError TypeError)
                 end.
Proof.
  unfold entry_of, shown.
  destruct (querySelector (js "message-bubble") n); reflexivity.
Qed.

Lemma map_completion_shown t ns ps :
  List.map shown ns = List.map Some ps ->
  map_completion (entry_of t) ns = Normal (List.map (written t) ps).
Proof.
  revert ps. induction ns as [|n r IH]; intros [|p ps] H; try discriminate; [reflexivity|].
  cbn [List.map] in H. injection H as Hn Hr.
  cbn [map_completion List.map]. rewrite entry_of_shown, Hn. cbn [cbind].
  rewrite (IH ps Hr). reflexivity.
Qed.

Lemma save_text_displayed w ps :
  displayed w = List.map Some ps ->
  save_text w = Normal (JSON_stringify (JArr (List.map (written (now (env w))) ps))).
Proof.
  intros H. unfold save_text. unfold displayed in H.
  rewrite (map_completion_shown _ _ ps H). reflexivity.
Qed.

Lemma saved_storage w text :
  save_text w = Normal text ->
  localStorage (env (saved w))
  = <[history_key (sessionId (app w)) := text]> (localStorage (env w)).
Proof. intros H. unfold saved. rewrite H. reflexivity. Qed.

(** ** Restoring what was saved *)

Lemma restore_message_read_back t p w :
  fst p = js "user" \/ fst p = js "bot" ->
  restore_message (read_back t p) w = (Normal tt, saved (appended (message_node p) w)).
Proof.
  intros Hs. rewrite restore_message_eq. destruct p as [s c]. simpl in Hs.
  unfold read_back. cbn [fst snd get own_property fold_left].
  change (jseqb (js "sender") (js "sender")) with true.
  change (jseqb (js "content") (js "sender")) with false.
  change (jseqb (js "timestamp") (js "sender")) with false.
  change (jseqb (js "sender") (js "content")) with false.
  change (jseqb (js "content") (js "content")) with true.
  change (jseqb (js "timestamp") (js "content")) with false.
  cbv iota. cbn [default from_option id].
  assert (Hw : is_string (js "welcome") (JStr s) = false)
    by (destruct Hs as [->| ->]; reflexivity).
  rewrite Hw. cbn [negb]. rewrite build_message_plain. reflexivity.
Qed.

Lemma forEach_restore_read_back t ps w :
  Forall (fun p => fst p = js "user" \/ fst p = js "bot") ps ->
  exists w',
    forEach (List.map (read_back t) ps) restore_message w = (Normal tt, w')
    /\ app w' = app w
    /\ chat_children (page w') = chat_children (page w) ++ List.map message_node ps.
Proof.
  intros Hps. revert w. induction Hps as [|p r Hp _ IH]; intros w.
  - exists w. rewrite app_nil_r. repeat split.
  - destruct (IH (saved (appended (message_node p) w))) as (w' & Hrun & Happ & Hch).
    exists w'. cbn [List.map forEach]. unfold bind.
    rewrite (restore_message_read_back t p w Hp), Hrun.
    split; [reflexivity|]. split.
    + rewrite Happ, saved_app. reflexivity.
    + rewrite Hch, saved_page. simpl. rewrite <- app_assoc. reflexivity.
Qed.


(** ** A sequence of [addMessage] calls *)

Lemma add_call_eq w c :
  add_call w c
  = match build_message (call_content c) (JStr (call_sender c))
            (default_metadata (call_metadata c)) with
    | Normal n => saved (appended n w)
    | Throw _ => w
    end.
Proof.
  unfold add_call, exec. rewrite addMessage_eq.
  destruct (build_message _ _ _); reflexivity.
Qed.

Lemma descendants_of_app a b :
  descendants_of (a ++ b) = descendants_of a ++ descendants_of b.
Proof. unfold descendants_of. apply flat_map_app. Qed.

Lemma build_message_tidy c n :
  call_ok c ->
  build_message (call_content c) (JStr (call_sender c))
    (default_metadata (call_metadata c)) = Normal n ->
  tidy n.
Proof.
  intros [Hs Hquiet]. unfold build_message. cbn [ToString cbind].
  destruct (to_text (call_content c)) as [t|e]; [|discriminate]. cbn [cbind].
  destruct (metadata_block (JStr (call_sender c)) (default_metadata (call_metadata c)))
    as [meta|e] eqn:Hm; [|discriminate].
  cbn [cbind]. intros [= <-]. specialize (Hquiet meta eq_refl).
  unfold querySelectorAll in Hquiet.
  set (texts := match t with [] => [] | _ :: _ => [Text t] end).
  assert (Htexts : List.filter (classList_contains (js "message")) (descendants_of texts) = [])
    by (subst texts; destruct t; reflexivity).
  split.
  - destruct Hs as [-> | ->].
    + transitivity
         (Elem (js "div") (js "message " ++ js "user")
            [Elem (js "div") (js "user" ++ js "-avatar") (avatar_icon (JStr (js "user")));
             Elem (js "div") (js "message-bubble") (texts ++ meta)]
          :: List.filter (classList_contains (js "message"))
               (descendants_of (texts ++ meta) ++ []));
       [reflexivity|].
      rewrite app_nil_r, descendants_of_app, List.filter_app, Htexts, Hquiet. reflexivity.
    + transitivity
         (Elem (js "div") (js "message " ++ js "bot")
            [Elem (js "div") (js "bot" ++ js "-avatar") (avatar_icon (JStr (js "bot")));
             Elem (js "div") (js "message-bubble") (texts ++ meta)]
          :: List.filter (classList_contains (js "message"))
               (descendants_of (texts ++ meta) ++ []));
       [reflexivity|].
      rewrite app_nil_r, descendants_of_app, List.filter_app, Htexts, Hquiet. reflexivity.
  - destruct Hs as [-> | ->]; eexists; reflexivity.
Qed.

Lemma add_calls_children calls w0 :
  Forall call_ok calls ->
  exists ns,
    chat_children (page (fold_left add_call calls w0)) = chat_children (page w0) ++ ns
    /\ Forall tidy ns.
Proof.
  intros Hok. revert w0. induction Hok as [|c r Hc _ IH]; intros w0.
  - exists []. rewrite app_nil_r. split; [reflexivity | constructor].
  - cbn [fold_left]. rewrite add_call_eq.
    destruct (build_message _ _ _) as [n|e] eqn:Hb.
    + destruct (IH (saved (appended n w0))) as (ns & Hch & Ht).
      exists (n :: ns). split.
      * rewrite Hch, saved_page. simpl. rewrite <- app_assoc. reflexivity.
      * constructor; [exact (build_message_tidy c n Hc Hb) | exact Ht].
    + apply IH.
Qed.





End Proofs.

(** * The properties on a concrete run *)

(** What two calls leave on the page: the bot's bubble holds the reply
    followed by the intent line, and that whole text is the content. *)
Example displayed_sample :
  displayed (fold_left (@add_call sample_host) sample_calls sample_world)
  = [Some (js "user", js "remind me to call Bob");
     Some (js "bot",
           js "Reminder set." ++ line 16 []
           ++ line 20 (js "Intent: task_create (95% confidence)")
           ++ line 16 [] ++ line 12 [])].
Proof. vm_compute. reflexivity. Qed.



(** C2 as stated fails on the code: after a message is added the store
    has nothing under [history:<sessionId>] (the slot is under
    [chat_history_<sessionId>]), and after a confirmed clear the session
    has no slot at all. *)
Lemma history_slot_key_counterexample :
  let w := @add_call sample_host sample_world
             {| call_content := JStr (js "hi"); call_sender := js "user";
                call_metadata := JObj [] |} in
  localStorage (env w) !! (js "history:" ++ sessionId (app w)) = None
  /\ is_Some (localStorage (env w) !! (js "chat_history_" ++ sessionId (app w)))
  /\ localStorage (env (exec (@clearChat sample_host true) w))
     !! (js "chat_history_" ++ sessionId (app w)) = None
  /\ localStorage (env (exec (@clearChat sample_host true) w))
     !! (js "history:" ++ sessionId (app w)) = None.
Proof.
  vm_compute. split; [reflexivity|]. split; [eexists; reflexivity|].
  split; reflexivity.
Qed.

Lemma history_slot_is_per_session_witness :
  js "other" <> history_key (sessionId (app sample_world))
  /\ localStorage (env (exec (@saveChatHistory sample_host) sample_world)) !! js "other"
     = localStorage (env sample_world) !! js "other".
Proof.
  assert (H : js "other" <> history_key (sessionId (app sample_world))) by discriminate.
  split; [exact H|].
  exact (proj1 (proj1 (proj2 (proj2 (@history_slot_is_per_session sample_host)))
                  sample_world (js "other") H)).
Defined.

Lemma sendMessage_blank_input_rejected_witness :
  forallb is_js_space (input_value (page (typed [32; 9; 160; 32] sample_world))) = true
  /\ emitted (env (exec (@sendMessage sample_host) (typed [32; 9; 160; 32] sample_world)))
     = emitted (env (typed [32; 9; 160; 32] sample_world)).
Proof.
  split; [reflexivity|].
  exact (proj1 (proj2 (@sendMessage_blank_input_rejected sample_host
                         (typed [32; 9; 160; 32] sample_world) eq_refl))).
Defined.

Lemma sendMessage_disconnected_rejected_witness :
  trim (input_value (page (typed (js "hello") sample_world))) <> []
  /\ isConnected (app (typed (js "hello") sample_world)) = false
  /\ emitted (env (@run sample_host
                     (exec (@sendMessage sample_host) (typed (js "hello") sample_world))
                     [SocketConnect; TimerFires 0; Online]))
     = emitted (env (typed (js "hello") sample_world)).
Proof.
  assert (H : trim (input_value (page (typed (js "hello") sample_world))) <> [])
    by discriminate.
  split; [exact H|]. split; [reflexivity|].
  exact (proj2 (proj2 (proj2 (proj2 (proj2
           (@sendMessage_disconnected_rejected sample_host
              (typed (js "hello") sample_world) [SocketConnect; TimerFires 0; Online]
              H eq_refl eq_refl)))))).
Defined.

Lemma loadChatHistory_absent_or_malformed_witness :
  (exists h, localStorage (env (stored (js "{oops") sample_world))
             !! history_key (sessionId (app (stored (js "{oops") sample_world))) = Some h
             /\ JSON_parse h = None)
  /\ fst (@loadChatHistory sample_host (stored (js "{oops") sample_world)) = Normal tt
  /\ page (exec (@loadChatHistory sample_host) (stored (js "{oops") sample_world))
     = page sample_world
  /\ console (env (exec (@loadChatHistory sample_host) (stored (js "{oops") sample_world)))
     = [{| level := LogError; text := js "Failed to load chat history:";
           thrown := Some (EngineError SyntaxError) |}].
Proof.
  assert (H : exists h, localStorage (env (stored (js "{oops") sample_world))
                        !! history_key (sessionId (app (stored (js "{oops") sample_world)))
                        = Some h /\ JSON_parse h = None).
  { exists (js "{oops"). split; [apply lookup_insert_eq | reflexivity]. }
  split; [exact H|].
  pose proof (@loadChatHistory_absent_or_malformed sample_host
                (stored (js "{oops") sample_world) (or_intror H))
    as (Hr & _ & Hp & _ & _ & _ & _ & Hc).
  split; [exact Hr|]. split; [exact Hp|].
  rewrite Hc. reflexivity.
Defined.

Lemma clearChat_then_load_empty_witness :
  sessionId (app sample_world)
  = sessionId (app (fold_left (@add_call sample_host) sample_calls sample_world))
  /\ @loadChatHistory sample_host
       {| app := app sample_world; page := page sample_world;
          env := env (exec (@clearChat sample_host true)
                        (fold_left (@add_call sample_host) sample_calls sample_world)) |}
     = (Normal tt,
        {| app := app sample_world; page := page sample_world;
           env := env (exec (@clearChat sample_host true)
                         (fold_left (@add_call sample_host) sample_calls sample_world)) |}).
Proof.
  split; [reflexivity|].
  exact (proj2 (proj2 (proj2 (proj2
           (@clearChat_then_load_empty sample_host
              (fold_left (@add_call sample_host) sample_calls sample_world)))))
           {| app := app sample_world; page := page sample_world;
              env := env (exec (@clearChat sample_host true)
                            (fold_left (@add_call sample_host) sample_calls sample_world)) |}
           eq_refl eq_refl).
Defined.


Lemma reconnect_only_on_visible_or_online_witness :
  forallb (fun ev => negb (reconnect_trigger ev))
    [SocketDisconnect; VisibilityChange true; Offline; SocketConnectError (EngineError HostError)]
  = true
  /\ io_calls (env (@run sample_host sample_online
                      [SocketDisconnect; VisibilityChange true; Offline;
                       SocketConnectError (EngineError HostError)]))
     = io_calls (env sample_online).
Proof.
  split; [reflexivity|].
  exact (proj1 (proj2 (@reconnect_only_on_visible_or_online sample_host))
           sample_online
           [SocketDisconnect; VisibilityChange true; Offline;
            SocketConnectError (EngineError HostError)] eq_refl).
Defined.

Lemma sendMessage_rejection_frame_witness :
  (trim (input_value (page (typed (js "hello") sample_world))) = []
   \/ isConnected (app (typed (js "hello") sample_world)) = false)
  /\ input_value (page (exec (@sendMessage sample_host) (typed (js "hello") sample_world)))
     = js "hello".
Proof.
  assert (H : trim (input_value (page (typed (js "hello") sample_world))) = []
              \/ isConnected (app (typed (js "hello") sample_world)) = false)
    by (right; reflexivity).
  split; [exact H|].
  exact (proj1 (proj2 (proj1 (@sendMessage_rejection_frame sample_host
                                (typed (js "hello") sample_world)) H))).
Defined.

Lemma typing_indicator_witness :
  (isTyping (app sample_world) = true <-> indicator_shown sample_world)
  /\ (isTyping (app (fold_left (@typing_step sample_host)
                       [CallShow; CallShow; CallHide; CallShow] sample_world)) = true
      <-> indicator_shown (fold_left (@typing_step sample_host)
                             [CallShow; CallShow; CallHide; CallShow] sample_world)).
Proof.
  assert (H : isTyping (app sample_world) = true <-> indicator_shown sample_world)
    by (split; discriminate).
  split; [exact H|].
  exact (proj2 (proj2 (@typing_indicator_idempotent_consistent sample_host))
           sample_world [CallShow; CallShow; CallHide; CallShow] H).
Defined.

(** ** The model on a session from page load to reply *)

Example page_load_opens_one_socket :
  sessionId (app sample_loaded) = js "session_k2j3h4g5f_1700000000000"
  /\ socket (app sample_loaded) = Some 0%nat
  /\ io_calls (env sample_loaded) = 1%nat
  /\ isConnected (app sample_loaded) = false.
Proof. vm_compute. repeat split. Qed.

Example send_when_connected :
  let w := @step sample_host (typed (js " hello ") sample_online) ClickSend in
  emitted (env w)
  = [(0%nat, js "message",
      JObj [(js "message", JStr (js "hello"));
            (js "session_id", JStr (js "session_k2j3h4g5f_1700000000000"));
            (js "user_id", JNum (Int 1))])]
  /\ input_value (page w) = []
  /\ send_disabled (page w) = true
  /\ displayed w = [Some (js "user", js "hello")].
Proof. vm_compute. repeat split. Qed.

Example reply_is_displayed_with_its_intent :
  let w := @run sample_host (typed (js "hello") sample_online)
             [ClickSend; SocketTyping (JObj [(js "typing", JBool true)]);
              SocketMessage sample_reply] in
  displayed w
  = [Some (js "user", js "hello");
     Some (js "bot",
           js "Hi!" ++ line 16 [] ++ line 20 (js "Intent: greeting (90% confidence)")
           ++ line 16 [] ++ line 12 [])]
  /\ send_disabled (page w) = false
  /\ isTyping (app w) = false.
Proof. vm_compute. repeat split. Qed.

Example load_of_a_value_that_is_not_an_array :
  let w := exec (@loadChatHistory sample_host) (stored (js "{}") sample_world) in
  displayed w = []
  /\ console (env w) = [load_failure (EngineError TypeError)].
Proof. vm_compute. repeat split. Qed.

Example load_stops_at_a_null_entry :
  let w := exec (@loadChatHistory sample_host)
             (stored (js "[{" ++ dq ++ js "sender" ++ dq ++ js ":" ++ dq ++ js "user" ++ dq
                      ++ js "},null,{}]") sample_world) in
  displayed w = [Some (js "user", [])]
  /\ console (env w) = [load_failure (EngineError TypeError)].
Proof. vm_compute. repeat split. Qed.

Example entries_put_index_keys_first :
  JSON_parse (js "{" ++ dq ++ js "b" ++ dq ++ js ":1," ++ dq ++ js "2" ++ dq ++ js ":2,"
              ++ dq ++ js "1" ++ dq ++ js ":3," ++ dq ++ js "b" ++ dq ++ js ":4}")
  = Some (JObj [(js "1", JNum (Int 3)); (js "2", JNum (Int 2)); (js "b", JNum (Int 4))]).
Proof. vm_compute. reflexivity. Qed.

Example quoting_escapes :
  QuoteJSONString [97; 34; 10; 55357; 56481; 55357; 1]
  = dq ++ js "a" ++ [92] ++ dq ++ [92] ++ js "n" ++ [55357; 56481]
    ++ [92] ++ js "ud83d" ++ [92] ++ js "u0001" ++ dq.
Proof. vm_compute. reflexivity. Qed.

Example reconnects_in_a_run :
  io_calls (env (@run sample_host sample_online
                   [SocketDisconnect; VisibilityChange true; Offline; TimerFires 0;
                    Online; Online; SocketConnect; VisibilityChange false]))
  = 3%nat.
Proof. vm_compute. reflexivity. Qed.

(** * Further properties of the widget *)

Section More.
Context {host : Host}.

(** ** Invariants of computations *)

Lemma keeps_ret {A} I (a : A) : keeps I (ret a).
Proof. intros w H. exact H. Qed.

Lemma keeps_throw {A} I e : keeps I (@throw A e).
Proof. intros w H. exact H. Qed.

Lemma keeps_lift {A} I (c : completion A) : keeps I (lift c).
Proof. intros w H. exact H. Qed.

Lemma keeps_read {A} I (g : World -> A) : keeps I (read g).
Proof. intros w H. exact H. Qed.

Lemma keeps_update I (g : World -> World) :
  (forall w, I w -> I (g w)) -> keeps I (update g).
Proof. intros H w Hw. apply H, Hw. Qed.

Lemma keeps_bind {A B} I (m : M A) (k : A -> M B) :
  keeps I m -> (forall a, keeps I (k a)) -> keeps I (bind m k).
Proof.
  intros Hm Hk w Hw. unfold bind. specialize (Hm w Hw).
  destruct (m w) as [[a|e] w']; simpl in *; [apply Hk, Hm | exact Hm].
Qed.

Lemma keeps_try_catch I (body : M unit) (h : exn -> M unit) :
  keeps I body -> (forall e, keeps I (h e)) -> keeps I (try_catch body h).
Proof.
  intros Hb Hh w Hw. unfold try_catch. specialize (Hb w Hw).
  destruct (body w) as [[[]|e] w']; simpl in *; [exact Hb | apply Hh, Hb].
Qed.

Lemma keeps_forEach {A} I (l : list A) (g : A -> M unit) :
  (forall a, keeps I (g a)) -> keeps I (forEach l g).
Proof.
  intros Hg. induction l as [|x r IH]; simpl; [apply keeps_ret|].
  apply keeps_bind; [apply Hg | intros _; exact IH].
Qed.

Lemma keeps_step I :
  (forall ev, keeps I (listener ev)) -> forall w ev, I w -> I (step w ev).
Proof. intros H w ev Hw. apply H, Hw. Qed.

Lemma keeps_run I :
  (forall ev, keeps I (listener ev)) -> forall evs w, I w -> I (run w evs).
Proof.
  intros H evs. induction evs as [|ev r IH]; intros w Hw; simpl; [exact Hw|].
  apply IH, H, Hw.
Qed.

(** Walk down a computation; [known] closes the calls whose invariance is
    a lemma, [side] the state updates. *)
Ltac walk known side :=
  repeat first
    [ apply keeps_ret | apply keeps_throw | apply keeps_lift | apply keeps_read
    | known
    | apply keeps_update; intros ? ?; side
    | apply keeps_bind; [|intros ?]
    | apply keeps_try_catch; [|intros ?]
    | apply keeps_forEach; intros ?
    | match goal with
      | |- keeps _ (match ?x with _ => _ end) => destruct x
      end ].

Lemma saveChatHistory_keeps I :
  (forall w, I w -> I (saved w)) -> keeps I saveChatHistory.
Proof. intros H w Hw. rewrite saveChatHistory_eq. apply H, Hw. Qed.

(** The methods a listener is made of, down to [saveChatHistory],
    [clearChat] and the typing indicator, which have lemmas of their own. *)
Create HintDb outer.
#[local] Hint Unfold listener run_callback sendMessage handleBotResponse addMessage
  showError showSuccess showToast hideToast scrollToBottom
  updateConnectionStatus initializeSocket renderAnalytics hideAnalytics
  showAnalytics_start showAnalytics_resume focus_input socket_emit assign
  console_log console_error setTimeout : outer.

(** ** The socket, once opened, stays *)

Lemma listener_keeps_socket ev :
  keeps (fun w => socket (app w) <> None) (listener ev).
Proof.
  destruct ev; autounfold with outer; unfold clearChat, showTypingIndicator,
    hideTypingIndicator, localStorage_removeItem, showSuccess, showToast, assign, setTimeout;
    walk ltac:(apply saveChatHistory_keeps; intros ? ?; rewrite saved_app; assumption)
         ltac:(first [assumption | discriminate]).
Qed.

(** ** Trimming *)

Lemma trimStart_split s :
  exists sp, s = sp ++ trimStart s.
Proof.
  induction s as [|c r [sp IH]]; [exists []; reflexivity|]. simpl.
  destruct (is_js_space c); [exists (c :: sp); simpl; f_equal; exact IH | exists []; reflexivity].
Qed.

Lemma trimStart_head s : starts_black (trimStart s).
Proof.
  induction s as [|c r IH]; simpl; [exact I|].
  destruct (is_js_space c) eqn:Hc; [exact IH | exact Hc].
Qed.

Lemma trimStart_id s : starts_black s -> trimStart s = s.
Proof. destruct s as [|c r]; simpl; [reflexivity|]. intros ->. reflexivity. Qed.

Lemma trim_idempotent s : trim (trim s) = trim s.
Proof.
  unfold trim at 2 3.
  pose proof (trimStart_head s) as Ht.
  pose proof (trimStart_head (rev (trimStart s))) as Hu.
  destruct (trimStart_split (rev (trimStart s))) as [sp Hsp].
  set (t := trimStart s) in *. set (u := trimStart (rev t)) in *.
  assert (Hr : starts_black (rev u)).
  { apply (f_equal (@rev N)) in Hsp. rewrite rev_involutive, rev_app_distr in Hsp.
    destruct (rev u) as [|c r]; [exact I|].
    rewrite Hsp in Ht. exact Ht. }
  unfold trim. rewrite (trimStart_id _ Hr), rev_involutive, (trimStart_id _ Hu). reflexivity.
Qed.

(** ** An accepted message *)

Lemma sendMessage_accepted_eq w k :
  trim (input_value (page w)) <> [] ->
  isConnected (app w) = true ->
  socket (app w) = Some k ->
  sendMessage w = (Normal tt, sent (trim (input_value (page w))) k w).
Proof.
  intros Hm Hc Hs. unfold sendMessage, sent.
  rewrite bind_read.
  destruct (trim (input_value (page w))) as [|c r] eqn:Ht; [contradiction|].
  rewrite bind_read, Hc. change (negb true) with false. cbv iota.
  rewrite bind_update.
  unfold bind at 1. rewrite addMessage_eq.
  change (default_metadata JUndefined) with (JObj []).
  rewrite build_message_plain. cbv beta iota zeta.
  rewrite !bind_read. unfold socket_emit, setTimeout, bind, read, update.
  cbv beta iota zeta. rewrite saved_app. cbn [app appended with_env with_page].
  rewrite Hs. reflexivity.
Qed.

Lemma sendMessage_no_socket w :
  trim (input_value (page w)) <> [] ->
  isConnected (app w) = true ->
  socket (app w) = None ->
  sendMessage w
  = (Throw (EngineError TypeError),
     saved (appended (message_node (js "user", trim (input_value (page w))))
              (with_page (set_input_value []) w))).
Proof.
  intros Hm Hc Hs. unfold sendMessage.
  rewrite bind_read.
  destruct (trim (input_value (page w))) as [|c r] eqn:Ht; [contradiction|].
  rewrite bind_read, Hc. change (negb true) with false. cbv iota.
  rewrite bind_update.
  unfold bind at 1. rewrite addMessage_eq.
  change (default_metadata JUndefined) with (JObj []).
  rewrite build_message_plain. cbv beta iota zeta.
  rewrite !bind_read. unfold socket_emit, setTimeout, bind, read, update.
  cbv beta iota zeta. rewrite saved_app. cbn [app appended with_env with_page].
  rewrite Hs. reflexivity.
Qed.

Lemma displayed_appended (p : jsstring * jsstring) w :
  fst p = js "user" \/ fst p = js "bot" ->
  displayed (saved (appended (message_node p) w)) = displayed w ++ [Some p].
Proof.
  intros Hp. unfold displayed. rewrite saved_page. simpl.
  rewrite querySelectorAll_app, List.map_app.
  destruct (message_node_tidy p Hp) as [Ht Hs].
  rewrite (querySelectorAll_tidy [message_node p]) by (constructor; [exact Ht | constructor]).
  simpl. rewrite Hs. reflexivity.
Qed.

Lemma lookup_second_after {A} (l : list A) (a b : A) :
  (l ++ [a; b]) !! S (length l) = Some b.
Proof. induction l as [|x l IH]; [reflexivity | exact IH]. Qed.

(** X1. When the trimmed input is not empty, the instance is connected
    and a socket is open, [sendMessage] returns and has emitted exactly
    one [message] event on that socket, carrying the trimmed text, the
    session id and the user id; the user's message is the last one
    displayed, the input field is empty, the send button is disabled and
    the two timers (scroll, re-enable) are pending; when the second one
    fires the button is enabled again. *)
Theorem sendMessage_accepted (w : World) (k : nat) :
  trim (input_value (page w)) <> [] ->
  isConnected (app w) = true ->
  socket (app w) = Some k ->
  let m := trim (input_value (page w)) in
  let w' := exec sendMessage w in
  fst (sendMessage w) = Normal tt
  /\ emitted (env w') = emitted (env w) ++ [(k, js "message", message_payload m w)]
  /\ displayed w' = displayed w ++ [Some (js "user", m)]
  /\ input_value (page w') = []
  /\ send_disabled (page w') = true
  /\ timers (env w') = timers (env w) ++ [(100, ScrollToBottom); (2000, EnableSendButton)]
  /\ app w' = app w
  /\ send_disabled (page (step w' (TimerFires (S (length (timers (env w))))))) = false.
Proof.
  intros Hm Hc Hs m w'. subst w'. unfold exec.
  rewrite (sendMessage_accepted_eq w k Hm Hc Hs). fold m. cbn [fst snd].
  assert (Hd : displayed (sent m k w) = displayed w ++ [Some (js "user", m)]).
  { unfold sent.
    change (displayed ?x)
      with (List.map shown (querySelectorAll (js "message") (chat_children (page x)))).
    cbn [page with_env with_page chat_children set_send_disabled].
    apply (displayed_appended (js "user", m)). left. reflexivity. }
  assert (Ht : timers (env (sent m k w))
               = timers (env w) ++ [(100, ScrollToBottom); (2000, EnableSendButton)]).
  { unfold sent. cbn [env with_env with_page timers set_timers set_emitted].
    unfold saved. destruct (save_text _); cbn; rewrite <- app_assoc; reflexivity. }
  split; [reflexivity|]. split.
  { unfold sent. cbn [env with_env with_page emitted set_timers set_emitted].
    f_equal. unfold saved. destruct (save_text _); reflexivity. }
  split; [exact Hd|]. split.
  { unfold sent. cbn [page with_env with_page input_value set_send_disabled].
    rewrite saved_page. reflexivity. }
  split; [unfold sent; reflexivity|].
  split; [exact Ht|].
  split; [unfold sent; cbn [app with_env with_page]; rewrite saved_app; reflexivity|].
  unfold step, exec. simpl listener. rewrite bind_read, Ht, lookup_second_after.
  rewrite bind_update. reflexivity.
Qed.

Lemma sendMessage_with_socket w :
  socket (app w) <> None -> fst (sendMessage w) = Normal tt.
Proof.
  intros Hs.
  destruct (trim (input_value (page w))) as [|c r] eqn:Ht.
  { rewrite (sendMessage_blank w Ht). reflexivity. }
  assert (Hm : trim (input_value (page w)) <> []) by (rewrite Ht; discriminate).
  destruct (isConnected (app w)) eqn:Hc.
  - destruct (socket (app w)) as [k|] eqn:Hk; [|contradiction].
    rewrite (sendMessage_accepted_eq w k Hm Hc Hk). reflexivity.
  - rewrite (sendMessage_offline w Hm Hc). reflexivity.
Qed.

(** X2. No listener sets [this.socket] back to [null]: once a socket has
    been opened it stays through every sequence of events, and
    [sendMessage] then never throws. *)
Theorem sendMessage_returns_once_socket_opened (w : World) (evs : list event) :
  socket (app w) <> None ->
  socket (app (run w evs)) <> None
  /\ fst (sendMessage (run w evs)) = Normal tt.
Proof.
  intros Hs.
  assert (H : socket (app (run w evs)) <> None).
  { apply (keeps_run (fun w => socket (app w) <> None) listener_keeps_socket), Hs. }
  split; [exact H | apply sendMessage_with_socket, H].
Qed.

Lemma sendMessage_emitted w :
  emitted (env (exec sendMessage w)) = emitted (env w)
  \/ (isConnected (app w) = true
      /\ trim (input_value (page w)) <> []
      /\ exists k, socket (app w) = Some k
         /\ emitted (env (exec sendMessage w))
            = emitted (env w)
              ++ [(k, js "message", message_payload (trim (input_value (page w))) w)]).
Proof.
  unfold exec.
  destruct (trim (input_value (page w))) as [|c r] eqn:Ht.
  { left. rewrite (sendMessage_blank w Ht). reflexivity. }
  assert (Hm : trim (input_value (page w)) <> []) by (rewrite Ht; discriminate).
  destruct (isConnected (app w)) eqn:Hc.
  - destruct (socket (app w)) as [k|] eqn:Hk.
    + right. split; [reflexivity|]. split; [discriminate|]. exists k. split; [reflexivity|].
      rewrite (sendMessage_accepted_eq w k Hm Hc Hk), Ht. unfold sent.
      cbn [snd env with_env with_page emitted set_timers set_emitted]. f_equal.
      unfold saved. destruct (save_text _); reflexivity.
    + left. rewrite (sendMessage_no_socket w Hm Hc Hk). cbn [snd].
      unfold saved. destruct (save_text _); reflexivity.
  - left. rewrite (sendMessage_offline w Hm Hc). reflexivity.
Qed.

(** X3. One turn of the event loop emits at most one socket event.  When
    it emits one, the turn started with [sendMessage] on a connected
    instance, the event is [message] and its text is not empty and
    trimmed; the session id and user id are the instance's. *)
Theorem step_emits_at_most_one_message (w : World) (ev : event) :
  emitted (env (step w ev)) = emitted (env w)
  \/ (send_trigger ev = true
      /\ isConnected (app w) = true
      /\ exists k m, socket (app w) = Some k /\ m <> [] /\ trim m = m
         /\ emitted (env (step w ev))
            = emitted (env w) ++ [(k, js "message", message_payload m w)]).
Proof.
  destruct (send_trigger ev) eqn:Hev.
  2:{ left. apply (listener_keeps_emitted ev Hev). }
  assert (Hsend : forall w1, app w1 = app w -> emitted (env w1) = emitted (env w) ->
            emitted (env (exec sendMessage w1)) = emitted (env w)
            \/ (true = true /\ isConnected (app w) = true
                /\ exists k m, socket (app w) = Some k /\ m <> [] /\ trim m = m
                   /\ emitted (env (exec sendMessage w1))
                      = emitted (env w) ++ [(k, js "message", message_payload m w)])).
  { intros w1 Ha He. destruct (sendMessage_emitted w1) as [H|(Hc & Hm & k & Hk & H)].
    - left. rewrite H. exact He.
    - right. split; [reflexivity|]. rewrite <- Ha. split; [exact Hc|].
      exists k, (trim (input_value (page w1))).
      split; [exact Hk|]. split; [exact Hm|]. split; [apply trim_idempotent|].
      rewrite H, He. unfold message_payload. rewrite Ha. reflexivity. }
  destruct ev; try discriminate; unfold step; simpl listener.
  - apply Hsend; reflexivity.
  - destruct (jseqb key (js "Enter") && negb shiftKey);
      [apply Hsend; reflexivity | left; reflexivity].
  - unfold exec. rewrite bind_update. apply Hsend; reflexivity.
Qed.

(** ** A reply from the server *)

Lemma hideTypingIndicator_eq w :
  hideTypingIndicator w = (Normal tt, exec hideTypingIndicator w).
Proof.
  unfold exec, hideTypingIndicator. rewrite bind_read.
  destruct (isTyping (app w)); reflexivity.
Qed.

Lemma hideTypingIndicator_frame w :
  chat_children (page (exec hideTypingIndicator w)) = chat_children (page w)
  /\ send_disabled (page (exec hideTypingIndicator w)) = send_disabled (page w)
  /\ env (exec hideTypingIndicator w) = env w
  /\ sessionId (app (exec hideTypingIndicator w)) = sessionId (app w).
Proof.
  unfold exec, hideTypingIndicator. rewrite bind_read.
  destruct (isTyping (app w)); repeat split; reflexivity.
Qed.

Lemma build_message_no_intent r i c e s :
  truthy i = false ->
  build_message (JStr r) (JStr (js "bot"))
    (JObj [(js "intent", i); (js "confidence", c); (js "entities", e); (js "sentiment", s)])
  = Normal (message_node (js "bot", r)).
Proof.
  intros Hi. unfold build_message, metadata_block.
  change (is_string (js "bot") (JStr (js "bot"))) with true. cbv iota.
  change (get _ (js "intent")) with (Normal i).
  unfold cbind, to_text. rewrite Hi. unfold message_node. cbn [fst snd].
  change (ToString (JStr r)) with (Normal r). cbv beta iota.
  rewrite app_nil_r. reflexivity.
Qed.

(** X4. [handleBotResponse] on a payload whose [bot_response] can be
    read always resets the typing flag.  When [bot_response] is falsy
    it returns, enables the send button, adds no message and leaves the
    environment as it was.  When it is a
    non-empty string and [intent] is falsy it returns, enables the send
    button and a bot message with that text is the last one displayed. *)
Theorem handleBotResponse_reply (w : World) (data v : jsval) :
  get data (js "bot_response") = Normal v ->
  let w' := exec (handleBotResponse data) w in
  isTyping (app w') = false
  /\ (truthy v = false ->
      fst (handleBotResponse data w) = Normal tt
      /\ send_disabled (page w') = false
      /\ chat_children (page w') = chat_children (page w)
      /\ env w' = env w)
  /\ (forall r i,
        v = JStr r -> r <> [] ->
        get data (js "intent") = Normal i -> truthy i = false ->
        fst (handleBotResponse data w) = Normal tt
        /\ send_disabled (page w') = false
        /\ displayed w' = displayed w ++ [Some (js "bot", r)]).
Proof.
  intros Hv w'. subst w'.
  destruct (hideTypingIndicator_frame w) as (Hch & _ & Henv & _).
  pose proof (hideTypingIndicator_after w) as Hty.
  split.
  { unfold exec, handleBotResponse. unfold bind at 1.
    rewrite hideTypingIndicator_eq. cbv beta iota zeta.
    apply (keeps_bind (fun w => isTyping (app w) = false)); [apply keeps_lift|..|exact Hty].
    intros a. apply keeps_bind; [|intros _; apply keeps_update; intros ? H; exact H].
    destruct (truthy a); [|apply keeps_ret].
    unfold addMessage.
    walk ltac:(apply saveChatHistory_keeps; intros ? ?; rewrite saved_app; assumption)
         ltac:(assumption). }
  split.
  { intros Htr.
    assert (E : handleBotResponse data w
                = (Normal tt, with_page (set_send_disabled false) (exec hideTypingIndicator w))).
    { unfold handleBotResponse. unfold bind at 1.
      rewrite hideTypingIndicator_eq. cbv beta iota zeta.
      unfold bind at 1. unfold lift at 1. rewrite Hv. cbv beta iota zeta.
      rewrite Htr. reflexivity. }
    unfold exec. rewrite E. repeat split; assumption. }
  intros r i -> Hr Hi Htr.
  destruct data as [| |b|n|s|items|ms]; try discriminate Hv.
  assert (E : handleBotResponse (JObj ms) w
              = (Normal tt,
                 with_page (set_send_disabled false)
                   (saved (appended (message_node (js "bot", r)) (exec hideTypingIndicator w))))).
  { unfold handleBotResponse. unfold bind at 1.
    rewrite hideTypingIndicator_eq. cbv beta iota zeta.
    unfold bind at 1. unfold lift at 1. rewrite Hv. cbv beta iota zeta.
    replace (truthy (JStr r)) with true by (destruct r; [contradiction | reflexivity]).
    rewrite Hi.
    change (get (JObj ms) (js "confidence"))
      with (Normal (default JUndefined (own_property (js "confidence") ms))).
    change (get (JObj ms) (js "entities"))
      with (Normal (default JUndefined (own_property (js "entities") ms))).
    change (get (JObj ms) (js "sentiment"))
      with (Normal (default JUndefined (own_property (js "sentiment") ms))).
    unfold bind, lift. cbv beta iota zeta.
    rewrite addMessage_eq.
    change (default_metadata (JObj ?x)) with (JObj x).
    rewrite (build_message_no_intent r i _ _ _ Htr). reflexivity. }
  unfold exec. rewrite E. cbn [fst snd]. split; [reflexivity|]. split; [reflexivity|].
  change (displayed (with_page (set_send_disabled false) ?x)) with (displayed x).
  rewrite (displayed_appended (js "bot", r)) by (right; reflexivity).
  unfold displayed. rewrite Hch. reflexivity.
Qed.

(** X5. A [message] event without payload ([null] or [undefined]): the
    typing indicator is hidden first, then reading [data.bot_response]
    throws a [TypeError]; the send button is left as it was and no
    message is added. *)
Theorem handleBotResponse_without_payload (w : World) (data : jsval) :
  data = JNull \/ data = JUndefined ->
  let w' := exec (handleBotResponse data) w in
  fst (handleBotResponse data w) = Throw (EngineError TypeError)
  /\ isTyping (app w') = false
  /\ send_disabled (page w') = send_disabled (page w)
  /\ chat_children (page w') = chat_children (page w)
  /\ env w' = env w.
Proof.
  intros Hd w'. subst w'.
  assert (E : handleBotResponse data w
              = (Throw (EngineError TypeError), exec hideTypingIndicator w)).
  { unfold handleBotResponse. unfold bind at 1.
    rewrite hideTypingIndicator_eq. cbv beta iota zeta.
    destruct Hd as [-> | ->]; reflexivity. }
  unfold exec. rewrite E. cbn [fst snd].
  destruct (hideTypingIndicator_frame w) as (Hch & Hsd & Henv & _).
  pose proof (hideTypingIndicator_after w) as Hty.
  repeat split; assumption.
Qed.

(** ** The [error] event of the socket *)

Lemma hideTypingIndicator_other_props w k :
  k <> (typingIndicator, style_display) ->
  props (page (exec hideTypingIndicator w)) !! k = props (page w) !! k.
Proof.
  intros Hk. unfold exec, hideTypingIndicator. rewrite bind_read.
  destruct (isTyping (app w)); [|reflexivity].
  simpl. rewrite lookup_insert_ne by congruence. reflexivity.
Qed.

(** X6. The [error] event of the socket.  When [data.message] is falsy
    the error toast shows 'An error occurred'; when it is a non-empty
    string the toast shows that string; in both cases the toast is
    displayed and the typing flag is reset.  Without payload the listener
    throws before doing anything: the state is unchanged. *)
Theorem socket_error_toast (w : World) (data : jsval) :
  let w' := step w (SocketError data) in
  (forall v, get data (js "message") = Normal v ->
     (truthy v = false ->
      prop errorMessage prop_textContent w' = js "An error occurred"
      /\ prop errorToast style_display w' = js "flex"
      /\ isTyping (app w') = false)
     /\ (forall s, v = JStr s -> s <> [] ->
         prop errorMessage prop_textContent w' = s
         /\ prop errorToast style_display w' = js "flex"
         /\ isTyping (app w') = false))
  /\ (data = JNull \/ data = JUndefined ->
      fst (listener (SocketError data) w) = Throw (EngineError TypeError) /\ w' = w).
Proof.
  intros w'. subst w'. split.
  - intros v Hv.
    assert (E : forall m, or_else v (JStr (js "An error occurred")) = JStr m ->
              step w (SocketError data)
              = exec hideTypingIndicator (toast_shown errorToast errorMessage m w)).
    { intros m Hm. unfold step, exec. simpl listener.
      unfold bind at 1, lift at 1. rewrite Hv. cbv beta iota zeta.
      unfold bind at 1. rewrite Hm, showError_string. reflexivity. }
    assert (R : forall m, or_else v (JStr (js "An error occurred")) = JStr m ->
              prop errorMessage prop_textContent (step w (SocketError data)) = m
              /\ prop errorToast style_display (step w (SocketError data)) = js "flex"
              /\ isTyping (app (step w (SocketError data))) = false).
    { intros m Hm. rewrite (E m Hm). split; [|split].
      - unfold prop. rewrite hideTypingIndicator_other_props by discriminate.
        apply prop_toast_shown_text.
      - unfold prop. rewrite hideTypingIndicator_other_props by discriminate.
        apply prop_toast_shown_display.
      - apply hideTypingIndicator_after. }
    split.
    + intros Htr. apply R. unfold or_else. rewrite Htr. reflexivity.
    + intros s -> Hs. apply R. unfold or_else.
      replace (truthy (JStr s)) with true by (destruct s; [contradiction | reflexivity]).
      reflexivity.
  - intros [-> | ->]; split; reflexivity.
Qed.

(** ** Toasts and their timers *)

Lemma lookup_length_app {A} (l : list A) (x : A) (r : list A) :
  (l ++ x :: r) !! length l = Some x.
Proof. induction l as [|y l IH]; [reflexivity | exact IH]. Qed.

Lemma delete_length_app {A} (l : list A) (x : A) (r : list A) :
  delete (length l) (l ++ x :: r) = l ++ r.
Proof. induction l as [|y l IH]; [reflexivity | simpl; f_equal; exact IH]. Qed.

(** X7. Toasts do not cancel each other's timers.  After two calls of
    [showError] the toast is displayed with the second message; when the
    timer of the first call fires, the toast is hidden although the timer
    of the second call is still pending. *)
Theorem stale_timer_hides_next_toast (w : World) (m1 m2 : jsstring) :
  let w1 := exec (showError (JStr m1)) w in
  let w2 := exec (showError (JStr m2)) w1 in
  let w3 := step w2 (TimerFires (length (timers (env w)))) in
  prop errorToast style_display w2 = js "flex"
  /\ prop errorMessage prop_textContent w3 = m2
  /\ prop errorToast style_display w3 = js "none"
  /\ timers (env w3) = timers (env w) ++ [(5000, HideToast errorToast)].
Proof.
  intros w1 w2 w3. subst w1 w2 w3. unfold exec. rewrite !showError_string. cbn [snd].
  split; [apply prop_toast_shown_display|].
  unfold step, exec. simpl listener. rewrite bind_read.
  change (timers (env (toast_shown errorToast errorMessage m2
                         (toast_shown errorToast errorMessage m1 w))))
    with ((timers (env w) ++ [(5000, HideToast errorToast)]) ++ [(5000, HideToast errorToast)]).
  assert (T : forall (l : list (N * callback)) a b, (l ++ [a]) ++ [b] = l ++ a :: [b])
    by (intros; rewrite <- app_assoc; reflexivity).
  rewrite T, lookup_length_app. rewrite bind_update.
  unfold run_callback, hideToast, assign, update. cbn [snd].
  unfold prop. cbn [page env with_env with_page props set_props timers set_timers].
  split; [|split].
  - rewrite lookup_insert_ne by discriminate. apply prop_toast_shown_text.
  - rewrite lookup_insert_eq. reflexivity.
  - unfold toast_shown. cbn [page env with_env with_page props set_props timers set_timers].
    rewrite T. apply delete_length_app.
Qed.

(** ** The two flags and what the page shows *)

Lemma showTypingIndicator_keeps : keeps typing_consistent showTypingIndicator.
Proof. intros w H. exact (typing_step_consistent w CallShow H). Qed.

Lemma hideTypingIndicator_keeps : keeps typing_consistent hideTypingIndicator.
Proof. intros w H. exact (typing_step_consistent w CallHide H). Qed.

Lemma saved_typing_consistent w : typing_consistent w -> typing_consistent (saved w).
Proof.
  unfold typing_consistent, indicator_shown, prop. rewrite saved_app, saved_page. tauto.
Qed.

Ltac other_prop :=
  match goal with
  | H : typing_consistent _ |- typing_consistent _ =>
      unfold typing_consistent, indicator_shown, prop in H |- *; simpl;
      rewrite ?lookup_insert_ne by discriminate; exact H
  | H : status_consistent _ |- status_consistent _ =>
      unfold status_consistent, prop in H |- *; simpl;
      rewrite ?lookup_insert_ne by discriminate; exact H
  | H : indicator_timers _ |- indicator_timers _ =>
      unfold indicator_timers in H |- *; simpl;
      first [ exact H
            | apply Forall_app; split; [exact H | repeat constructor; discriminate]
            | apply Forall_delete; exact H ]
  end.

Lemma saved_timers w : timers (env (saved w)) = timers (env w).
Proof. unfold saved. destruct (save_text w); reflexivity. Qed.

Lemma listener_keeps_indicator_timers ev : keeps indicator_timers (listener ev).
Proof.
  destruct ev; autounfold with outer;
    unfold clearChat, localStorage_removeItem, showSuccess, showToast, assign, setTimeout,
      showTypingIndicator, hideTypingIndicator, scrollToBottom, assign, setTimeout;
    walk ltac:(apply saveChatHistory_keeps; intros ? ?; unfold indicator_timers;
               rewrite saved_timers; assumption)
         ltac:(idtac; other_prop).
Qed.

Lemma hideToast_typing_consistent el w :
  el <> typingIndicator -> typing_consistent w -> typing_consistent (exec (hideToast el) w).
Proof.
  intros Hel H. unfold typing_consistent, indicator_shown, prop in H |- *. simpl.
  rewrite lookup_insert_ne by congruence. exact H.
Qed.

Lemma step_typing_consistent w ev :
  ev <> ClickCloseToast (Some typingIndicator) ->
  indicator_timers w -> typing_consistent w -> typing_consistent (step w ev).
Proof.
  intros Hev Ht Hw.
  assert (Hwalk : forall m : M unit, keeps typing_consistent m -> typing_consistent (exec m w))
    by (intros m Hm; apply Hm, Hw).
  destruct ev; unfold step;
    try solve [ apply Hwalk; autounfold with outer;
      unfold clearChat, localStorage_removeItem, showSuccess, showToast, assign, setTimeout;
      walk ltac:(first [ apply showTypingIndicator_keeps
                       | apply hideTypingIndicator_keeps
                       | apply saveChatHistory_keeps; exact saved_typing_consistent ])
           ltac:(idtac; other_prop) ].
  - destruct closest_toast as [el|]; [|exact Hw].
    apply hideToast_typing_consistent; [congruence | exact Hw].
  - unfold exec. simpl listener. rewrite bind_read.
    destruct (timers (env w) !! index) as [[d cb]|] eqn:Hl; [|exact Hw].
    rewrite bind_update.
    assert (Hcb : cb <> HideToast typingIndicator).
    { unfold indicator_timers in Ht. rewrite Forall_lookup in Ht. exact (Ht _ _ Hl). }
    destruct cb as [| |el|]; try (cbn; other_prop).
    apply (hideToast_typing_consistent el); [congruence|]. other_prop.
Qed.

(** X8. In every state reached through the listeners, [isTyping] is true
    exactly when the typing indicator is displayed, provided it was so at
    the start, no pending timer and no close button treats the typing
    indicator as a toast. *)
Theorem typing_flag_matches_indicator (w : World) (evs : list event) :
  typing_consistent w ->
  indicator_timers w ->
  Forall (fun ev => ev <> ClickCloseToast (Some typingIndicator)) evs ->
  typing_consistent (run w evs).
Proof.
  revert w. induction evs as [|ev r IH]; intros w Hw Ht Hevs; [exact Hw|].
  apply List.Forall_cons_iff in Hevs as [Hev Hr]. simpl. apply IH.
  - apply step_typing_consistent; assumption.
  - apply listener_keeps_indicator_timers, Ht.
  - exact Hr.
Qed.

Lemma saved_status_consistent w : status_consistent w -> status_consistent (saved w).
Proof. unfold status_consistent, prop. rewrite saved_app, saved_page. tauto. Qed.

Lemma listener_keeps_status_consistent ev : keeps status_consistent (listener ev).
Proof.
  destruct ev;
    try solve [ autounfold with outer;
      unfold clearChat, localStorage_removeItem, showSuccess, showToast, assign, setTimeout,
        showTypingIndicator, hideTypingIndicator, scrollToBottom, assign, setTimeout;
      walk ltac:(apply saveChatHistory_keeps; exact saved_status_consistent)
           ltac:(idtac; other_prop) ].
  - intros w _. unfold status_consistent, prop. simpl.
    rewrite lookup_insert_eq. split; reflexivity.
  - intros w _. unfold status_consistent, prop. simpl.
    rewrite lookup_insert_eq. split; intros H; vm_compute in H; discriminate H.
  - intros w _. unfold status_consistent, prop. simpl.
    rewrite !lookup_insert_ne by discriminate.
    rewrite lookup_insert_eq. split; intros H; vm_compute in H; discriminate H.
Qed.

(** X9. In every state reached through the listeners, [isConnected] is
    true exactly when the class of the status element is
    'connection-status connected', provided it was so at the start. *)
Theorem connected_flag_matches_status (w : World) (evs : list event) :
  status_consistent w -> status_consistent (run w evs).
Proof. apply keeps_run, listener_keeps_status_consistent. Qed.

(** ** Saving *)

Lemma map_completion_missing t ns :
  In None (List.map shown ns) ->
  map_completion (entry_of t) ns = Throw (EngineError TypeError).
Proof.
  induction ns as [|n r IH]; simpl; [contradiction|].
  intros [Hn|Hr]; rewrite entry_of_shown.
  - rewrite Hn. reflexivity.
  - destruct (shown n); [|reflexivity]. simpl. rewrite (IH Hr). reflexivity.
Qed.

(** X10. When some element of class [message] on the page has no
    [message-bubble] below it, [saveChatHistory] stores nothing: it
    returns, the store and the page are unchanged and one error is
    logged, the [TypeError] of reading [textContent] of [null]. *)
Theorem saveChatHistory_element_without_bubble (w : World) :
  In None (displayed w) ->
  let w' := exec saveChatHistory w in
  fst (saveChatHistory w) = Normal tt
  /\ localStorage (env w') = localStorage (env w)
  /\ console (env w') = console (env w) ++ [save_failure (EngineError TypeError)]
  /\ page w' = page w.
Proof.
  intros Hin w'. subst w'. unfold exec. rewrite saveChatHistory_eq. cbn [fst snd].
  unfold saved, save_text. unfold displayed in Hin.
  rewrite (map_completion_missing _ _ Hin). repeat split.
Qed.

Lemma save_text_saved w : save_text (saved w) = save_text w.
Proof.
  unfold save_text. rewrite saved_page.
  replace (now (env (saved w))) with (now (env w)); [reflexivity|].
  unfold saved. destruct (save_text w); reflexivity.
Qed.

Lemma poke_poke k v v' w : poke k v (poke k v' w) = poke k v w.
Proof.
  destruct w as [a p e]. destruct e. unfold poke, with_env, set_localStorage. simpl.
  f_equal. f_equal. apply insert_insert_eq.
Qed.

Lemma saved_ok w text :
  save_text w = Normal text -> saved w = poke (history_key (sessionId (app w))) text w.
Proof. intros H. unfold saved, poke. rewrite H. reflexivity. Qed.

Lemma at_time_poke t k v w : at_time t (poke k v w) = poke k v (at_time t w).
Proof. destruct w as [a p e]. destruct e. reflexivity. Qed.

Lemma reparsed_inj t1 t2 : reparsed t1 = reparsed t2 -> t1 = t2.
Proof.
  unfold reparsed. intros H.
  destruct (t1 <=? max_exact), (t2 <=? max_exact); try discriminate.
  - injection H as H. lia.
  - injection H as H.
    rewrite <- (read_digits_decimal t1), <- (read_digits_decimal t2), H. reflexivity.
Qed.

(** X11. When every message element has a bubble, a save overwrites the
    session's slot and never extends it: what the slot held before plays
    no part, and a save at a later reading [t] of the clock, made after
    an earlier save, leaves the world a single save at [t] leaves.  The
    text written carries [Date.now()] in every entry, so with a message
    on the page a save at another time writes another text: saving
    twice is not saving once, unless the clock stood still. *)
Theorem saveChatHistory_overwrites (w : World) (ps : list (jsstring * jsstring)) :
  displayed w = List.map Some ps ->
  (forall old, exec saveChatHistory (stored old w) = exec saveChatHistory w)
  /\ (forall t, exec saveChatHistory (at_time t (exec saveChatHistory w))
              = exec saveChatHistory (at_time t w))
  /\ (forall t, ps <> [] -> t <> now (env w) ->
        localStorage (env (exec saveChatHistory (at_time t (exec saveChatHistory w))))
          !! history_key (sessionId (app w))
        <> localStorage (env (exec saveChatHistory w)) !! history_key (sessionId (app w))).
Proof.
  intros Hd. pose proof (save_text_displayed w ps Hd) as Ht.
  assert (Hlater : forall t, exec saveChatHistory (at_time t (exec saveChatHistory w))
                             = exec saveChatHistory (at_time t w)).
  { intros t. unfold exec. rewrite !saveChatHistory_eq. cbn [snd].
    rewrite (saved_ok w _ Ht), at_time_poke.
    pose proof (save_text_displayed (at_time t w) ps Hd) as Ht'.
    assert (Hs : save_text (poke (history_key (sessionId (app w)))
                              (JSON_stringify (JArr (List.map (written (now (env w))) ps)))
                              (at_time t w))
                 = save_text (at_time t w)) by reflexivity.
    rewrite (saved_ok _ _ (eq_trans Hs Ht')), (saved_ok _ _ Ht').
    apply poke_poke. }
  split; [|split].
  - intros old. unfold exec. rewrite !saveChatHistory_eq. cbn [snd].
    assert (Hs : save_text (stored old w) = save_text w) by reflexivity.
    rewrite (saved_ok (stored old w) _ (eq_trans Hs Ht)), (saved_ok w _ Ht).
    apply poke_poke.
  - exact Hlater.
  - intros t Hps Hne. rewrite Hlater. unfold exec. rewrite !saveChatHistory_eq. cbn [snd].
    pose proof (save_text_displayed (at_time t w) ps Hd) as Ht'.
    rewrite (saved_storage _ _ Ht'), (saved_storage _ _ Ht).
    change (sessionId (app (at_time t w))) with (sessionId (app w)).
    change (now (env (at_time t w))) with t.
    rewrite !lookup_insert_eq.
    intros E.
    apply (f_equal (fun o => match o with Some text => JSON_parse text | None => None end))
      in E.
    cbv beta iota in E. rewrite !JSON_parse_history in E.
    destruct ps as [|p ps]; [contradiction|].
    injection E as E _. apply Hne, reparsed_inj, E.
Qed.

Lemma displayed_senders w ps :
  displayed w = List.map Some ps ->
  Forall (fun p => fst p = js "user" \/ fst p = js "bot") ps.
Proof.
  intros Hd. apply List.Forall_forall. intros p Hp. unfold displayed in Hd.
  assert (Hin : In (Some p) (List.map shown
                   (querySelectorAll (js "message") (chat_children (page w)))))
    by (rewrite Hd; apply in_map; exact Hp).
  apply in_map_iff in Hin as (n & Hn & _). exact (shown_sender n p Hn).
Qed.

(** X12. After a save on a page where every message element has a
    bubble, the session's slot holds JSON text that parses back to the
    list of displayed messages, in order, each entry with sender 'user'
    or 'bot' and with the clock of the save as its timestamp, not the
    time the message was added. *)
Theorem stored_history_is_the_displayed_list (w : World) (ps : list (jsstring * jsstring)) :
  displayed w = List.map Some ps ->
  exists text,
    localStorage (env (exec saveChatHistory w)) !! history_key (sessionId (app w)) = Some text
    /\ JSON_parse text = Some (JArr (List.map (read_back (now (env w))) ps))
    /\ Forall (fun p => fst p = js "user" \/ fst p = js "bot") ps.
Proof.
  intros Hd. exists (JSON_stringify (JArr (List.map (written (now (env w))) ps))).
  split; [|split].
  - unfold exec. rewrite saveChatHistory_eq. cbn [snd].
    rewrite (saved_storage w _ (save_text_displayed w ps Hd)). apply lookup_insert_eq.
  - apply JSON_parse_history.
  - exact (displayed_senders w ps Hd).
Qed.

(** ** Loading *)

Lemma loadChatHistory_array w h messages :
  localStorage (env w) !! history_key (sessionId (app w)) = Some h ->
  h <> [] ->
  JSON_parse h = Some (JArr messages) ->
  loadChatHistory w
  = match forEach messages restore_message w with
    | (Normal _, w') => (Normal tt, w')
    | (Throw e, w') =>
        (Normal tt, with_env (fun env0 => set_console (console env0 ++ [load_failure e]) env0) w')
    end.
Proof.
  intros Hs Hh Hp. unfold loadChatHistory, try_catch, localStorage_getItem.
  rewrite !bind_read, Hs. destruct h as [|c r]; [contradiction|]. cbv iota. rewrite Hp.
  destruct (forEach messages restore_message w) as [[[]|e] w']; reflexivity.
Qed.

(** X13. When the session's slot holds valid JSON that is not an array,
    [loadChatHistory] returns, renders nothing and logs the [TypeError]
    of calling [forEach]; the rest of the state is unchanged. *)
Theorem loadChatHistory_not_an_array (w : World) (h : jsstring) (v : jsval) :
  localStorage (env w) !! history_key (sessionId (app w)) = Some h ->
  h <> [] ->
  JSON_parse h = Some v ->
  (forall messages, v <> JArr messages) ->
  loadChatHistory w
  = (Normal tt,
     with_env (fun e => set_console (console e ++ [load_failure (EngineError TypeError)]) e) w).
Proof.
  intros Hs Hh Hp Hv. unfold loadChatHistory, try_catch, localStorage_getItem.
  rewrite !bind_read, Hs. destruct h as [|c r]; [contradiction|]. cbv iota. rewrite Hp.
  destruct v; try reflexivity. exfalso. exact (Hv _ eq_refl).
Qed.

Lemma forEach_app {A} (a b : list A) (f : A -> M unit) w :
  forEach (a ++ b) f w
  = match forEach a f w with
    | (Normal _, w') => forEach b f w'
    | (Throw e, w') => (Throw e, w')
    end.
Proof.
  revert w. induction a as [|x r IH]; intros w; [reflexivity|].
  rewrite <- app_comm_cons. cbn [forEach]. unfold bind.
  destruct (f x w) as [[[]|e] w1]; [apply IH | reflexivity].
Qed.

Lemma displayed_restored w w' ps :
  Forall (fun p => fst p = js "user" \/ fst p = js "bot") ps ->
  chat_children (page w') = chat_children (page w) ++ List.map message_node ps ->
  displayed w' = displayed w ++ List.map Some ps.
Proof.
  intros Hps Hch. unfold displayed. rewrite Hch, querySelectorAll_app, List.map_app. f_equal.
  rewrite querySelectorAll_tidy.
  - rewrite List.map_map. apply map_ext_in. intros p Hp.
    apply message_node_tidy. rewrite List.Forall_forall in Hps. apply Hps, Hp.
  - apply List.Forall_forall. intros n Hn. apply in_map_iff in Hn as (p & <- & Hp).
    apply message_node_tidy. rewrite List.Forall_forall in Hps. apply Hps, Hp.
Qed.

(** X14. When the stored array has a [null] entry, [loadChatHistory]
    renders the entries before it, stops there and logs a [TypeError]:
    the entries after it are not rendered, and the call still returns. *)
Theorem loadChatHistory_stops_at_null (w : World) (h : jsstring) (t : N)
    (ps : list (jsstring * jsstring)) (rest : list jsval) :
  localStorage (env w) !! history_key (sessionId (app w)) = Some h ->
  h <> [] ->
  JSON_parse h = Some (JArr (List.map (read_back t) ps ++ JNull :: rest)) ->
  Forall (fun p => fst p = js "user" \/ fst p = js "bot") ps ->
  let w' := exec loadChatHistory w in
  fst (loadChatHistory w) = Normal tt
  /\ displayed w' = displayed w ++ List.map Some ps
  /\ exists logs, console (env w') = logs ++ [load_failure (EngineError TypeError)].
Proof.
  intros Hs Hh Hp Hps w'. subst w'. unfold exec.
  rewrite (loadChatHistory_array w h _ Hs Hh Hp), forEach_app.
  destruct (forEach_restore_read_back t ps w Hps) as (w1 & -> & _ & Hch).
  cbn [forEach]. unfold bind. rewrite restore_message_eq.
  change (get JNull (js "sender")) with (@Throw jsval (EngineError TypeError)).
  cbn [fst snd]. split; [reflexivity|]. split.
  - change (displayed (with_env ?f w1)) with (displayed w1).
    apply displayed_restored; assumption.
  - exists (console (env w1)). reflexivity.
Qed.

(** X15. [loadChatHistory] appends: loading the history saved from a
    page, for the same session id, onto a page that already displays
    messages adds the saved list after them.  In particular, loading
    right after saving on the same page displays every message twice. *)
Theorem loadChatHistory_appends_to_the_page (w : World) (ps : list (jsstring * jsstring))
    (a' : App) (p' : Page) (e' : Env) :
  displayed w = List.map Some ps ->
  sessionId a' = sessionId (app w) ->
  localStorage e' = localStorage (env (exec saveChatHistory w)) ->
  displayed (exec loadChatHistory {| app := a'; page := p'; env := e' |})
  = displayed {| app := a'; page := p'; env := e' |} ++ List.map Some ps
  /\ displayed (exec loadChatHistory (exec saveChatHistory w)) = List.map Some (ps ++ ps).
Proof.
  intros Hd Hsid Hstore.
  pose proof (displayed_senders w ps Hd) as Hps.
  assert (Hload : forall w2,
            sessionId (app w2) = sessionId (app w) ->
            localStorage (env w2) = localStorage (env (exec saveChatHistory w)) ->
            displayed (exec loadChatHistory w2) = displayed w2 ++ List.map Some ps).
  { intros w2 Hsid2 Hstore2.
    unfold exec in Hstore2. rewrite saveChatHistory_eq in Hstore2. cbn [snd] in Hstore2.
    rewrite (saved_storage w _ (save_text_displayed w ps Hd)) in Hstore2.
    assert (Hslot : localStorage (env w2) !! history_key (sessionId (app w2))
                    = Some (JSON_stringify (JArr (List.map (written (now (env w))) ps)))).
    { rewrite Hstore2, Hsid2. apply lookup_insert_eq. }
    assert (Hne : JSON_stringify (JArr (List.map (written (now (env w))) ps)) <> []).
    { unfold JSON_stringify. cbn [JSON_text]. discriminate. }
    unfold exec.
    rewrite (loadChatHistory_array w2 _ _ Hslot Hne (JSON_parse_history _ ps)).
    destruct (forEach_restore_read_back (now (env w)) ps w2 Hps) as (w3 & -> & _ & Hch).
    cbn [snd]. apply displayed_restored; assumption. }
  split.
  - apply Hload; assumption.
  - rewrite Hload.
    + unfold exec. rewrite saveChatHistory_eq. cbn [snd].
      unfold displayed at 1. rewrite saved_page. fold (displayed w).
      rewrite Hd, List.map_app. reflexivity.
    + unfold exec. rewrite saveChatHistory_eq. cbn [snd]. rewrite saved_app. reflexivity.
    + reflexivity.
Qed.

(** ** Clearing *)

Lemma tidy_is_message n : tidy n -> classList_contains (js "message") n = true.
Proof.
  intros [Hf _]. cbn [List.filter] in Hf.
  destruct (classList_contains (js "message") n) eqn:Hc; [reflexivity|].
  assert (Hin : In n (List.filter (classList_contains (js "message")) (descendants n)))
    by (rewrite Hf; left; reflexivity).
  apply filter_In in Hin as [_ Hn]. rewrite Hn in Hc. discriminate.
Qed.

Lemma remove_matching_absent cls n :
  List.filter (classList_contains cls) (descendants n) = [] -> remove_matching cls n = n.
Proof.
  induction n as [d|t cn cs IH] using node_induction; [reflexivity|].
  simpl. intros Hf. f_equal.
  induction cs as [|c r IHr]; [reflexivity|].
  inversion IH as [|? ? Hc Hr]; subst.
  simpl in Hf. destruct (classList_contains cls c) eqn:Hcls; [discriminate|].
  rewrite List.filter_app in Hf. apply app_eq_nil in Hf as [Hfc Hfr].
  rewrite (Hc Hfc), (IHr Hr Hfr). reflexivity.
Qed.

Lemma remove_all_absent cls cs :
  querySelectorAll cls cs = [] -> remove_all cls cs = cs.
Proof.
  unfold querySelectorAll, descendants_of, remove_all.
  induction cs as [|c r IH]; [reflexivity|]. simpl.
  destruct (classList_contains cls c) eqn:Hcls; [discriminate|].
  rewrite List.filter_app. intros Hf. apply app_eq_nil in Hf as [Hfc Hfr].
  simpl. rewrite (remove_matching_absent cls c Hfc), (IH Hfr). reflexivity.
Qed.

Lemma remove_all_app cls a b :
  remove_all cls (a ++ b) = remove_all cls a ++ remove_all cls b.
Proof. unfold remove_all. rewrite List.filter_app, List.map_app. reflexivity. Qed.

Lemma remove_all_messages ns :
  Forall (fun n => classList_contains (js "message") n = true) ns ->
  remove_all (js "message") ns = [].
Proof.
  unfold remove_all. induction 1 as [|n r Hn _ IH]; [reflexivity|].
  simpl. rewrite Hn. exact IH.
Qed.

(** X16. On a page that had no message element, a confirmed [clearChat]
    after any sequence of [addMessage] calls (senders 'user' or 'bot',
    no message element in the parsed metadata markup) leaves the chat
    container with exactly the children it had at the start; a cancelled
    one changes nothing. *)
Theorem clearChat_undoes_the_added_messages (w0 : World) (calls : list call) :
  querySelectorAll (js "message") (chat_children (page w0)) = [] ->
  Forall call_ok calls ->
  chat_children (page (exec (clearChat true) (fold_left add_call calls w0)))
  = chat_children (page w0)
  /\ exec (clearChat false) (fold_left add_call calls w0) = fold_left add_call calls w0.
Proof.
  intros Hstatic Hok. split; [|reflexivity].
  destruct (add_calls_children calls w0 Hok) as (ns & Hch & Htidy).
  unfold exec. rewrite clearChat_confirmed. cbn [snd].
  change (chat_children (page (toast_shown ?a ?b ?c ?x))) with (chat_children (page x)).
  cbn [page with_env with_page chat_children set_chat_children].
  rewrite Hch, remove_all_app, (remove_all_absent _ _ Hstatic), remove_all_messages.
  - apply app_nil_r.
  - eapply List.Forall_impl; [|exact Htidy]. exact tidy_is_message.
Qed.

(** ** The rows of the analytics panel *)

Lemma jseqb_eq a b : jseqb a b = true <-> a = b.
Proof.
  revert b. induction a as [|x a IH]; intros [|y b]; simpl; split; try discriminate; auto.
  - intros H. apply andb_true_iff in H as [Hx Hr].
    apply N.eqb_eq in Hx. apply IH in Hr. congruence.
  - intros [= -> ->]. apply andb_true_iff. split; [apply N.eqb_refl | apply IH; reflexivity].
Qed.

Lemma jseqb_neq a b : a <> b -> jseqb a b = false.
Proof.
  intros H. destruct (jseqb a b) eqn:E; [|reflexivity]. apply jseqb_eq in E. contradiction.
Qed.

Lemma first_keys_distinct seen ms :
  List.NoDup (List.map fst ms) ->
  (forall k, In k (List.map fst ms) -> ~ In k seen) ->
  first_keys seen ms = List.map fst ms.
Proof.
  revert seen. induction ms as [|[k v] r IH]; intros seen Hnd Hseen; [reflexivity|].
  simpl in *. inversion Hnd as [|? ? Hk Hr]; subst.
  replace (existsb (jseqb k) seen) with false.
  - f_equal. apply IH; [exact Hr|].
    intros k' Hk' [<-|Hin]; [contradiction|]. exact (Hseen k' (or_intror Hk') Hin).
  - symmetry. apply not_true_is_false. intros Hex.
    apply existsb_exists in Hex as (x & Hx & Hkx). apply jseqb_eq in Hkx. subst x.
    exact (Hseen k (or_introl eq_refl) Hx).
Qed.

Lemma own_property_fold k (post : list (jsstring * jsval)) acc :
  ~ In k (List.map fst post) ->
  fold_left (fun acc kv => if jseqb (fst kv) k then Some (snd kv) else acc) post acc = acc.
Proof.
  revert acc. induction post as [|[k' v'] r IH]; intros acc Hk; [reflexivity|].
  simpl in *. rewrite jseqb_neq by (intros ->; apply Hk; left; reflexivity).
  apply IH. intros Hin. apply Hk. right. exact Hin.
Qed.

Lemma own_property_last k v pre post :
  ~ In k (List.map fst post) -> own_property k (pre ++ (k, v) :: post) = Some v.
Proof.
  intros Hk. unfold own_property. rewrite fold_left_app. simpl.
  replace (jseqb k k) with true by (symmetry; apply jseqb_eq; reflexivity).
  apply own_property_fold, Hk.
Qed.

Lemma own_entries_distinct ms :
  List.NoDup (List.map fst ms) ->
  Forall (fun kv => array_index (fst kv) = None) ms ->
  own_entries ms = ms.
Proof.
  intros Hnd Hidx. unfold own_entries.
  rewrite (first_keys_distinct [] ms Hnd) by (intros k _ []).
  assert (Hkeyed : List.map (fun k => (k, default JUndefined (own_property k ms)))
                     (List.map fst ms) = ms).
  { rewrite List.map_map. transitivity (List.map (fun kv => kv) ms); [|apply List.map_id].
    apply map_ext_in. intros [k v] Hin. simpl. f_equal.
    apply in_split in Hin as (pre & post & ->).
    rewrite List.map_app in Hnd. simpl in Hnd. apply NoDup_remove_2 in Hnd.
    rewrite own_property_last; [reflexivity|].
    intros Hin. apply Hnd. apply in_or_app. right. exact Hin. }
  rewrite Hkeyed.
  assert (Homap : omap (fun kv => (fun n => (n, kv)) <$> array_index (fst kv)) ms = []).
  { clear Hnd Hkeyed. induction Hidx as [|kv r Hkv _ IH]; [reflexivity|].
    simpl. rewrite Hkv. simpl. exact IH. }
  rewrite Homap. simpl.
  clear Hnd Hkeyed Homap. induction Hidx as [|kv r Hkv _ IH]; [reflexivity|].
  simpl. unfold is_index_key at 1. rewrite Hkv. simpl. f_equal. exact IH.
Qed.

(** X17. When the keys of [intent_distribution] are distinct and none is
    an array index, [Object.entries] lists them as the response has
    them, and [renderAnalytics] makes its rows from them one by one in
    that order; with integer counts this gives as many rows as there are
    intents. *)
Theorem intent_rows_follow_the_response (data : jsval) (ms : list (jsstring * jsval)) :
  get data (js "intent_distribution") = Normal (JObj ms) ->
  List.NoDup (List.map fst ms) ->
  Forall (fun kv => array_index (fst kv) = None) ms ->
  Object_entries (JObj ms) = ms
  /\ intent_rows data = map_completion intent_row ms
  /\ (Forall (fun kv => exists z, snd kv = JNum (Int z)) ms ->
      exists rows, intent_rows data = Normal rows /\ length rows = length ms).
Proof.
  intros Hd Hnd Hidx.
  assert (He : Object_entries (JObj ms) = ms) by (apply own_entries_distinct; assumption).
  assert (Hr : intent_rows data = map_completion intent_row ms).
  { unfold intent_rows. rewrite Hd. unfold cbind, or_else.
    change (truthy (JObj ms)) with true. cbv iota. rewrite He. reflexivity. }
  split; [exact He|]. split; [exact Hr|].
  intros Hnum. rewrite Hr. clear - Hnum.
  induction Hnum as [|[k v] r [z Hz] _ (rows & IH & Hlen)].
  - exists []. split; reflexivity.
  - simpl in Hz. subst v. cbn [map_completion]. rewrite IH.
    eexists (_ :: rows). split; [reflexivity|]. simpl. rewrite Hlen. reflexivity.
Qed.

(** ** A failed analytics request *)

Lemma showAnalytics_resume_failed r w error w1 :
  match r with
  | FetchRejected e => (@Throw unit e, w)
  | FetchResponse ok body =>
      match JSON_parse body with
      | None => (Throw (EngineError SyntaxError), w)
      | Some data =>
          if ok then renderAnalytics data w
          else
            match get data (js "error") with
            | Normal err =>
                match ToString (or_else err (JStr (js "Failed to load analytics"))) with
                | Normal m => (Throw (AppError m), w)
                | Throw e => (Throw e, w)
                end
            | Throw e => (Throw e, w)
            end
      end
  end = (Throw error, w1) ->
  showAnalytics_resume r w
  = (Normal tt,
     with_page (fun pg =>
       set_props (<[(analyticsContent, prop_innerHTML) :=
                     analytics_error_markup (error_message error)]> (props pg)) pg)
       (with_env (fun e => set_console (console e ++ [analytics_failure error]) e) w1)).
Proof.
  intros H. unfold showAnalytics_resume, try_catch.
  destruct r as [e|ok body].
  - injection H as -> ->. reflexivity.
  - destruct (JSON_parse body) as [data|].
    + destruct ok.
      * rewrite H. reflexivity.
      * unfold bind, lift.
        destruct (get data (js "error")) as [err|e]; [|injection H as -> ->; reflexivity].
        destruct (ToString _) as [m|e]; injection H as -> ->; reflexivity.
    + injection H as -> ->. reflexivity.
Qed.

(** X18. [showAnalytics] never lets an exception escape once the request
    has settled, and leaves the modal displayed as it was.  A rejected
    request or a body that is not JSON is logged and shown in the panel
    with the message of the error; a response that is not [ok] is shown
    with its [error] field when that is a non-empty string and with
    'Failed to load analytics' when it is falsy. *)
Theorem showAnalytics_failure_is_shown (r : fetch_result) (w : World) :
  let w' := exec (showAnalytics_resume r) w in
  fst (showAnalytics_resume r w) = Normal tt
  /\ prop analyticsModal style_display w' = prop analyticsModal style_display w
  /\ (forall error, r = FetchRejected error ->
        prop analyticsContent prop_innerHTML w' = analytics_error_markup (error_message error)
        /\ console (env w') = console (env w) ++ [analytics_failure error])
  /\ (forall ok body, r = FetchResponse ok body -> JSON_parse body = None ->
        prop analyticsContent prop_innerHTML w'
        = analytics_error_markup (engine_message SyntaxError)
        /\ console (env w') = console (env w) ++ [analytics_failure (EngineError SyntaxError)])
  /\ (forall body data err,
        r = FetchResponse false body -> JSON_parse body = Some data ->
        get data (js "error") = Normal err ->
        (truthy err = false ->
         prop analyticsContent prop_innerHTML w'
         = analytics_error_markup (js "Failed to load analytics"))
        /\ (forall s, err = JStr s -> s <> [] ->
            prop analyticsContent prop_innerHTML w' = analytics_error_markup s)).
Proof.
  intros w'. subst w'.
  assert (Hshown : forall error w1,
            showAnalytics_resume r w
            = (Normal tt,
               with_page (fun pg =>
                 set_props (<[(analyticsContent, prop_innerHTML) :=
                               analytics_error_markup (error_message error)]> (props pg)) pg)
                 (with_env (fun e => set_console (console e ++ [analytics_failure error]) e) w1)) ->
            prop analyticsContent prop_innerHTML (exec (showAnalytics_resume r) w)
            = analytics_error_markup (error_message error)).
  { intros error w1 E. unfold exec. rewrite E. unfold prop. simpl.
    rewrite lookup_insert_eq. reflexivity. }
  split; [|split; [|split; [|split]]].
  - unfold showAnalytics_resume, try_catch.
    match goal with |- fst (let (c, w') := ?b w in _) = _ => destruct (b w) as [[[]|e] w1] end;
      reflexivity.
  - unfold exec.
    apply (keeps_try_catch (fun w0 => prop analyticsModal style_display w0
                                      = prop analyticsModal style_display w)); [| |reflexivity].
    + destruct r as [e|ok body]; [apply keeps_throw|].
      destruct (JSON_parse body) as [data|]; [|apply keeps_throw].
      destruct ok; unfold renderAnalytics, assign;
        walk ltac:(fail)
             ltac:(unfold prop in *; simpl; rewrite ?lookup_insert_ne by discriminate;
                   assumption).
    + intros e. unfold console_error, assign.
      walk ltac:(fail)
           ltac:(unfold prop in *; simpl; rewrite ?lookup_insert_ne by discriminate;
                 assumption).
  - intros error ->.
    assert (E := showAnalytics_resume_failed (FetchRejected error) w error w eq_refl).
    split; [exact (Hshown _ _ E) | unfold exec; rewrite E; reflexivity].
  - intros ok body -> Hp.
    assert (E := showAnalytics_resume_failed (FetchResponse ok body) w
                   (EngineError SyntaxError) w).
    cbv beta iota in E. rewrite Hp in E. specialize (E eq_refl).
    split; [exact (Hshown _ _ E) | unfold exec; rewrite E; reflexivity].
  - intros body data err -> Hp Herr. split.
    + intros Htr.
      assert (E := showAnalytics_resume_failed (FetchResponse false body) w
                     (AppError (js "Failed to load analytics")) w).
      cbv beta iota in E. rewrite Hp, Herr in E. unfold or_else in E. rewrite Htr in E.
      specialize (E eq_refl).
      exact (Hshown _ _ E).
    + intros s -> Hs.
      assert (E := showAnalytics_resume_failed (FetchResponse false body) w (AppError s) w).
      cbv beta iota in E. rewrite Hp, Herr in E. unfold or_else in E.
      replace (truthy (JStr s)) with true in E by (destruct s; [contradiction | reflexivity]).
      specialize (E eq_refl).
      exact (Hshown _ _ E).
Qed.

(** ** Session ids *)

Lemma decimal_inj t1 t2 : decimal t1 = decimal t2 -> t1 = t2.
Proof.
  intros H. rewrite <- (read_digits_decimal t1), <- (read_digits_decimal t2), H. reflexivity.
Qed.

Lemma split_at_underscore a1 a2 x1 x2 :
  no_underscore a1 -> no_underscore a2 ->
  a1 ++ 95 :: x1 = a2 ++ 95 :: x2 -> a1 = a2 /\ x1 = x2.
Proof.
  intros H1. revert a2. induction H1 as [|c r Hc _ IH]; intros a2 H2 E.
  - destruct H2 as [|c2 r2 Hc2 _]; simpl in E.
    + injection E as ->. split; reflexivity.
    + injection E as <- _. contradiction.
  - destruct H2 as [|c2 r2 Hc2 Hr2]; simpl in E.
    + injection E as -> _. contradiction.
    + injection E as -> E. destruct (IH r2 Hr2 E) as [-> ->]. split; reflexivity.
Qed.

Lemma no_underscore_part r : no_underscore r -> no_underscore (take 9 (drop 2 r)).
Proof.
  unfold no_underscore. intros H. apply Forall_take, Forall_drop, H.
Qed.

Lemma generateSessionId_inj r1 t1 r2 t2 :
  no_underscore r1 -> no_underscore r2 ->
  generateSessionId r1 t1 = generateSessionId r2 t2 ->
  take 9 (drop 2 r1) = take 9 (drop 2 r2) /\ t1 = t2.
Proof.
  intros H1 H2 E. unfold generateSessionId in E.
  apply app_inv_head in E.
  change (js "_" ++ decimal t1) with (95 :: decimal t1) in E.
  change (js "_" ++ decimal t2) with (95 :: decimal t2) in E.
  apply split_at_underscore in E as [Ha Ht]; try (apply no_underscore_part; assumption).
  split; [exact Ha | apply decimal_inj, Ht].
Qed.

(** X19. Session ids made from random parts without underscore are equal
    only when their random parts and their clock readings are equal; so two
    page loads at different milliseconds use different history keys. *)
Theorem generateSessionId_distinct_in_time (r1 r2 : jsstring) (t1 t2 : N) :
  no_underscore r1 -> no_underscore r2 ->
  (generateSessionId r1 t1 = generateSessionId r2 t2 ->
   take 9 (drop 2 r1) = take 9 (drop 2 r2) /\ t1 = t2)
  /\ (t1 <> t2 ->
      history_key (generateSessionId r1 t1) <> history_key (generateSessionId r2 t2)).
Proof.
  intros H1 H2. split.
  - apply generateSessionId_inj; assumption.
  - intros Ht E. apply history_key_inj in E.
    apply (generateSessionId_inj r1 t1 r2 t2 H1 H2) in E as [_ E]. contradiction.
Qed.

(** ** Page load *)

Lemma initializeSocket_eq w :
  initializeSocket w = (Normal tt, exec initializeSocket w).
Proof.
  unfold exec, initializeSocket, try_catch. rewrite bind_update, bind_read.
  destruct (io_throws (env _)); reflexivity.
Qed.

Lemma initializeSocket_keeps_history sid cs store :
  keeps (fun w => sessionId (app w) = sid /\ chat_children (page w) = cs
                  /\ localStorage (env w) = store) initializeSocket.
Proof.
  unfold initializeSocket, console_error, showError, showToast, assign, setTimeout.
  walk ltac:(fail) ltac:(assumption).
Qed.

(** X20. A page load never restores an earlier session: when every
    history in the store belongs to a session created at another time,
    [new ChatbotApp()] gets a session id of its own, finds no history,
    renders no message and leaves the store as it is; the instance is as
    [initializeSocket] left it. *)
Theorem page_load_starts_a_new_history (r : jsstring) (p : Page) (e : Env) :
  no_underscore r ->
  (forall sid, is_Some (localStorage e !! history_key sid) ->
     exists r' t', sid = generateSessionId r' t' /\ no_underscore r' /\ t' <> now e) ->
  let w := new_ChatbotApp r p e in
  sessionId (app w) = generateSessionId r (now e)
  /\ chat_children (page w) = chat_children p
  /\ localStorage (env w) = localStorage e
  /\ w = exec initializeSocket
           {| app := constructed (generateSessionId r (now e)); page := p; env := e |}.
Proof.
  intros Hr Hkeys w. subst w. unfold new_ChatbotApp.
  set (sid := generateSessionId r (now e)).
  set (w0 := {| app := constructed sid; page := p; env := e |}).
  assert (Hslot : localStorage e !! history_key sid = None).
  { destruct (localStorage e !! history_key sid) as [h|] eqn:Hh; [|reflexivity].
    destruct (Hkeys sid) as (r' & t' & Hk & Hr' & Ht');
      [rewrite Hh; eexists; reflexivity|].
    subst sid.
    apply (generateSessionId_inj r (now e) r' t' Hr Hr') in Hk as [_ Hk].
    symmetry in Hk. contradiction. }
  destruct (initializeSocket_keeps_history sid (chat_children p) (localStorage e) w0)
    as (Hsid & Hch & Hst); [repeat split|].
  fold (exec initializeSocket w0) in Hsid, Hch, Hst.
  assert (E : init w0 = (Normal tt, exec initializeSocket w0)).
  { unfold init, bind. rewrite initializeSocket_eq.
    apply loadChatHistory_absent. rewrite Hsid, Hst. exact Hslot. }
  unfold exec at 1 2 3 4. rewrite E. cbn [snd]. repeat split; assumption.
Qed.

(** ** The session and the rest of the store *)

Lemma saved_session_frame sid uid store w :
  session_frame sid uid store w -> session_frame sid uid store (saved w).
Proof.
  intros (Hs & Hu & Hk). unfold session_frame. rewrite saved_app.
  split; [exact Hs|]. split; [exact Hu|].
  intros k Hne. rewrite saved_other_slot by (rewrite Hs; exact Hne). apply Hk, Hne.
Qed.

Lemma clearChat_session_frame sid uid store confirmed :
  keeps (session_frame sid uid store) (clearChat confirmed).
Proof.
  intros w (Hs & Hu & Hk). destruct confirmed; [|repeat split; assumption].
  rewrite clearChat_confirmed. cbn [snd]. unfold session_frame.
  split; [exact Hs|]. split; [exact Hu|].
  intros k Hne. simpl. rewrite lookup_delete_ne by (rewrite Hs; congruence). apply Hk, Hne.
Qed.

Lemma listener_keeps_session_frame sid uid store ev :
  keeps (session_frame sid uid store) (listener ev).
Proof.
  destruct ev; autounfold with outer;
    unfold showTypingIndicator, hideTypingIndicator, scrollToBottom, assign, setTimeout;
    walk ltac:(first [ apply saveChatHistory_keeps; apply saved_session_frame
                     | apply clearChat_session_frame ])
         ltac:(assumption).
Qed.

(** X21. No sequence of events changes the session id or the user id of
    the instance, and of the store only the history key of the session
    is ever written or removed. *)
Theorem events_keep_the_session_and_other_keys (w : World) (evs : list event) :
  sessionId (app (run w evs)) = sessionId (app w)
  /\ userId (app (run w evs)) = userId (app w)
  /\ forall k, k <> history_key (sessionId (app w)) ->
       localStorage (env (run w evs)) !! k = localStorage (env w) !! k.
Proof.
  apply (keeps_run (session_frame (sessionId (app w)) (userId (app w)) (localStorage (env w)))).
  - apply listener_keeps_session_frame.
  - repeat split.
Qed.

(** ** Senders *)









(** ** The REST fallback *)

Lemma apiCall_block_pure r w : snd (apiCall_block r w) = w.
Proof.
  unfold apiCall_block. destruct r as [e|status body]; [reflexivity|].
  destruct (JSON_parse body) as [data|]; [|reflexivity].
  destruct (negb (response_ok status)); [|reflexivity].
  unfold bind, lift. destruct (get data (js "error")) as [err|e]; [|reflexivity].
  destruct (ToString _); reflexivity.
Qed.

Lemma sendMessageREST_failed r w error :
  fst (apiCall_block r w) = Throw error ->
  sendMessageREST_resume r w
  = (Normal tt,
     toast_shown errorToast errorMessage
       (js "Failed to send message: " ++ error_message error)
       (with_env (fun e => set_console (console e ++ [api_failure error]) e) w)).
Proof.
  intros H. pose proof (apiCall_block_pure r w) as Hp.
  unfold sendMessageREST_resume, try_catch. unfold bind at 1.
  unfold apiCall_resume, try_catch_value.
  destruct (apiCall_block r w) as [c w1]. simpl in H, Hp. subst c w1.
  unfold console_error, bind, update, throw. cbv beta iota zeta.
  apply showError_string.
Qed.

(** X23. [sendMessageREST] never lets an exception escape once the
    request has settled.  A rejected request, a body that is not JSON
    and a response that is not [ok] are each logged once by [apiCall]
    and shown in the error toast as 'Failed to send message: ' followed
    by the message of the error; for a response that is not [ok] that
    message is its [error] field when it is a non-empty string and
    'HTTP ' with the status when it is falsy. *)
Theorem sendMessageREST_failure_is_shown (r : http_result) (w : World) :
  let w' := exec (sendMessageREST_resume r) w in
  let failed error :=
    toast_shown errorToast errorMessage
      (js "Failed to send message: " ++ error_message error)
      (with_env (fun e => set_console (console e ++ [api_failure error]) e) w) in
  fst (sendMessageREST_resume r w) = Normal tt
  /\ (forall error, r = HttpRejected error -> w' = failed error)
  /\ (forall status body, r = HttpResponse status body -> JSON_parse body = None ->
        w' = failed (EngineError SyntaxError))
  /\ (forall status body data err,
        r = HttpResponse status body -> response_ok status = false ->
        JSON_parse body = Some data -> get data (js "error") = Normal err ->
        (truthy err = false -> w' = failed (AppError (js "HTTP " ++ decimal status)))
        /\ (forall s, err = JStr s -> s <> [] -> w' = failed (AppError s))).
Proof.
  intros w' failed. subst w' failed. cbv beta.
  split; [|split; [|split]].
  - unfold sendMessageREST_resume, try_catch.
    match goal with |- fst (let (c, w') := ?b w in _) = _ => destruct (b w) as [[[]|e] w1] end;
      [reflexivity|].
    rewrite showError_string. reflexivity.
  - intros error ->. unfold exec. rewrite (sendMessageREST_failed _ w error); reflexivity.
  - intros status body -> Hp. unfold exec.
    rewrite (sendMessageREST_failed _ w (EngineError SyntaxError)); [reflexivity|].
    unfold apiCall_block. rewrite Hp. reflexivity.
  - intros status body data err -> Hok Hp Herr. split.
    + intros Htr. unfold exec.
      rewrite (sendMessageREST_failed _ w (AppError (js "HTTP " ++ decimal status)));
        [reflexivity|].
      unfold apiCall_block. rewrite Hp, Hok. cbn [negb]. unfold bind, lift.
      rewrite Herr. unfold or_else. rewrite Htr. reflexivity.
    + intros s -> Hs. unfold exec.
      rewrite (sendMessageREST_failed _ w (AppError s)); [reflexivity|].
      unfold apiCall_block. rewrite Hp, Hok. cbn [negb]. unfold bind, lift.
      rewrite Herr. unfold or_else.
      replace (truthy (JStr s)) with true by (destruct s; [contradiction | reflexivity]).
      reflexivity.
Qed.

Lemma build_message_text v c i cf e s :
  to_text v = Normal c ->
  truthy i = false ->
  build_message v (JStr (js "bot"))
    (JObj [(js "intent", i); (js "confidence", cf); (js "entities", e); (js "sentiment", s)])
  = Normal (message_node (js "bot", c)).
Proof.
  intros Hc Hi. unfold build_message, metadata_block.
  change (is_string (js "bot") (JStr (js "bot"))) with true. cbv iota.
  change (get _ (js "intent")) with (Normal i).
  change (ToString (JStr (js "bot"))) with (Normal (js "bot")).
  unfold cbind. rewrite Hc, Hi. unfold message_node. cbn [fst snd].
  rewrite app_nil_r. reflexivity.
Qed.

(** X24. For an [ok] response without intent, [sendMessageREST] adds a
    bot message with the text of [bot_response] whatever it is: a reply
    without [bot_response] is displayed as an empty bot message (the
    socket path adds none), and no toast is shown.  A body [null] makes
    reading [data.bot_response] throw outside [apiCall]: the error toast
    shows the [TypeError], and nothing is logged. *)
Theorem sendMessageREST_reply (w : World) (status : N) (body : jsstring) (data : jsval) :
  response_ok status = true ->
  JSON_parse body = Some data ->
  let w' := exec (sendMessageREST_resume (HttpResponse status body)) w in
  (forall ms v c i,
     data = JObj ms ->
     get data (js "bot_response") = Normal v -> to_text v = Normal c ->
     get data (js "intent") = Normal i -> truthy i = false ->
     displayed w' = displayed w ++ [Some (js "bot", c)]
     /\ props (page w') = props (page w))
  /\ (data = JNull ->
      w' = toast_shown errorToast errorMessage
             (js "Failed to send message: " ++ engine_message TypeError) w).
Proof.
  intros Hok Hp w'. subst w'.
  assert (Hapi : apiCall_resume (HttpResponse status body) w = (Normal data, w)).
  { unfold apiCall_resume, try_catch_value, apiCall_block. rewrite Hp, Hok. reflexivity. }
  split.
  - intros ms v c i -> Hv Hc Hi Htr.
    assert (E : sendMessageREST_resume (HttpResponse status body) w
                = (Normal tt, saved (appended (message_node (js "bot", c)) w))).
    { unfold sendMessageREST_resume, try_catch. unfold bind at 1. rewrite Hapi.
      cbv beta iota zeta. unfold bind at 1, lift at 1. rewrite Hv. cbv beta iota zeta.
      unfold bind at 1, lift at 1. rewrite Hi. cbv beta iota zeta.
      change (get (JObj ms) (js "confidence"))
        with (Normal (default JUndefined (own_property (js "confidence") ms))).
      change (get (JObj ms) (js "entities"))
        with (Normal (default JUndefined (own_property (js "entities") ms))).
      change (get (JObj ms) (js "sentiment"))
        with (Normal (default JUndefined (own_property (js "sentiment") ms))).
      unfold bind, lift. cbv beta iota zeta.
      rewrite addMessage_eq.
      change (default_metadata (JObj ?x)) with (JObj x).
      rewrite (build_message_text v c i _ _ _ Hc Htr). reflexivity. }
    unfold exec. rewrite E. cbn [snd]. split; [|rewrite saved_page; reflexivity].
    apply (displayed_appended (js "bot", c)). right. reflexivity.
  - intros ->. unfold exec, sendMessageREST_resume, try_catch. unfold bind at 1.
    rewrite Hapi. cbv beta iota zeta. unfold bind at 1, lift at 1.
    change (get JNull (js "bot_response")) with (@Throw jsval (EngineError TypeError)).
    cbv beta iota zeta. rewrite showError_string. reflexivity.
Qed.

Lemma rest_body_text m sid n rest :
  rest_body (JStr m) sid (Z.of_N n) ++ rest
  = 123 :: QuoteJSONString (js "message") ++ 58 :: QuoteJSONString m
        ++ 44 :: QuoteJSONString (js "session_id") ++ 58 :: QuoteJSONString sid
        ++ 44 :: QuoteJSONString (js "user_id") ++ 58 :: decimal n ++ 125 :: rest.
Proof.
  unfold rest_body, JSON_stringify. cbn [JSON_text join number_text]. rewrite decimalZ_of_N.
  change (js "{") with [123]. change (js "}") with [125].
  change (js ",") with [44]. change (js ":") with [58].
  rewrite <- !app_assoc. reflexivity.
Qed.

Lemma read_value_rest_body f m sid n rest :
  read_value (S (S f)) (rest_body (JStr m) sid (Z.of_N n) ++ rest)
  = Some (JObj [(js "message", JStr m); (js "session_id", JStr sid);
                (js "user_id", JNum (reparsed n))], rest).
Proof.
  rewrite rest_body_text.
  match goal with
  | |- read_value _ (123 :: ?b) = _ =>
      assert (Hbody : forall k, read_members (read_value (S f)) (S (S (S k))) b
                = Some ([(js "message", JStr m); (js "session_id", JStr sid);
                         (js "user_id", JNum (reparsed n))], rest))
  end.
  { intros k.
    apply read_members_more; [apply read_value_string|].
    apply read_members_more; [apply read_value_string|].
    apply read_members_last. apply read_value_timestamp. }
  rewrite (QuoteJSONString_app (js "message")) in Hbody |- *.
  rewrite read_value_object.
  cbn [length]. rewrite length_app. cbn [length]. rewrite !Nat.add_succ_r.
  rewrite Hbody. reflexivity.
Qed.

(** X25. The request of [sendMessageREST]: one [POST] to [/api/chat]
    with the JSON content type, whose body parses back to the message,
    the session id and the user id; nothing else of the state changes. *)
Theorem sendMessageREST_request (w : World) (m : jsstring) (n : N) :
  userId (app w) = Z.of_N n ->
  exists call,
    sendMessageREST_start (JStr m) w
    = (Normal call,
       with_env (fun e => set_requests (requests e ++ [js "/api/chat"]) e) w)
    /\ fetch_url call = js "/api/chat"
    /\ fetch_method call = js "POST"
    /\ fetch_headers call = [(js "Content-Type", js "application/json")]
    /\ JSON_parse (fetch_body call)
       = Some (JObj [(js "message", JStr m);
                     (js "session_id", JStr (sessionId (app w)));
                     (js "user_id", JNum (reparsed n))]).
Proof.
  intros Hu. eexists. split; [reflexivity|]. cbn [fetch_url fetch_method fetch_headers fetch_body].
  repeat split. rewrite Hu. unfold JSON_parse.
  pose proof (rest_body_text m (sessionId (app w)) n []) as Ht. rewrite app_nil_r in Ht.
  pose proof (read_value_rest_body (length (rest_body (JStr m) (sessionId (app w)) (Z.of_N n)) - 1)
                m (sessionId (app w)) n []) as Hr.
  rewrite app_nil_r in Hr.
  replace (S (length (rest_body (JStr m) (sessionId (app w)) (Z.of_N n))))
    with (S (S (length (rest_body (JStr m) (sessionId (app w)) (Z.of_N n)) - 1)))
    by (rewrite Ht; cbn [length]; lia).
  rewrite Hr. reflexivity.
Qed.

End More.

(** * [debounce] *)

Section DebounceProps.
Variable A : Type.
Implicit Types (d : Debouncer A) (evs : list (debounce_event A)).

Lemma clearTimeout_one_timer d :
  one_timer d -> db_scheduled (clearTimeout d) = [].
Proof.
  unfold clearTimeout. intros [H|(id & due & args & H & Ht)].
  - destruct (db_timeout d); simpl; rewrite ?H; reflexivity.
  - rewrite Ht. simpl. rewrite H. simpl. rewrite Nat.eqb_refl. reflexivity.
Qed.

Lemma clearTimeout_frame d :
  db_calls (clearTimeout d) = db_calls d
  /\ db_clock (clearTimeout d) = db_clock d
  /\ db_next (clearTimeout d) = db_next d
  /\ db_timeout (clearTimeout d) = db_timeout d.
Proof. unfold clearTimeout. destruct (db_timeout d) eqn:E; simpl; auto. Qed.

Lemma executedFunction_one_timer wait a d :
  one_timer d ->
  db_scheduled (executedFunction wait a d) = [(db_next d, db_clock d + wait, a)]
  /\ db_timeout (executedFunction wait a d) = Some (db_next d)
  /\ db_calls (executedFunction wait a d) = db_calls d
  /\ db_clock (executedFunction wait a d) = db_clock d.
Proof.
  intros H. destruct (clearTimeout_frame d) as (Hc & Hk & Hn & _).
  unfold executedFunction. simpl. rewrite (clearTimeout_one_timer d H), Hc, Hk, Hn.
  repeat split.
Qed.

Lemma expire_one_timer wait d id :
  one_timer d ->
  (debounce_step wait d (Expire id) = d)
  \/ exists due args,
       db_scheduled d = [(id, due, args)] /\ due <= db_clock d
       /\ db_scheduled (debounce_step wait d (Expire id)) = []
       /\ db_calls (debounce_step wait d (Expire id)) = db_calls d ++ [(db_clock d, args)]
       /\ db_clock (debounce_step wait d (Expire id)) = db_clock d.
Proof.
  intros [H|(id' & due & args & H & Ht)]; simpl; rewrite H; simpl; [left; reflexivity|].
  destruct (Nat.eqb id' id) eqn:Hid; [|left; reflexivity].
  apply Nat.eqb_eq in Hid. subst id'.
  destruct (due <=? db_clock d) eqn:Hdue; [|left; reflexivity].
  right. exists due, args. apply N.leb_le in Hdue.
  unfold later, clearTimeout. simpl. rewrite Ht. simpl.
  repeat split; assumption.
Qed.

Lemma step_one_timer wait d ev : one_timer d -> one_timer (debounce_step wait d ev).
Proof.
  intros H. destruct ev as [a|ms|id].
  - destruct (executedFunction_one_timer wait a d H) as (Hs & Ht & _).
    right. eexists _, _, _. split; [exact Hs | exact Ht].
  - exact H.
  - destruct (expire_one_timer wait d id H) as [->|(due & args & _ & _ & Hs & _)];
      [exact H | left; exact Hs].
Qed.

Lemma run_one_timer wait evs d : one_timer d -> one_timer (debounce_run wait d evs).
Proof.
  revert d. induction evs as [|ev r IH]; intros d H; [exact H|].
  apply IH, step_one_timer, H.
Qed.

Lemma invoked_app evs1 evs2 : invoked (evs1 ++ evs2) = invoked evs1 ++ invoked evs2.
Proof. apply omap_app. Qed.

Lemma step_delivers wait d ev (pre : list A) :
  one_timer d ->
  sublist (List.map snd (db_calls d) ++ List.map snd (db_scheduled d)) pre ->
  sublist (List.map snd (db_calls (debounce_step wait d ev))
           ++ List.map snd (db_scheduled (debounce_step wait d ev)))
    (pre ++ invoked [ev]).
Proof.
  intros H Hsub. destruct ev as [a|ms|id].
  - destruct (executedFunction_one_timer wait a d H) as (Hs & _ & Hc & _).
    simpl debounce_step. rewrite Hs, Hc. simpl.
    apply sublist_app; [|reflexivity].
    etransitivity; [|exact Hsub]. apply sublist_inserts_r. reflexivity.
  - simpl. rewrite app_nil_r. exact Hsub.
  - change (invoked [Expire id]) with (@nil A). rewrite app_nil_r.
    destruct (expire_one_timer wait d id H) as [->|(due & args & Hd & _ & Hs & Hc & _)];
      [exact Hsub|].
    rewrite Hs, Hc, List.map_app, app_nil_r. rewrite Hd in Hsub. exact Hsub.
Qed.

(** X26. Whatever happens to a debounced function made by [debounce],
    at most one of its timers is pending, and the arguments [func] has
    been called with, followed by those of the pending timer, form
    a subsequence of the arguments of the invocations: [func] is never
    called more often than the debounced function. *)
Theorem debounce_delivers_a_subsequence (wait : N) (next : nat) (t : N)
    (evs : list (debounce_event A)) :
  let d := debounce_run wait (debounce next t) evs in
  one_timer d
  /\ sublist (List.map snd (db_calls d) ++ List.map snd (db_scheduled d)) (invoked evs)
  /\ (length (db_calls d) <= length (invoked evs))%nat.
Proof.
  intros d. subst d.
  assert (H : forall evs d pre,
            one_timer d ->
            sublist (List.map snd (db_calls d) ++ List.map snd (db_scheduled d)) pre ->
            one_timer (debounce_run wait d evs)
            /\ sublist (List.map snd (db_calls (debounce_run wait d evs))
                        ++ List.map snd (db_scheduled (debounce_run wait d evs)))
                 (pre ++ invoked evs)).
  { clear evs. induction evs as [|ev r IH]; intros d pre Hd Hsub.
    - simpl. rewrite app_nil_r. split; assumption.
    - change (ev :: r) with ([ev] ++ r). rewrite invoked_app, app_assoc.
      apply (IH (debounce_step wait d ev)).
      + apply step_one_timer, Hd.
      + apply step_delivers; assumption. }
  destruct (H evs (debounce next t) []) as [H1 H2]; [left; reflexivity | reflexivity|].
  rewrite app_nil_l in H2. split; [exact H1|]. split; [exact H2|].
  apply sublist_length in H2. rewrite length_app, !length_map in H2. lia.
Qed.

Lemma quiet_run wait evs d :
  forallb (fun ev => negb (is_expire ev)) evs = true ->
  db_calls (debounce_run wait d evs) = db_calls d.
Proof.
  revert d. induction evs as [|ev r IH]; intros d H; [reflexivity|].
  simpl in H. apply andb_true_iff in H as [Hev Hr]. simpl. rewrite (IH _ Hr).
  destruct ev as [a|ms|id]; [|reflexivity|discriminate].
  unfold debounce_step, executedFunction. simpl. apply clearTimeout_frame.
Qed.

(** X27. A burst of invocations during which no timer fires, ending
    with an invocation with arguments [a], calls [func] not at all and
    leaves one timer, due [wait] after that last invocation.  Looked at
    earlier than that, the timer does nothing; once [wait] has passed it
    calls [func] exactly once, with [a], and no timer is left. *)
Theorem debounce_burst (wait : N) (d : Debouncer A) (evs : list (debounce_event A)) (a : A) :
  one_timer d ->
  forallb (fun ev => negb (is_expire ev)) evs = true ->
  let d1 := debounce_run wait d (evs ++ [Invoke a]) in
  db_calls d1 = db_calls d
  /\ exists id,
       db_scheduled d1 = [(id, db_clock d1 + wait, a)]
       /\ (forall ms, ms < wait ->
             debounce_run wait d1 [Elapse ms; Expire id] = debounce_step wait d1 (Elapse ms))
       /\ (forall ms, wait <= ms ->
             db_calls (debounce_run wait d1 [Elapse ms; Expire id])
             = db_calls d ++ [(db_clock d1 + ms, a)]
             /\ db_scheduled (debounce_run wait d1 [Elapse ms; Expire id]) = []).
Proof.
  intros Hd Hq d1.
  assert (E : d1 = executedFunction wait a (debounce_run wait d evs))
    by (subst d1; unfold debounce_run; rewrite fold_left_app; reflexivity).
  clearbody d1. subst d1. set (d0 := debounce_run wait d evs).
  assert (H0 : one_timer d0) by (apply run_one_timer, Hd).
  assert (Hc0 : db_calls d0 = db_calls d) by (apply quiet_run, Hq).
  destruct (executedFunction_one_timer wait a d0 H0) as (Hs & Ht & Hc & Hk).
  set (d1 := executedFunction wait a d0) in *.
  split; [rewrite Hc; exact Hc0|].
  exists (db_next d0). rewrite Hk. split; [exact Hs|]. split.
  - intros ms Hms. unfold debounce_run. cbn [fold_left].
    unfold debounce_step at 1. cbn [db_scheduled db_clock debounce_step].
    rewrite Hs. cbn [List.find fst]. rewrite Nat.eqb_refl.
    replace (db_clock d0 + wait <=? db_clock d1 + ms) with false; [reflexivity|].
    symmetry. apply N.leb_gt. rewrite Hk. lia.
  - intros ms Hms. unfold debounce_run. cbn [fold_left].
    unfold debounce_step at 1. cbn [db_scheduled db_clock debounce_step].
    rewrite Hs. cbn [List.find fst]. rewrite Nat.eqb_refl.
    replace (db_clock d0 + wait <=? db_clock d1 + ms) with true
      by (symmetry; apply N.leb_le; rewrite Hk; lia).
    unfold later, clearTimeout. cbn [db_timeout db_scheduled db_calls db_clock db_next].
    rewrite Ht. cbn [db_timeout db_scheduled db_calls db_clock db_next List.filter fst].
    rewrite Nat.eqb_refl. cbn [negb List.filter]. rewrite Hc, Hc0, Hk. split; reflexivity.
Qed.

End DebounceProps.

(** * The further properties on the sample page *)

Lemma sendMessage_accepted_witness :
  trim (input_value (page sample_typed)) <> []
  /\ isConnected (app sample_typed) = true
  /\ socket (app sample_typed) = Some 0%nat
  /\ displayed (exec (@sendMessage sample_host) sample_typed)
     = displayed sample_typed ++ [Some (js "user", js "hi there")].
Proof.
  assert (H : trim (input_value (page sample_typed)) <> []) by discriminate.
  split; [exact H|]. split; [reflexivity|]. split; [reflexivity|].
  exact (proj1 (proj2 (proj2
           (@sendMessage_accepted sample_host sample_typed 0%nat H eq_refl eq_refl)))).
Defined.

Lemma sendMessage_returns_once_socket_opened_witness :
  socket (app sample_online) <> None
  /\ fst (@sendMessage sample_host
            (@run sample_host sample_online [SocketDisconnect; Online; ClickSend]))
     = Normal tt.
Proof.
  assert (H : socket (app sample_online) <> None) by discriminate.
  split; [exact H|].
  exact (proj2 (@sendMessage_returns_once_socket_opened sample_host sample_online
                  [SocketDisconnect; Online; ClickSend] H)).
Defined.

Lemma handleBotResponse_reply_witness :
  @get (JObj [(js "bot_response", JStr (js "Hi!"))]) (js "bot_response")
  = Normal (JStr (js "Hi!"))
  /\ displayed (exec (@handleBotResponse sample_host
                        (JObj [(js "bot_response", JStr (js "Hi!"))])) sample_online)
     = displayed sample_online ++ [Some (js "bot", js "Hi!")].
Proof.
  split; [reflexivity|].
  assert (Hr : js "Hi!" <> []) by discriminate.
  exact (proj2 (proj2 (proj2 (proj2
           (@handleBotResponse_reply sample_host sample_online
              (JObj [(js "bot_response", JStr (js "Hi!"))]) (JStr (js "Hi!")) eq_refl))
           (js "Hi!") JUndefined eq_refl Hr eq_refl eq_refl))).
Defined.

Lemma handleBotResponse_without_payload_witness :
  (JNull = JNull \/ JNull = JUndefined)
  /\ fst (@handleBotResponse sample_host JNull sample_online) = Throw (EngineError TypeError).
Proof.
  split; [left; reflexivity|].
  exact (proj1 (@handleBotResponse_without_payload sample_host sample_online JNull
                  (or_introl eq_refl))).
Defined.

Lemma socket_error_toast_witness :
  @get (JObj []) (js "message") = Normal JUndefined
  /\ @truthy sample_host JUndefined = false
  /\ prop errorMessage prop_textContent (@step sample_host sample_online (SocketError (JObj [])))
     = js "An error occurred".
Proof.
  split; [reflexivity|]. split; [reflexivity|].
  exact (proj1 (proj1 (proj1 (@socket_error_toast sample_host sample_online (JObj []))
                         JUndefined eq_refl) eq_refl)).
Defined.

Lemma typing_flag_matches_indicator_witness :
  typing_consistent sample_online
  /\ indicator_timers sample_online
  /\ Forall (fun ev => ev <> ClickCloseToast (Some typingIndicator))
       [SocketTyping (JObj [(js "typing", JBool true)]); SocketMessage sample_reply;
        TimerFires 0]
  /\ typing_consistent
       (@run sample_host sample_online
          [SocketTyping (JObj [(js "typing", JBool true)]); SocketMessage sample_reply;
           TimerFires 0]).
Proof.
  assert (H1 : typing_consistent sample_online) by (split; intros H; discriminate H).
  assert (H2 : indicator_timers sample_online)
    by (apply List.Forall_cons; [discriminate | apply List.Forall_nil]).
  assert (H3 : Forall (fun ev => ev <> ClickCloseToast (Some typingIndicator))
                 [SocketTyping (JObj [(js "typing", JBool true)]); SocketMessage sample_reply;
                  TimerFires 0])
    by (repeat (apply List.Forall_cons; [discriminate|]); apply List.Forall_nil).
  split; [exact H1|]. split; [exact H2|]. split; [exact H3|].
  exact (@typing_flag_matches_indicator sample_host sample_online _ H1 H2 H3).
Defined.

Lemma connected_flag_matches_status_witness :
  status_consistent sample_loaded
  /\ status_consistent
       (@run sample_host sample_loaded [SocketConnect; SocketDisconnect; Online]).
Proof.
  assert (H : status_consistent sample_loaded) by (split; intros H; discriminate H).
  split; [exact H|].
  exact (@connected_flag_matches_status sample_host sample_loaded
           [SocketConnect; SocketDisconnect; Online] H).
Defined.

Lemma saveChatHistory_element_without_bubble_witness :
  In None (displayed sample_broken)
  /\ localStorage (env (exec (@saveChatHistory sample_host) sample_broken))
     = localStorage (env sample_broken).
Proof.
  assert (H : In None (displayed sample_broken)) by (right; left; reflexivity).
  split; [exact H|].
  exact (proj1 (proj2 (@saveChatHistory_element_without_bubble sample_host sample_broken H))).
Defined.

Lemma saveChatHistory_overwrites_witness :
  displayed sample_chat = List.map Some [(js "user", js "hello")]
  /\ exec (@saveChatHistory sample_host) (stored (js "[]") sample_chat)
     = exec (@saveChatHistory sample_host) sample_chat
  /\ 1700000000500 <> now (env sample_chat)
  /\ exec (@saveChatHistory sample_host)
       (at_time 1700000000500 (exec (@saveChatHistory sample_host) sample_chat))
     = exec (@saveChatHistory sample_host) (at_time 1700000000500 sample_chat)
  /\ localStorage (env (exec (@saveChatHistory sample_host)
                          (at_time 1700000000500
                             (exec (@saveChatHistory sample_host) sample_chat))))
       !! history_key (sessionId (app sample_chat))
     <> localStorage (env (exec (@saveChatHistory sample_host) sample_chat))
          !! history_key (sessionId (app sample_chat)).
Proof.
  assert (Hne : 1700000000500 <> now (env sample_chat)) by discriminate.
  assert (Hps : [(js "user", js "hello")] <> @nil (jsstring * jsstring)) by discriminate.
  destruct (@saveChatHistory_overwrites sample_host sample_chat
              [(js "user", js "hello")] eq_refl) as (Hold & Hlater & Hdiffers).
  split; [reflexivity|]. split; [exact (Hold (js "[]"))|]. split; [exact Hne|].
  split; [exact (Hlater 1700000000500) | exact (Hdiffers 1700000000500 Hps Hne)].
Defined.

Lemma stored_history_is_the_displayed_list_witness :
  displayed sample_chat = List.map Some [(js "user", js "hello")]
  /\ exists text,
       localStorage (env (exec (@saveChatHistory sample_host) sample_chat))
         !! history_key (sessionId (app sample_chat)) = Some text
       /\ @JSON_parse text
          = Some (JArr (List.map (read_back (now (env sample_chat)))
                          [(js "user", js "hello")])).
Proof.
  split; [reflexivity|].
  destruct (@stored_history_is_the_displayed_list sample_host sample_chat
              [(js "user", js "hello")] eq_refl) as (text & H1 & H2 & _).
  exists text. split; [exact H1 | exact H2].
Defined.

Lemma loadChatHistory_not_an_array_witness :
  localStorage (env (stored (js "{}") sample_world))
    !! history_key (sessionId (app (stored (js "{}") sample_world))) = Some (js "{}")
  /\ js "{}" <> []
  /\ @JSON_parse (js "{}") = Some (JObj [])
  /\ (forall messages, JObj [] <> JArr messages)
  /\ @loadChatHistory sample_host (stored (js "{}") sample_world)
     = (Normal tt,
        with_env (fun e =>
          set_console (console e ++ [load_failure (EngineError TypeError)]) e)
          (stored (js "{}") sample_world)).
Proof.
  assert (H1 : localStorage (env (stored (js "{}") sample_world))
                 !! history_key (sessionId (app (stored (js "{}") sample_world)))
               = Some (js "{}")) by apply lookup_insert_eq.
  assert (H2 : js "{}" <> []) by discriminate.
  assert (H4 : forall messages, JObj [] <> JArr messages) by discriminate.
  split; [exact H1|]. split; [exact H2|]. split; [reflexivity|]. split; [exact H4|].
  exact (@loadChatHistory_not_an_array sample_host (stored (js "{}") sample_world)
           (js "{}") (JObj []) H1 H2 eq_refl H4).
Defined.

Lemma loadChatHistory_stops_at_null_witness :
  localStorage (env (stored sample_truncated sample_world))
    !! history_key (sessionId (app (stored sample_truncated sample_world)))
  = Some sample_truncated
  /\ sample_truncated <> []
  /\ @JSON_parse sample_truncated
     = Some (JArr (List.map (read_back 5) [(js "user", js "hi")] ++ JNull :: []))
  /\ displayed (exec (@loadChatHistory sample_host) (stored sample_truncated sample_world))
     = displayed (stored sample_truncated sample_world) ++ List.map Some [(js "user", js "hi")].
Proof.
  assert (H1 : localStorage (env (stored sample_truncated sample_world))
                 !! history_key (sessionId (app (stored sample_truncated sample_world)))
               = Some sample_truncated) by apply lookup_insert_eq.
  assert (H2 : sample_truncated <> []) by discriminate.
  assert (H3 : @JSON_parse sample_truncated
               = Some (JArr (List.map (read_back 5) [(js "user", js "hi")] ++ JNull :: [])))
    by (vm_compute; reflexivity).
  assert (H4 : Forall (fun p : jsstring * jsstring => fst p = js "user" \/ fst p = js "bot")
                 [(js "user", js "hi")])
    by (apply List.Forall_cons; [left; reflexivity | apply List.Forall_nil]).
  split; [exact H1|]. split; [exact H2|]. split; [exact H3|].
  exact (proj1 (proj2 (@loadChatHistory_stops_at_null sample_host
                         (stored sample_truncated sample_world) sample_truncated 5
                         [(js "user", js "hi")] [] H1 H2 H3 H4))).
Defined.

Lemma loadChatHistory_appends_to_the_page_witness :
  displayed sample_chat = List.map Some [(js "user", js "hello")]
  /\ displayed (exec (@loadChatHistory sample_host)
                  (exec (@saveChatHistory sample_host) sample_chat))
     = List.map Some [(js "user", js "hello"); (js "user", js "hello")].
Proof.
  split; [reflexivity|].
  exact (proj2 (@loadChatHistory_appends_to_the_page sample_host sample_chat
                  [(js "user", js "hello")] (app sample_chat) (page sample_chat)
                  (env (exec (@saveChatHistory sample_host) sample_chat))
                  eq_refl eq_refl eq_refl)).
Defined.

Lemma clearChat_undoes_the_added_messages_witness :
  querySelectorAll (js "message") (chat_children (page sample_world)) = []
  /\ Forall (@call_ok sample_host) sample_calls
  /\ chat_children (page (exec (@clearChat sample_host true)
                            (fold_left (@add_call sample_host) sample_calls sample_world)))
     = chat_children (page sample_world).
Proof.
  assert (Hok : Forall (@call_ok sample_host) sample_calls).
  { apply List.Forall_cons; [|apply List.Forall_cons; [|apply List.Forall_nil]].
    - split; [left; reflexivity|].
      intros blk H. vm_compute in H. injection H as <-. reflexivity.
    - split; [right; reflexivity|].
      intros blk H. vm_compute in H. injection H as <-. reflexivity. }
  split; [reflexivity|]. split; [exact Hok|].
  exact (proj1 (@clearChat_undoes_the_added_messages sample_host sample_world sample_calls
                  eq_refl Hok)).
Defined.

Lemma intent_rows_follow_the_response_witness :
  @get sample_response (js "intent_distribution")
  = Normal (JObj [(js "greeting", JNum (Int 3)); (js "task_query", JNum (Int 1))])
  /\ List.NoDup [js "greeting"; js "task_query"]
  /\ Forall (fun kv : jsstring * jsval => array_index (fst kv) = None)
       [(js "greeting", JNum (Int 3)); (js "task_query", JNum (Int 1))]
  /\ @intent_rows sample_host sample_response
     = map_completion (@intent_row sample_host)
         [(js "greeting", JNum (Int 3)); (js "task_query", JNum (Int 1))].
Proof.
  assert (H2 : List.NoDup (List.map fst
                 [(js "greeting", JNum (Int 3)); (js "task_query", JNum (Int 1))])).
  { apply List.NoDup_cons; [intros [H|[]]; discriminate H|].
    apply List.NoDup_cons; [intros [] | apply List.NoDup_nil]. }
  assert (H3 : Forall (fun kv : jsstring * jsval => array_index (fst kv) = None)
                 [(js "greeting", JNum (Int 3)); (js "task_query", JNum (Int 1))])
    by (repeat (apply List.Forall_cons; [reflexivity|]); apply List.Forall_nil).
  split; [reflexivity|]. split; [exact H2|]. split; [exact H3|].
  exact (proj1 (proj2 (@intent_rows_follow_the_response sample_host sample_response
                         [(js "greeting", JNum (Int 3)); (js "task_query", JNum (Int 1))]
                         eq_refl H2 H3))).
Defined.

Lemma showAnalytics_failure_is_shown_witness :
  FetchResponse false (js "{}") = FetchResponse false (js "{}")
  /\ @JSON_parse (js "{}") = Some (JObj [])
  /\ @get (JObj []) (js "error") = Normal JUndefined
  /\ @truthy sample_host JUndefined = false
  /\ prop analyticsContent prop_innerHTML
       (exec (@showAnalytics_resume sample_host (FetchResponse false (js "{}"))) sample_online)
     = analytics_error_markup (js "Failed to load analytics").
Proof.
  split; [reflexivity|]. split; [reflexivity|]. split; [reflexivity|]. split; [reflexivity|].
  exact (proj1 (proj2 (proj2 (proj2 (proj2
           (@showAnalytics_failure_is_shown sample_host
              (FetchResponse false (js "{}")) sample_online))))
           (js "{}") (JObj []) JUndefined eq_refl eq_refl eq_refl) eq_refl).
Defined.

Lemma generateSessionId_distinct_in_time_witness :
  no_underscore (js "0.k2j3h4g5f6")
  /\ no_underscore (js "0.k2j3h4g5f6")
  /\ 1700000000000 <> 1700000000001
  /\ history_key (generateSessionId (js "0.k2j3h4g5f6") 1700000000000)
     <> history_key (generateSessionId (js "0.k2j3h4g5f6") 1700000000001).
Proof.
  assert (H : no_underscore (js "0.k2j3h4g5f6"))
    by (repeat (apply List.Forall_cons; [discriminate|]); apply List.Forall_nil).
  assert (Ht : 1700000000000 <> 1700000000001) by discriminate.
  split; [exact H|]. split; [exact H|]. split; [exact Ht|].
  exact (proj2 (generateSessionId_distinct_in_time (js "0.k2j3h4g5f6") (js "0.k2j3h4g5f6")
                  1700000000000 1700000000001 H H) Ht).
Defined.

Lemma page_load_starts_a_new_history_witness :
  no_underscore (js "0.k2j3h4g5f6")
  /\ (forall sid, is_Some (localStorage sample_returning !! history_key sid) ->
        exists r' t', sid = generateSessionId r' t'
                      /\ no_underscore r' /\ t' <> now sample_returning)
  /\ chat_children
       (page (@new_ChatbotApp sample_host (js "0.k2j3h4g5f6") blank_page sample_returning))
     = chat_children blank_page.
Proof.
  assert (H : no_underscore (js "0.k2j3h4g5f6"))
    by (repeat (apply List.Forall_cons; [discriminate|]); apply List.Forall_nil).
  assert (Hk : forall sid,
            is_Some (localStorage sample_returning !! history_key sid) ->
            exists r' t', sid = generateSessionId r' t'
                          /\ no_underscore r' /\ t' <> now sample_returning).
  { intros sid Hsome. exists (js "0.a1b2c3d4e5"), 1699999999999.
    split; [|split].
    - destruct (decide (sid = generateSessionId (js "0.a1b2c3d4e5") 1699999999999))
        as [->|Hne]; [reflexivity|].
      exfalso. destruct Hsome as [v Hv]. unfold sample_returning in Hv. cbn [localStorage] in Hv.
      rewrite lookup_insert_ne in Hv by (intros E; apply history_key_inj in E; congruence).
      rewrite lookup_empty in Hv. discriminate Hv.
    - repeat (apply List.Forall_cons; [discriminate|]); apply List.Forall_nil.
    - discriminate. }
  split; [exact H|]. split; [exact Hk|].
  exact (proj1 (proj2 (@page_load_starts_a_new_history sample_host (js "0.k2j3h4g5f6")
                         blank_page sample_returning H Hk))).
Defined.

Lemma events_keep_the_session_and_other_keys_witness :
  js "other" <> history_key (sessionId (app sample_typed))
  /\ localStorage (env (@run sample_host sample_typed [ClickSend; ClickClear true])) !! js "other"
     = localStorage (env sample_typed) !! js "other".
Proof.
  assert (H : js "other" <> history_key (sessionId (app sample_typed))) by discriminate.
  split; [exact H|].
  exact (proj2 (proj2 (@events_keep_the_session_and_other_keys sample_host sample_typed
                         [ClickSend; ClickClear true])) (js "other") H).
Defined.


Lemma sendMessageREST_failure_is_shown_witness :
  HttpResponse 500 (js "{}") = HttpResponse 500 (js "{}")
  /\ response_ok 500 = false
  /\ @JSON_parse (js "{}") = Some (JObj [])
  /\ @get (JObj []) (js "error") = Normal JUndefined
  /\ @truthy sample_host JUndefined = false
  /\ prop errorMessage prop_textContent
       (exec (@sendMessageREST_resume sample_host (HttpResponse 500 (js "{}"))) sample_world)
     = js "Failed to send message: HTTP 500".
Proof.
  split; [reflexivity|]. split; [reflexivity|]. split; [reflexivity|].
  split; [reflexivity|]. split; [reflexivity|].
  rewrite (proj1 (proj2 (proj2 (proj2
             (@sendMessageREST_failure_is_shown sample_host
                (HttpResponse 500 (js "{}")) sample_world)))
             500 (js "{}") (JObj []) JUndefined eq_refl eq_refl eq_refl eq_refl) eq_refl).
  reflexivity.
Defined.

Lemma sendMessageREST_reply_witness :
  response_ok 200 = true
  /\ @JSON_parse (js "{}") = Some (JObj [])
  /\ displayed (exec (@sendMessageREST_resume sample_host (HttpResponse 200 (js "{}")))
                  sample_world)
     = displayed sample_world ++ [Some (js "bot", [])].
Proof.
  split; [reflexivity|]. split; [reflexivity|].
  exact (proj1 (proj1 (@sendMessageREST_reply sample_host sample_world 200 (js "{}") (JObj [])
                         eq_refl eq_refl)
                  [] JUndefined [] JUndefined eq_refl eq_refl eq_refl eq_refl eq_refl)).
Defined.

Lemma sendMessageREST_request_witness :
  userId (app sample_world) = Z.of_N 1
  /\ exists call,
       fst (@sendMessageREST_start sample_host (JStr (js "hello")) sample_world) = Normal call
       /\ @JSON_parse (fetch_body call)
          = Some (JObj [(js "message", JStr (js "hello"));
                        (js "session_id", JStr (sessionId (app sample_world)));
                        (js "user_id", JNum (reparsed 1))]).
Proof.
  split; [reflexivity|].
  destruct (@sendMessageREST_request sample_host sample_world (js "hello") 1 eq_refl)
    as (call & H1 & _ & _ & _ & H2).
  exists call. split; [rewrite H1; reflexivity | exact H2].
Defined.

Lemma debounce_burst_witness :
  one_timer (debounce (A := jsstring) 1 0)
  /\ forallb (fun ev => negb (is_expire ev))
       [Invoke (js "a"); Elapse 100; Invoke (js "ab")] = true
  /\ db_calls (debounce_run 300
                 (debounce_run 300 (debounce 1 0)
                    ([Invoke (js "a"); Elapse 100; Invoke (js "ab")] ++ [Invoke (js "abc")]))
                 [Elapse 300; Expire 3])
     = [(400, js "abc")].
Proof.
  assert (H : one_timer (debounce (A := jsstring) 1 0)) by (left; reflexivity).
  split; [exact H|]. split; [reflexivity|].
  destruct (debounce_burst jsstring 300 (debounce 1 0)
              [Invoke (js "a"); Elapse 100; Invoke (js "ab")] (js "abc") H eq_refl)
    as (_ & id & Hs & _ & Hfire).
  injection Hs as <- .
  exact (proj1 (Hfire 300 (N.le_refl 300))).
Defined.
